(** * Order orchestrator and inventory engine: a shallow embedding

    The development follows the JavaScript sources of the order service
    (rounding.js, totalService.js, idempotency.js, orderService.js,
    orderController.js) and of the inventory service (its Express
    handlers for reserve, confirm, release, ship and the reaper).

    JavaScript numbers that carry money are modelled as rationals [Q]:
    every operation used on them (+, *, /, Math.round, Math.abs, %) is
    modelled exactly, without binary rounding error.  Identifiers and
    quantities are integers [Z]; SQL tables are lists of records with the
    statements of the handlers written as list functions; a transaction
    is a function from the database to a new database, and a rollback
    returns the database the transaction started from. *)

From Stdlib Require Import ZArith QArith Qabs Qround List String Bool Lia Lqa.
Import ListNotations.
Local Open Scope Z_scope.

(* ===================================================================== *)
(** * utils/rounding.js *)
(* ===================================================================== *)

Module Rounding.

(** [Math.round]: the nearest integer, a tie going towards +infinity. *)
Definition Math_round (x : Q) : Z := Qfloor (x + (1 # 2)).

(** [num > 0] on numbers. *)
Definition Qgtb (x y : Q) : bool := negb (Qle_bool x y).

(** [Math.pow(10, decimals)]. *)
Definition pow10 (decimals : nat) : Q := inject_Z (10 ^ Z.of_nat decimals).

(** [bankersRound(value, decimals)], statement by statement.  The
    JavaScript [%] is the truncating remainder [Z.rem]. *)
Definition bankersRound (value : Q) (decimals : nat) : Q :=
  let factor := pow10 decimals in
  let num := (value * factor)%Q in
  let rounded := Math_round num in
  let remainder := Qabs (num - inject_Z rounded) in
  if Qeq_bool remainder (1 # 2) then
    (inject_Z (if Z.rem rounded 2 =? 0 then rounded
               else rounded + (if Qgtb num 0 then 1 else -1)) / factor)%Q
  else (inject_Z rounded / factor)%Q.

(** The rule the documentation of [bankersRound] names, round half to
    even, on the scaled number: the reference the code is compared with. *)
Definition round_half_even (x : Q) : Z :=
  let f := Qfloor x in
  let r := (x - inject_Z f)%Q in
  match (r ?= 1 # 2)%Q with
  | Lt => f
  | Gt => f + 1
  | Eq => if Z.even f then f else f + 1
  end.

Definition half_even_2dp (value : Q) : Q :=
  (inject_Z (round_half_even (value * pow10 2)) / pow10 2)%Q.

(** What [bankersRound(., 2)] returns, times 100, when the scaled value is
    the tie k + 1/2. *)
Definition tie_result (k : Z) : Z :=
  if Z.odd k then k + 1 else if 0 <=? k then k + 2 else k.

End Rounding.

(* ===================================================================== *)
(** * services/totalService.js *)
(* ===================================================================== *)

Module Totals.
Import Rounding.

(** A priced item, as the saga builds it after the catalog lookup. *)
Record PricedItem := mkPricedItem {
  product_id : Z;
  quantity : Z;
  price : Q;
  sku : string;
  product_name : string
}.

Record OrderTotals := mkTotals {
  subtotal : Q;
  taxRate : Q;
  taxAmount : Q;
  shippingCost : Q;
  total : Q
}.

(** [pricedItems.reduce((sum, item) => sum + item.price * item.quantity, 0)] *)
Definition raw_subtotal (pricedItems : list PricedItem) : Q :=
  fold_left (fun sum item => (sum + price item * inject_Z (quantity item))%Q)
            pricedItems 0%Q.

(** The options object; an absent field is [None]. *)
Record Options := mkOptions {
  opt_taxRate : option Q;
  opt_shippingCost : option Q
}.

(** [calculateOrderTotals(pricedItems, options)], the destructuring
    [{ taxRate = 0.05, shippingCost = 0 } = options] included. *)
Definition calculateOrderTotals (pricedItems : list PricedItem) (options : Options)
  : OrderTotals :=
  let taxRate := match opt_taxRate options with Some r => r | None => 5 # 100 end in
  let shippingCost := match opt_shippingCost options with Some c => c | None => 0%Q end in
  let subtotal := raw_subtotal pricedItems in
  let taxAmount := (subtotal * taxRate)%Q in
  let total := (subtotal + taxAmount + shippingCost)%Q in
  {| subtotal := bankersRound subtotal 2;
     taxRate := taxRate;
     taxAmount := bankersRound taxAmount 2;
     shippingCost := bankersRound shippingCost 2;
     total := bankersRound total 2 |}.

(** [items.reduce((sum, item) => sum + item.quantity, 0)] *)
Definition totalItems (items : list PricedItem) : Z :=
  fold_left (fun sum item => sum + quantity item) items 0.

(** [calculateShippingCost(items)] *)
Definition calculateShippingCost (items : list PricedItem) : Q :=
  let baseShipping := 10 # 1 in
  let perItemShipping := 2 # 1 in
  let shippingCost := (baseShipping + inject_Z (totalItems items) * perItemShipping)%Q in
  bankersRound shippingCost 2.

(** What the saga does in its steps 1B and 1C: the shipping cost comes
    from [calculateShippingCost], the tax rate is the constant 0.05. *)
Definition saga_totals (pricedItems : list PricedItem) : OrderTotals :=
  calculateOrderTotals pricedItems
    (mkOptions (Some (5 # 100)) (Some (calculateShippingCost pricedItems))).




(** The happy path of the end-to-end scenarios: quantity 2 of product 1
    and quantity 1 of product 2, both priced 10.00. *)
Definition happy_items : list PricedItem :=
  [ mkPricedItem 1 2 (10 # 1) "SKU-1" "Product 1";
    mkPricedItem 2 1 (10 # 1) "SKU-2" "Product 2" ].

End Totals.

(* ===================================================================== *)
(** * JavaScript values *)
(* ===================================================================== *)

Module Js.

(** Truthiness of a string-valued expression that may be undefined or
    null: only a non-empty string is truthy. *)
Definition truthy_str (o : option string) : bool :=
  match o with
  | Some s => negb (s =? EmptyString)%string
  | None => false
  end.

(** Truthiness of a number-valued expression that may be undefined. *)
Definition truthy_num (o : option Z) : bool :=
  match o with
  | Some n => negb (n =? 0)
  | None => false
  end.

(** [a || b] on such values. *)
Definition or_str (a b : option string) : option string :=
  if truthy_str a then a else b.

(** [s || null] *)
Definition or_null (a : option string) : option string :=
  if truthy_str a then a else None.

(** [obj[name]] on an object used as a map from names to strings. *)
Fixpoint prop (name : string) (obj : list (string * string)) : option string :=
  match obj with
  | [] => None
  | (k, v) :: rest => if (k =? name)%string then Some v else prop name rest
  end.

(** [[...new Set(l)]]: the first occurrence of every element, in order. *)
Fixpoint uniq {A : Type} (eqb : A -> A -> bool) (l : list A) : list A :=
  match l with
  | [] => []
  | x :: rest => x :: filter (fun y => negb (eqb x y)) (uniq eqb rest)
  end.

(** A JavaScript [Map] with its insertion order. *)
Fixpoint map_set {K V : Type} (eqb : K -> K -> bool) (m : list (K * V)) (k : K) (v : V)
  : list (K * V) :=
  match m with
  | [] => [(k, v)]
  | (k', v') :: rest =>
      if eqb k' k then (k, v) :: rest else (k', v') :: map_set eqb rest k v
  end.

Fixpoint map_get {K V : Type} (eqb : K -> K -> bool) (m : list (K * V)) (k : K)
  : option V :=
  match m with
  | [] => None
  | (k', v') :: rest => if eqb k' k then Some v' else map_get eqb rest k
  end.

End Js.

(* ===================================================================== *)
(** * The inventory service *)
(* ===================================================================== *)

Module Inventory.
Import Js.

(** ** Tables *)

Inductive ResStatus := ACTIVE | CONFIRMED | RELEASED | EXPIRED.

Definition ResStatus_eqb (a b : ResStatus) : bool :=
  match a, b with
  | ACTIVE, ACTIVE | CONFIRMED, CONFIRMED
  | RELEASED, RELEASED | EXPIRED, EXPIRED => true
  | _, _ => false
  end.

Inductive MovementType := RESERVE | RELEASE | SHIP.

(** table [inventory] *)
Record InventoryRow := mkRow {
  inventory_id : Z;
  inv_product_id : Z;
  inv_warehouse : string;
  on_hand : Z;
  reserved : Z
}.

(** table [reservations] *)
Record Reservation := mkReservation {
  reservation_id : Z;
  res_order_id : Z;
  res_product_id : Z;
  res_sku : option string;
  res_warehouse : string;
  res_quantity : Z;
  res_idempotency_key : string;
  res_expires_at : Z;
  res_status : ResStatus
}.

(** The [notes] column holds one of four templates, each filled with an
    order identifier and a SKU (or N/A). *)
Inductive Note :=
| Reserved_for_Order (order : Z) (sku : option string)
| Released_for_Order (order : Z) (sku : option string)
| Shipped_for_Order (order : Z) (sku : option string)
| Expired_reservation_auto_released_for_Order (order : Z) (sku : option string).

(** table [inventory_Movements] *)
Record Movement := mkMovement {
  mov_product_id : Z;
  mov_sku : option string;
  mov_warehouse : string;
  movement_type : MovementType;
  mov_quantity : Z;
  reference_order_id : Z;
  notes : Note
}.

Record DB := mkDB {
  inventory : list InventoryRow;
  reservations : list Reservation;
  inventory_Movements : list Movement
}.

Definition available (r : InventoryRow) : Z := on_hand r - reserved r.

Definition set_reserved (r : InventoryRow) (v : Z) : InventoryRow :=
  mkRow (inventory_id r) (inv_product_id r) (inv_warehouse r) (on_hand r) v.

Definition set_status (r : Reservation) (s : ResStatus) : Reservation :=
  mkReservation (reservation_id r) (res_order_id r) (res_product_id r) (res_sku r)
    (res_warehouse r) (res_quantity r) (res_idempotency_key r) (res_expires_at r) s.

Definition with_inventory (db : DB) (inv : list InventoryRow) : DB :=
  mkDB inv (reservations db) (inventory_Movements db).

Definition with_reservations (db : DB) (rs : list Reservation) : DB :=
  mkDB (inventory db) rs (inventory_Movements db).

(** [INSERT INTO inventory_Movements ...] *)
Definition insert_movement (db : DB) (m : Movement) : DB :=
  mkDB (inventory db) (reservations db) (inventory_Movements db ++ [m]).

(** The AUTO_INCREMENT key of [reservations]: one more than every
    identifier in the table. *)
Definition fresh_reservation_id (rs : list Reservation) : Z :=
  1 + fold_right (fun r m => Z.max (reservation_id r) m) 0 rs.

(** [GREATEST(x - q, 0)] *)
Definition GREATEST_sub (x q : Z) : Z := Z.max (x - q) 0.

(** ** Requests and responses *)

Record Item := mkItem {
  sku : option string;
  product_id : Z;
  qty : Z
}.

Record ShipItem := mkShipItem {
  ship_sku : option string;
  ship_product_id : Z;
  ship_qty : Z;
  ship_warehouse : option string
}.

(** A request as Express hands it to a handler: the headers, and the
    fields of the JSON body the handlers read.  [items] is [None] when
    the field is absent or not an array. *)
Record Request := mkRequest {
  headers : list (string * string);
  items : option (list Item);
  order_id : option Z;
  idempotency_key : option string
}.

Inductive Strategy := SINGLE_WAREHOUSE | SPLIT.

Inductive ReserveStatus := RESERVED | PARTIAL.

(** An entry of [items] in a reserve response. *)
Inductive RespItem :=
| reserved_item (sku : option string) (product_id : Z) (warehouse : string)
    (qty_reserved : Z) (qty_available : option Z) (reservation_id : Z)
| partial_item (sku : option string) (product_id : Z) (warehouse : option string)
    (qty_requested : Z) (qty_available : Z).

(** The errors a handler can raise.  Each stands for a JavaScript error
    and its message. *)
Inductive JsError :=
| Invalid_qty                      (* Invalid item: qty must be greater than 0 *)
| Invalid_product_id               (* Invalid item: product_id is required *)
| Invalid_ship_item                (* Invalid item: product_id, qty, and warehouse are required *)
| ReferenceError_reserved          (* Cannot access 'reserved' before initialization *)
| Duplicate_without_reservations (product : Z)
| ER_DUP_ENTRY.

Definition is_ER_DUP_ENTRY (e : JsError) : bool :=
  match e with ER_DUP_ENTRY => true | _ => false end.

Inductive Body :=
| invalid_request (what : string)
| error_body (e : JsError) (order : Z)
| reserve_body (status : ReserveStatus) (order : Z) (idempotent : bool)
    (allocation_strategy : option Strategy) (items : list RespItem) (expires_at : Z)
| duplicate_key_body (order : Z) (existing_statuses : option (list ResStatus))
| confirmed_body (order : Z) (confirmed_reservations : Z)
| released_body (order : Z) (released_count : Z)
| shipped_body (order : Z)
| processed_body (expired_count : Z) (released_reservations : list Z).

Record Response := mkResponse {
  http_status : Z;
  body : Body
}.

(** ** Queries *)

(** [ORDER BY (on_hand - reserved) DESC], rows with equal availability
    staying in table order. *)
Fixpoint insert_desc (r : InventoryRow) (l : list InventoryRow) : list InventoryRow :=
  match l with
  | [] => [r]
  | x :: l' => if available x <=? available r then r :: l else x :: insert_desc r l'
  end.

Definition order_by_available_desc (l : list InventoryRow) : list InventoryRow :=
  fold_right insert_desc [] l.

(** [findAvailableWarehouses(conn, product_id, qty)]: the [qty] argument is
    not used by the query. *)
Definition findAvailableWarehouses (db : DB) (product_id : Z) (qty : Z)
  : list InventoryRow :=
  order_by_available_desc
    (filter (fun r => (inv_product_id r =? product_id) && (0 <? available r))
            (inventory db)).

Definition WarehouseMap := list (string * list (Z * InventoryRow)).

(** The body of the inner loop of [findSingleWarehouseForOrder]. *)
Definition warehouseMap_add (productId : Z) (m : WarehouseMap) (wh : InventoryRow)
  : WarehouseMap :=
  let m1 := match map_get String.eqb m (inv_warehouse wh) with
            | Some _ => m
            | None => map_set String.eqb m (inv_warehouse wh) []
            end in
  match map_get String.eqb m1 (inv_warehouse wh) with
  | Some productMap =>
      map_set String.eqb m1 (inv_warehouse wh) (map_set Z.eqb productMap productId wh)
  | None => m1
  end.

(** [findSingleWarehouseForOrder(conn, items)] *)
Definition findSingleWarehouseForOrder (db : DB) (items : list Item) : option string :=
  let productIds := uniq Z.eqb (map product_id items) in
  let warehouseMap :=
    fold_left (fun m productId =>
                 fold_left (warehouseMap_add productId)
                           (findAvailableWarehouses db productId 0) m)
              productIds ([] : WarehouseMap) in
  let canFulfill (productMap : list (Z * InventoryRow)) :=
    forallb (fun item =>
               match map_get Z.eqb productMap (product_id item) with
               | None => false
               | Some inv => negb (on_hand inv - reserved inv <? qty item)
               end) items in
  match find (fun e => canFulfill (snd e)) warehouseMap with
  | Some (warehouse, _) => Some warehouse
  | None => None
  end.

Record Allocation := mkAllocation {
  strategy : Strategy;
  alloc_warehouse : option string
}.

(** [allocateWarehouseStrategy(conn, items)] *)
Definition allocateWarehouseStrategy (db : DB) (items : list Item) : Allocation :=
  let singleWarehouse := findSingleWarehouseForOrder db items in
  if truthy_str singleWarehouse
  then mkAllocation SINGLE_WAREHOUSE singleWarehouse
  else mkAllocation SPLIT None.

(** [SELECT * FROM reservations WHERE idempotency_key = ? AND order_id = ?] *)
Definition reservations_of_key (db : DB) (key : string) (order : Z) : list Reservation :=
  filter (fun r => (res_idempotency_key r =? key)%string && (res_order_id r =? order))
         (reservations db).

Definition is_active (r : Reservation) : bool := ResStatus_eqb (res_status r) ACTIVE.

(** The entry of an idempotent replay built from a reservation row. *)
Definition replay_item (r : Reservation) : RespItem :=
  reserved_item (res_sku r) (res_product_id r) (res_warehouse r)
                (res_quantity r) None (reservation_id r).

(** The two answers given when reservations already exist for the key
    and the order: the ACTIVE ones as an idempotent replay, or 409 with
    the distinct statuses found. *)
Definition existing_response (order : Z) (existingReservations : list Reservation)
  : Response :=
  let activeReservations := filter is_active existingReservations in
  match activeReservations with
  | first :: _ =>
      mkResponse 200
        (reserve_body RESERVED order true None
           (map replay_item activeReservations) (res_expires_at first))
  | [] =>
      mkResponse 409
        (duplicate_key_body order
           (Some (uniq ResStatus_eqb (map res_status existingReservations))))
  end.

(** ** Control flow of a handler body *)

(** A statement sequence inside the [try] block of a handler either runs
    on, raises an error (caught by the handler's [catch], which rolls the
    transaction back), or answers early with [return res.json(...)]; every
    early answer inside the reserve loop comes after [conn.rollback()]. *)
Inductive Ctl (A : Type) :=
| Normal (a : A)
| Throw (e : JsError)
| Return (r : Response).
Arguments Normal {A} a.
Arguments Throw {A} e.
Arguments Return {A} r.

Definition bind {A B : Type} (c : Ctl A) (k : A -> Ctl B) : Ctl B :=
  match c with
  | Normal a => k a
  | Throw e => Throw e
  | Return r => Return r
  end.

Notation "x <- c ;; k" := (bind c (fun x => k))
  (at level 61, c at next level, right associativity).

(** [for (const x of l) body], threading the state. *)
Fixpoint for_of {A S : Type} (body : S -> A -> Ctl S) (l : list A) (s : S) : Ctl S :=
  match l with
  | [] => Normal s
  | x :: rest => s' <- body s x ;; for_of body rest s'
  end.

(** ** POST /v1/inventory/reserve *)

Definition RESERVATION_TTL_MINUTES : Z := 15.

(** The mutable variables of the handler that outlive one iteration. *)
Record LoopState := mkLoop {
  conn : DB;
  reservedItems : list RespItem;
  partialItems : list RespItem;
  hasPartial : bool
}.

(** [UPDATE inventory SET reserved = reserved + ?
     WHERE inventory_id = ? AND (on_hand - reserved) >= ?],
    with the number of rows it changed. *)
Definition update_reserve (db : DB) (qty id : Z) : DB * Z :=
  let hit r := (inventory_id r =? id) && (qty <=? on_hand r - reserved r) in
  (with_inventory db
     (map (fun r => if hit r then set_reserved r (reserved r + qty) else r)
          (inventory db)),
   Z.of_nat (List.length (filter hit (inventory db)))).

(** Modelled from the spec: the composite unique key of [reservations] on
    (idempotency key, order identifier, product identifier); the schema
    of the table is not among the sources.  The test tells whether an
    INSERT of such a triple raises ER_DUP_ENTRY. *)
Definition unique_key_taken (db : DB) (key : string) (order product : Z) : bool :=
  existsb (fun r => (res_idempotency_key r =? key)%string
                    && (res_order_id r =? order) && (res_product_id r =? product))
          (reservations db).

(** [INSERT INTO reservations (...) VALUES (..., 'ACTIVE')], giving the
    new row's [insertId]. *)
Definition insert_reservation (db : DB) (order product : Z) (sku : option string)
    (warehouse : string) (qty : Z) (key : string) (expiresAt : Z) : DB * Z :=
  let id := fresh_reservation_id (reservations db) in
  (with_reservations db
     (reservations db ++
        [mkReservation id order product sku warehouse qty key expiresAt ACTIVE]),
   id).

(** The [catch (insertErr)] block around the INSERT. *)
Definition on_insert_error (db : DB) (key : string) (order product : Z)
  : Ctl (LoopState * bool) :=
  let allReservations := reservations_of_key db key order in
  if (0 <? Z.of_nat (List.length allReservations))
  then Return (existing_response order allReservations)
  else Throw (Duplicate_without_reservations product).

(** [for (const inv of warehouses) { ... }]: the result tells whether the
    loop left through [break] with [reserved = true]. *)
Fixpoint try_warehouses (key : string) (order expiresAt : Z) (item : Item)
    (warehouses : list InventoryRow) (st : LoopState) : Ctl (LoopState * bool) :=
  match warehouses with
  | [] => Normal (st, false)
  | inv :: rest =>
      let available := on_hand inv - reserved inv in
      if qty item <=? available then
        let (db1, affectedRows) := update_reserve (conn st) (qty item) (inventory_id inv) in
        if affectedRows =? 0 then
          try_warehouses key order expiresAt item rest
            (mkLoop db1 (reservedItems st) (partialItems st) (hasPartial st))
        else
          let warehouse := inv_warehouse inv in
          if unique_key_taken db1 key order (product_id item)
          then on_insert_error db1 key order (product_id item)
          else
            let (db2, reservationId) :=
              insert_reservation db1 order (product_id item) (or_null (sku item))
                warehouse (qty item) key expiresAt in
            let db3 :=
              insert_movement db2
                (mkMovement (product_id item) (or_null (sku item)) warehouse RESERVE
                   (qty item) order (Reserved_for_Order order (sku item))) in
            Normal
              (mkLoop db3
                 (reservedItems st ++
                    [reserved_item (or_null (sku item)) (product_id item) warehouse
                       (qty item) (Some (qty item)) reservationId])
                 (partialItems st) (hasPartial st),
               true)
      else
        try_warehouses key order expiresAt item rest
          (mkLoop (conn st) (reservedItems st)
             (partialItems st ++
                [partial_item (or_null (sku item)) (product_id item)
                   (Some (inv_warehouse inv)) (qty item) available])
             true)
  end.

(** [SELECT * FROM reservations WHERE idempotency_key = ? AND order_id = ?
     AND product_id = ? AND status = 'ACTIVE'] *)
Definition existingProductReservation (db : DB) (key : string) (order product : Z)
  : list Reservation :=
  filter (fun r => (res_idempotency_key r =? key)%string && (res_order_id r =? order)
                   && (res_product_id r =? product) && is_active r)
         (reservations db).

(** [SELECT * FROM inventory WHERE product_id = ? AND warehouse = ?
     AND (on_hand - reserved) >= ?] *)
Definition select_in_warehouse (db : DB) (product : Z) (warehouse : string) (qty : Z)
  : list InventoryRow :=
  filter (fun r => (inv_product_id r =? product)
                   && (inv_warehouse r =? warehouse)%string
                   && (qty <=? on_hand r - reserved r))
         (inventory db).

(** The statement [reserved = true] placed above [let reserved = false]
    in the same block: the binding is not yet initialised there, and the
    assignment raises a ReferenceError. *)
Definition assign_reserved_before_let (st : LoopState) : Ctl LoopState :=
  Throw ReferenceError_reserved.

(** The rows the loop body tries for an item: the target warehouse under
    the single-warehouse strategy, the warehouses by availability
    otherwise. *)
Definition candidate_warehouses (allocation : Allocation) (db : DB) (item : Item)
  : list InventoryRow :=
  match strategy allocation, alloc_warehouse allocation with
  | SINGLE_WAREHOUSE, Some targetWarehouse =>
      if truthy_str (Some targetWarehouse)
      then select_in_warehouse db (product_id item) targetWarehouse (qty item)
      else findAvailableWarehouses db (product_id item) (qty item)
  | _, _ => findAvailableWarehouses db (product_id item) (qty item)
  end.

(** The body of [for (const item of items) { ... }]. *)
Definition reserve_item (key : string) (order expiresAt : Z) (allocation : Allocation)
    (st : LoopState) (item : Item) : Ctl LoopState :=
  if (qty item =? 0) || (qty item <=? 0) then Throw Invalid_qty
  else if product_id item =? 0 then Throw Invalid_product_id
  else
    let warehouses := candidate_warehouses allocation (conn st) item in
    match warehouses with
    | [] =>
        Normal (mkLoop (conn st) (reservedItems st)
                  (partialItems st ++
                     [partial_item (or_null (sku item)) (product_id item) None
                        (qty item) 0])
                  true)
    | _ :: _ =>
        match existingProductReservation (conn st) key order (product_id item) with
        | existing :: _ =>
            let st1 :=
              mkLoop (conn st)
                (reservedItems st ++
                   [reserved_item (or_null (sku item)) (product_id item)
                      (res_warehouse existing) (res_quantity existing)
                      (Some (res_quantity existing)) (reservation_id existing)])
                (partialItems st) (hasPartial st) in
            assign_reserved_before_let st1
        | [] =>
            r <- try_warehouses key order expiresAt item warehouses st ;;
            let (st1, reserved) := r in
            if negb reserved
            then Normal (mkLoop (conn st1) (reservedItems st1) (partialItems st1) true)
            else Normal st1
        end
    end.

(** The idempotency key of a request: three spellings of the header,
    then the body field. *)
Definition idempotencyKey_of (req : Request) : option string :=
  or_str (or_str (or_str (prop "idempotency-key" (headers req))
                         (prop "Idempotency-Key" (headers req)))
                 (prop "IDEMPOTENCY-KEY" (headers req)))
         (idempotency_key req).

(** The transaction of the reserve handler, from [beginTransaction] to
    [commit]. *)
Definition reserve_transaction (now : Z) (key : string) (order : Z) (items : list Item)
    (db : DB) : Ctl (DB * Response) :=
  let existingReservations := reservations_of_key db key order in
  match existingReservations with
  | _ :: _ => Return (existing_response order existingReservations)
  | [] =>
      let allocation := allocateWarehouseStrategy db items in
      let expiresAt := now + RESERVATION_TTL_MINUTES * 60 * 1000 in
      st <- for_of (reserve_item key order expiresAt allocation) items
                   (mkLoop db [] [] false) ;;
      let status := if hasPartial st then PARTIAL else RESERVED in
      let response_items :=
        if hasPartial st && (0 <? Z.of_nat (List.length (partialItems st)))
        then reservedItems st ++ partialItems st
        else reservedItems st in
      Normal (conn st,
              mkResponse 200
                (reserve_body status order false (Some (strategy allocation))
                   response_items expiresAt))
  end.

(** The [catch (err)] block of the reserve handler, after the rollback. *)
Definition reserve_catch (db : DB) (key : string) (order : Z) (err : JsError) : Response :=
  if is_ER_DUP_ENTRY err then
    match reservations_of_key db key order with
    | (_ :: _) as existingReservations => existing_response order existingReservations
    | [] => mkResponse 409 (duplicate_key_body order None)
    end
  else mkResponse 400 (error_body err order).

(** The handler of POST /v1/inventory/reserve at time [now]: the
    database after the request, and the answer. *)
Definition reserve (now : Z) (req : Request) (db : DB) : DB * Response :=
  match items req with
  | None | Some [] =>
      (db, mkResponse 400 (invalid_request "'items' array is required"))
  | Some ((_ :: _) as its) =>
      if negb (truthy_num (order_id req)) then
        (db, mkResponse 400 (invalid_request "'order_id' is required"))
      else if negb (truthy_str (idempotencyKey_of req)) then
        (db, mkResponse 400 (invalid_request "'idempotency-key' header is required"))
      else
        match order_id req, idempotencyKey_of req with
        | Some order, Some key =>
            match reserve_transaction now key order its db with
            | Normal (db', response) => (db', response)
            | Throw err => (db, reserve_catch db key order err)
            | Return response => (db, response)
            end
        | _, _ => (db, mkResponse 400 (invalid_request "'order_id' is required"))
        end
  end.

(** ** POST /v1/inventory/reserve/confirm *)

Definition confirm (order_id : option Z) (reservation_ids : option (list Z)) (db : DB)
  : DB * Response :=
  match order_id with
  | Some order =>
      if negb (truthy_num order_id) then
        (db, mkResponse 400 (invalid_request "'order_id' is required"))
      else
        let selected r :=
          match reservation_ids with
          | Some ((_ :: _) as ids) =>
              (res_order_id r =? order)
              && existsb (Z.eqb (reservation_id r)) ids && is_active r
          | _ => (res_order_id r =? order) && is_active r
          end in
        let affectedRows := Z.of_nat (List.length (filter selected (reservations db))) in
        (with_reservations db
           (map (fun r => if selected r then set_status r CONFIRMED else r)
                (reservations db)),
         mkResponse 200 (confirmed_body order affectedRows))
  | None => (db, mkResponse 400 (invalid_request "'order_id' is required"))
  end.

(** ** POST /v1/inventory/release *)

(** [UPDATE inventory SET reserved = GREATEST(reserved - ?, 0)
     WHERE product_id = ? AND warehouse = ?] *)
Definition update_release (db : DB) (quantity product : Z) (warehouse : string) : DB :=
  with_inventory db
    (map (fun r =>
            if (inv_product_id r =? product) && (inv_warehouse r =? warehouse)%string
            then set_reserved r (GREATEST_sub (reserved r) quantity)
            else r)
         (inventory db)).

(** The body of [for (const reservation of reservations)] in the release
    handler. *)
Definition release_one (order : Z) (db : DB) (reservation : Reservation) : DB :=
  let db1 := update_release db (res_quantity reservation) (res_product_id reservation)
               (res_warehouse reservation) in
  insert_movement db1
    (mkMovement (res_product_id reservation) (or_null (res_sku reservation))
       (res_warehouse reservation) RELEASE (res_quantity reservation) order
       (Released_for_Order order (res_sku reservation))).

(** [UPDATE reservations SET status = 'RELEASED'
     WHERE order_id = ? AND status = 'ACTIVE'] on one row. *)
Definition mark_released (order : Z) (r : Reservation) : Reservation :=
  if (res_order_id r =? order) && is_active r then set_status r RELEASED else r.

Definition release (order_id : option Z) (db : DB) : DB * Response :=
  match order_id with
  | Some order =>
      if negb (truthy_num order_id) then
        (db, mkResponse 400 (invalid_request "'order_id' is required"))
      else
        let affectedRows :=
          Z.of_nat (List.length (filter (fun r => (res_order_id r =? order) && is_active r)
                                        (reservations db))) in
        let db1 := with_reservations db (map (mark_released order) (reservations db)) in
        (* SELECT * FROM reservations WHERE order_id = ? AND status = 'RELEASED' *)
        let reservations :=
          filter (fun r => (res_order_id r =? order)
                           && ResStatus_eqb (res_status r) RELEASED)
                 (reservations db1) in
        let db2 := fold_left (release_one order) reservations db1 in
        (db2, mkResponse 200 (released_body order affectedRows))
  | None => (db, mkResponse 400 (invalid_request "'order_id' is required"))
  end.

(** ** POST /v1/inventory/ship *)

(** [UPDATE inventory SET on_hand = GREATEST(on_hand - ?, 0),
     reserved = GREATEST(reserved - ?, 0), updated_at = NOW()
     WHERE product_id = ? AND warehouse = ?] *)
Definition update_ship (db : DB) (qty product : Z) (warehouse : string) : DB :=
  with_inventory db
    (map (fun r =>
            if (inv_product_id r =? product) && (inv_warehouse r =? warehouse)%string
            then mkRow (inventory_id r) (inv_product_id r) (inv_warehouse r)
                   (GREATEST_sub (on_hand r) qty) (GREATEST_sub (reserved r) qty)
            else r)
         (inventory db)).

Definition ship_item (order : Z) (db : DB) (item : ShipItem) : Ctl DB :=
  match ship_warehouse item with
  | Some warehouse =>
      if (ship_product_id item =? 0) || (ship_qty item =? 0)
         || negb (truthy_str (ship_warehouse item))
      then Throw Invalid_ship_item
      else
        let db1 := update_ship db (ship_qty item) (ship_product_id item) warehouse in
        Normal
          (insert_movement db1
             (mkMovement (ship_product_id item) (or_null (ship_sku item)) warehouse SHIP
                (ship_qty item) order (Shipped_for_Order order (ship_sku item))))
  | None => Throw Invalid_ship_item
  end.

Definition ship (items : option (list ShipItem)) (order_id : option Z) (db : DB)
  : DB * Response :=
  match items with
  | None | Some [] =>
      (db, mkResponse 400 (invalid_request "'items' array is required"))
  | Some ((_ :: _) as its) =>
      match order_id with
      | Some order =>
          if negb (truthy_num order_id) then
            (db, mkResponse 400 (invalid_request "'order_id' is required"))
          else
            match for_of (ship_item order) its db with
            | Normal db' => (db', mkResponse 200 (shipped_body order))
            | Throw err => (db, mkResponse 400 (error_body err order))
            | Return response => (db, response)
            end
      | None => (db, mkResponse 400 (invalid_request "'order_id' is required"))
      end
  end.

(** ** POST /v1/inventory/reaper/expired *)

Definition reap_one (db : DB) (reservation : Reservation) : DB :=
  let db1 := update_release db (res_quantity reservation) (res_product_id reservation)
               (res_warehouse reservation) in
  insert_movement db1
    (mkMovement (res_product_id reservation) (or_null (res_sku reservation))
       (res_warehouse reservation) RELEASE (res_quantity reservation)
       (res_order_id reservation)
       (Expired_reservation_auto_released_for_Order
          (res_order_id reservation) (res_sku reservation))).

Definition reaper (now : Z) (db : DB) : DB * Response :=
  (* SELECT * FROM reservations WHERE status = 'ACTIVE' AND expires_at < NOW() *)
  let expiredReservations :=
    filter (fun r => is_active r && (res_expires_at r <? now)) (reservations db) in
  match expiredReservations with
  | [] => (db, mkResponse 200 (processed_body 0 []))
  | _ :: _ =>
      let reservationIds := map reservation_id expiredReservations in
      (* UPDATE reservations SET status = 'EXPIRED' WHERE reservation_id IN (...) *)
      let db1 :=
        with_reservations db
          (map (fun r => if existsb (Z.eqb (reservation_id r)) reservationIds
                         then set_status r EXPIRED else r)
               (reservations db)) in
      let db2 := fold_left reap_one expiredReservations db1 in
      (db2,
       mkResponse 200
         (processed_body (Z.of_nat (List.length expiredReservations)) reservationIds))
  end.

(** ** The operations of the engine as one step function *)

Inductive Operation :=
| Op_reserve (now : Z) (req : Request)
| Op_confirm (order_id : option Z) (reservation_ids : option (list Z))
| Op_release (order_id : option Z)
| Op_ship (items : option (list ShipItem)) (order_id : option Z)
| Op_reaper (now : Z).

Definition step (op : Operation) (db : DB) : DB * Response :=
  match op with
  | Op_reserve now req => reserve now req db
  | Op_confirm o ids => confirm o ids db
  | Op_release o => release o db
  | Op_ship its o => ship its o db
  | Op_reaper now => reaper now db
  end.

(** A run of committed transactions. *)
Definition run (ops : list Operation) (db : DB) : DB :=
  fold_left (fun d op => fst (step op d)) ops db.

(** ** The invariants of the data model *)

Definition row_ok (r : InventoryRow) : Prop := 0 <= reserved r <= on_hand r.

Definition rows_ok (db : DB) : Prop := Forall row_ok (inventory db).

(** A reservation holds a positive quantity. *)
Definition reservations_ok (db : DB) : Prop :=
  Forall (fun r => 0 < res_quantity r) (reservations db).

(** ** Predicates used in the proofs *)

(** The joint invariant: every row has 0 <= reserved <= on_hand and
    every reservation holds a positive quantity. *)
Definition db_ok (db : DB) : Prop := rows_ok db /\ reservations_ok db.

(** A property of the state a statement sequence runs on to; nothing is
    asked of the paths that end in the catch block or in an early
    answer, since both roll the transaction back. *)
Definition on_normal {A : Type} (P : A -> Prop) (c : Ctl A) : Prop :=
  match c with
  | Normal a => P a
  | _ => True
  end.

Definition loop_ok (st : LoopState) : Prop := db_ok (conn st).


(** The movement the release handler appends for a reservation. *)
Definition release_movement (order : Z) (r : Reservation) : Movement :=
  mkMovement (res_product_id r) (Js.or_null (res_sku r)) (res_warehouse r) RELEASE
    (res_quantity r) order (Released_for_Order order (res_sku r)).

(** The reservations a release of [order] walks over: those of the
    order that are ACTIVE, and those that are RELEASED already. *)
Definition walked (order : Z) (r : Reservation) : bool :=
  (res_order_id r =? order)
  && (is_active r || ResStatus_eqb (res_status r) RELEASED).

(** ** Fixtures *)

Definition replay_db : DB :=
  mkDB [mkRow 1 1 "WH1" 10 2]
       [mkReservation 1 42 1 (Some "SKU-1"%string) "WH1" 2 "k2" 901000 ACTIVE]
       [mkMovement 1 (Some "SKU-1"%string) "WH1" RESERVE 2 42
          (Reserved_for_Order 42 (Some "SKU-1"%string))].

Definition replay_request : Request :=
  mkRequest [("idempotency-key", "k2")]%string
            (Some [mkItem (Some "SKU-1"%string) 1 2]) (Some 42) None.

Definition collision_db : DB := mkDB [mkRow 1 1 "WH1" 10 0] [] [].

Definition collision_request : Request :=
  mkRequest [("idempotency-key", "k1")]%string
            (Some [mkItem (Some "SKU-1"%string) 1 1; mkItem (Some "SKU-1"%string) 1 1])
            (Some 42) None.

Definition release_db : DB :=
  mkDB [mkRow 1 1 "WH1" 10 5]
       [mkReservation 1 7 1 None "WH1" 2 "k7" 901000 ACTIVE;
        mkReservation 2 8 1 None "WH1" 3 "k8" 901000 ACTIVE]
       [].

End Inventory.

(* ===================================================================== *)
(** * middleware/idempotency.js *)
(* ===================================================================== *)

Module Idempotency.
Import Js.

Section Middleware.

(** The JSON documents of request and response bodies, and the SHA-256
    digest of a request body. *)
Variable Json : Type.
Variable request_hash_of : Json -> string.

(** table [idempotency_keys]; a NULL column is [None]. *)
Record IdempotencyRecord := mkRecord {
  key : string;
  resource_path : string;
  request_hash : string;
  response_code : option Z;
  response_body : option Json
}.

Inductive ExistingStatus := IN_PROGRESS | FAILED_ (code : Z).

Inductive MiddlewareBody :=
| MISSING_IDEMPOTENCY_KEY
| cached (response_body : option Json)
| CONFLICT (idempotency_key : string) (existing_status : ExistingStatus)
    (previous_path : string).

(** What the middleware does with a request: it answers, or it calls
    [next()] with the key attached to the request. *)
Inductive Decision :=
| respond (status : Z) (body : MiddlewareBody)
| next (idempotencyKey : string).

(** [prisma.idempotencyKey.findUnique({ where: { key } })] *)
Definition findUnique (store : list IdempotencyRecord) (k : string)
  : option IdempotencyRecord :=
  find (fun r => (key r =? k)%string) store.

(** [req.get('x-idempotency-key') || req.get('idempotency-key')
     || req.get('idempotency_key')] *)
Definition detected_key (get : string -> option string) : option string :=
  or_str (or_str (get "x-idempotency-key"%string) (get "idempotency-key"%string))
         (get "idempotency_key"%string).

(** [checkIdempotency(req, res, next)]: [get] is Express' [req.get].  In
    the test [response_code >= 200 && response_code < 400] a NULL code
    compares as the number 0, so the test fails for it. *)
Definition checkIdempotency (get : string -> option string) (resourcePath : string)
    (req_body : Json) (store : list IdempotencyRecord)
  : list IdempotencyRecord * Decision :=
  let idempotencyKey := detected_key get in
  match idempotencyKey with
  | Some k =>
      if negb (truthy_str idempotencyKey) then (store, respond 400 MISSING_IDEMPOTENCY_KEY)
      else
        match findUnique store k with
        | Some existingRecord =>
            match response_code existingRecord with
            | Some code =>
                if (200 <=? code) && (code <? 400)
                then (store, respond code (cached (response_body existingRecord)))
                else (store,
                      respond 409 (CONFLICT k (FAILED_ code) (resource_path existingRecord)))
            | None =>
                (store,
                 respond 409 (CONFLICT k IN_PROGRESS (resource_path existingRecord)))
            end
        | None =>
            let requestHash := request_hash_of req_body in
            (store ++ [mkRecord k resourcePath requestHash None None], next k)
        end
  | None => (store, respond 400 MISSING_IDEMPOTENCY_KEY)
  end.

(** [prisma.idempotencyKey.update({ where: { key }, data: { response_code,
    response_body } })] inside [finalizeIdempotency]; an error of the
    update (no such record) is caught and logged. *)
Definition finalizeIdempotency (k : option string) (code : Z) (body : Json)
    (store : list IdempotencyRecord) : list IdempotencyRecord :=
  match k with
  | Some k' =>
      if negb (truthy_str k) then store
      else
        map (fun r => if (key r =? k')%string
                      then mkRecord (key r) (resource_path r) (request_hash r)
                             (Some code) (Some body)
                      else r)
            store
  | None => store
  end.

End Middleware.

Arguments mkRecord {Json}.
Arguments key {Json}.
Arguments resource_path {Json}.
Arguments request_hash {Json}.
Arguments response_code {Json}.
Arguments response_body {Json}.
Arguments MISSING_IDEMPOTENCY_KEY {Json}.
Arguments cached {Json}.
Arguments CONFLICT {Json}.
Arguments respond {Json}.
Arguments next {Json}.
Arguments findUnique {Json}.
Arguments checkIdempotency {Json}.
Arguments finalizeIdempotency {Json}.

End Idempotency.

(* ===================================================================== *)
(** * Outbound HTTP calls (axios) *)
(* ===================================================================== *)

Module Http.

(** What an axios call ends with: an answer of the server, or no answer
    at all (connection refused, timeout). *)
Inductive Outcome (A : Type) :=
| answered (status : Z) (data : A)
| no_response.
Arguments answered {A} status data.
Arguments no_response {A}.

(** axios resolves the promise for a status in 200..299 and rejects it,
    with [error.response] set, for every other status. *)
Definition resolved (status : Z) : bool := (200 <=? status) && (status <? 300).

End Http.

(* ===================================================================== *)
(** * services/orderService.js: the create-order saga *)
(* ===================================================================== *)

Module OrderService.
Import Js Http.

(** ** The request and the catalog *)

Record RequestItem := mkRequestItem {
  productId : Z;
  quantity : Z;
  sku : option string
}.

Record OrderData := mkOrderData {
  userId : Z;
  items : list RequestItem;
  idempotencyKey : option string;
  paymentMethod : option string
}.

Record Config := mkConfig {
  CATALOG_SERVICE_URL : option string;
  INVENTORY_SERVICE_URL : option string;
  PAYMENT_SERVICE_URL : option string
}.

(** The JSON object of a product, with the field names the saga tries. *)
Record ProductData := mkProductData {
  pd_sku : option string;
  pd_SKU : option string;
  pd_name : option string;
  pd_productName : option string;
  pd_product_name : option string
}.

Record ProductDetail := mkDetail {
  detail_productId : Z;
  detail_sku : option string;
  detail_product_name : option string
}.

(** ** The payment call *)

(** The Idempotency-Key header of the charge: the client's key, or
    [order-<order_id>]. *)
Inductive PaymentKey :=
| client_key (k : string)
| order_key (order_id : Z).

Record PaymentCall := mkPaymentCall {
  pay_orderId : Z;
  amount : Q;
  method : string;
  pay_Idempotency_Key : PaymentKey
}.

Record PaymentData := mkPaymentData {
  status : option string;
  pay_payment_id : option string;
  pay_paymentId : option string;
  pay_id : option string
}.

(** ** The services the saga talks to *)

Record Env := mkEnv {
  catalog_prices : list Z -> Outcome (option (list (Z * Q)));
  catalog_detail : Z -> Outcome (option ProductData);
  inventory_reserve : Inventory.Request -> Outcome Inventory.Body;
  payment_charge : PaymentCall -> Outcome (option PaymentData);
  inventory_release : Inventory.Request -> Outcome Inventory.Body
}.

(** The outbound calls of a run, in the order they are made. *)
Inductive Call :=
| GET_prices (productIds : list Z)
| GET_product (productId : Z)
| POST_inventory_reserve (req : Inventory.Request)
| POST_payments (call : PaymentCall)
| POST_inventory_release (req : Inventory.Request).

(** ** The orders table *)

Inductive OrderStatus := PENDING | DELIVERED | CANCELLED.
Inductive PaymentStatus := PAY_PENDING | SUCCESS | FAILED.

Record OrderItem := mkOrderItem {
  oi_product_id : Z;
  oi_quantity : Z;
  unit_price : Q;
  tax_rate : Q;
  oi_sku : option string;
  oi_product_name : option string
}.

Record Order := mkOrder {
  order_id : Z;
  customer_id : Z;
  order_total : Q;
  order_status : OrderStatus;
  payment_status : PaymentStatus;
  totals_signature : string;
  payment_id : option string;
  order_items : list OrderItem
}.

(** Modelled from the spec: the column default of [payment_status], which
    the Prisma schema (not among the sources) gives a new order; the
    specification has a new order persisted with payment status PENDING. *)
Definition default_payment_status : PaymentStatus := PAY_PENDING.

(** The auto-increment key of the orders table. *)
Definition fresh_order_id (db : list Order) : Z :=
  1 + fold_right (fun o m => Z.max (order_id o) m) 0 db.

(** [prisma.Order.create({ data: { customer_id, order_total, order_status,
    totals_signature, items: { createMany } }, include: { items: true } })] *)
Definition Order_create (db : list Order) (customer : Z) (order_total : Q)
    (order_status : OrderStatus) (signature : string) (its : list OrderItem)
  : list Order * Order :=
  let order := mkOrder (fresh_order_id db) customer order_total order_status
                 default_payment_status signature None its in
  (db ++ [order], order).

(** [prisma.Order.findUnique({ where: { order_id }, include: { items: true } })] *)
Definition Order_findUnique (db : list Order) (id : Z) : option Order :=
  find (fun o => order_id o =? id) db.

(** [prisma.Order.update({ where: { order_id }, data })], the data given
    as the change it makes to the row; the updated row is returned. *)
Definition Order_update (db : list Order) (id : Z) (data : Order -> Order)
  : list Order * option Order :=
  let db' := map (fun o => if order_id o =? id then data o else o) db in
  (db', Order_findUnique db' id).

(** [data: { payment_status: 'SUCCESS', payment_id: String(paymentId) }] *)
Definition updateData (paymentId : string) (o : Order) : Order :=
  mkOrder (order_id o) (customer_id o) (order_total o) (order_status o)
    SUCCESS (totals_signature o) (Some paymentId) (order_items o).

(** [data: { order_status: 'CANCELLED' }] *)
Definition cancelData (o : Order) : Order :=
  mkOrder (order_id o) (customer_id o) (order_total o) CANCELLED
    (payment_status o) (totals_signature o) (payment_id o) (order_items o).

(** ** Errors *)

Inductive SagaError :=
| env_not_set (name : string)
| catalog_failed
| catalog_error_response (status : Z)
| cannot_connect_to_catalog
| price_not_found (productId : Z)
| sku_not_found (productId : Z)
| product_name_not_found (productId : Z)
| inventory_service_error (status : Z) (data : Inventory.Body)
| cannot_connect_to_inventory
| payment_failed_with_status (status : string)
| payment_service_error (status : Z)
| cannot_connect_to_payment
| payment_id_not_returned
| record_to_update_not_found.

Inductive SagaResult :=
| returns (order : Order) (totals : Totals.OrderTotals)
| throws_pricing_verification_failed (e : SagaError)
| throws_order_processing_failed (e : SagaError).

Section Saga.

(** [generateTotalsSignature(totals, pricedItems)]: a SHA-256 digest,
    taken as given. *)
Variable generateTotalsSignature : Totals.OrderTotals -> list Totals.PricedItem -> string.

(** ** Step 1: prices and product details *)

Definition no_detail (productId : Z) : ProductDetail := mkDetail productId None None.

(** One element of [productDetailsPromises]. *)
Definition fetch_detail (env : Env) (productId : Z) : ProductDetail :=
  match catalog_detail env productId with
  | answered status (Some productData) =>
      if resolved status && (status =? 200) then
        mkDetail productId
          (or_null (or_str (pd_sku productData) (pd_SKU productData)))
          (or_null (or_str (or_str (pd_name productData) (pd_productName productData))
                           (pd_product_name productData)))
      else no_detail productId
  | _ => no_detail productId
  end.

(** The callback of [orderData.items.map(item => ...)]. *)
Definition price_item (priceMap : list (Z * Q)) (productDetailsMap : list (Z * ProductDetail))
    (item : RequestItem) : SagaError + Totals.PricedItem :=
  match map_get Z.eqb priceMap (productId item) with
  | None => inl (price_not_found (productId item))
  | Some price =>
      let details :=
        match map_get Z.eqb productDetailsMap (productId item) with
        | Some d => d
        | None => no_detail (productId item)
        end in
      let sku := or_null (or_str (or_str (sku item) (detail_sku details)) None) in
      let productName := or_null (detail_product_name details) in
      match sku, productName with
      | Some sku', Some productName' =>
          if negb (truthy_str sku) then inl (sku_not_found (productId item))
          else if negb (truthy_str productName)
               then inl (product_name_not_found (productId item))
               else inr (Totals.mkPricedItem (productId item) (quantity item) price
                           sku' productName')
      | None, _ => inl (sku_not_found (productId item))
      | Some _, None => inl (product_name_not_found (productId item))
      end
  end.

(** [l.map(f)] where [f] may throw: the first error ends the map. *)
Fixpoint map_throwing {A B E : Type} (f : A -> E + B) (l : list A) : E + list B :=
  match l with
  | [] => inr []
  | x :: rest =>
      match f x with
      | inl e => inl e
      | inr y =>
          match map_throwing f rest with
          | inl e => inl e
          | inr ys => inr (y :: ys)
          end
      end
  end.

(** The first [try] block up to [pricedItems]. *)
Definition price_and_details (env : Env) (orderData : OrderData)
  : (SagaError + list Totals.PricedItem) * list Call :=
  let productIds := map productId (items orderData) in
  match catalog_prices env productIds with
  | answered status data =>
      if negb (resolved status) then
        (inl (catalog_error_response status), [GET_prices productIds])
      else
        match data with
        | Some priceMap =>
            if negb (status =? 200) then (inl catalog_failed, [GET_prices productIds])
            else
              let productDetails := map (fetch_detail env) productIds in
              let productDetailsMap :=
                fold_left (fun m detail => map_set Z.eqb m (detail_productId detail) detail)
                          productDetails [] in
              (map_throwing (price_item priceMap productDetailsMap) (items orderData),
               GET_prices productIds :: map GET_product productIds)
        | None => (inl catalog_failed, [GET_prices productIds])
        end
  | no_response => (inl cannot_connect_to_catalog, [GET_prices productIds])
  end.

(** ** Step 3: the reserve call *)

(** [inventoryPayload] and the options of [axios.post(inventoryUrl, ...)]:
    the only header set is Content-Type, and the body has the two
    fields [order_id] and [items]. *)
Definition reserve_call (order : Order) (pricedItems : list Totals.PricedItem)
  : Inventory.Request :=
  Inventory.mkRequest
    [("Content-Type", "application/json")]%string
    (Some (map (fun item =>
                  Inventory.mkItem
                    (if truthy_str (Some (Totals.sku item))
                     then Some (Totals.sku item) else None)
                    (Totals.product_id item)
                    (Totals.quantity item))
               pricedItems))
    (Some (order_id order))
    None.

(** ** Step 4: the payment call *)

Definition payment_call (orderData : OrderData) (order : Order) : PaymentCall :=
  mkPaymentCall
    (order_id order)
    (order_total order)
    (match or_str (paymentMethod orderData) (Some "DEBIT CARD"%string) with
     | Some m => m
     | None => "DEBIT CARD"%string
     end)
    (match idempotencyKey orderData with
     | Some k => if truthy_str (idempotencyKey orderData) then client_key k
                 else order_key (order_id order)
     | None => order_key (order_id order)
     end).

(** [paymentResponse.data?.status], when it is truthy and not SUCCESS. *)
Definition rejected_status (data : option PaymentData) : option string :=
  match data with
  | Some d =>
      match status d with
      | Some s =>
          if truthy_str (status d) && negb (s =? "SUCCESS")%string then Some s else None
      | None => None
      end
  | None => None
  end.

(** [data?.payment_id || data?.paymentId || data?.id || null] *)
Definition paymentId_of (data : option PaymentData) : option string :=
  match data with
  | Some d => or_null (or_str (or_str (pay_payment_id d) (pay_paymentId d)) (pay_id d))
  | None => None
  end.

(** Steps 4 and 5, entered with [inventoryReserved = true]: the charge,
    the checks on its answer and the update of the order.  The result is
    the updated order, or the error thrown. *)
Definition charge_and_finalize (cfg : Config) (env : Env) (orderData : OrderData)
    (order : Order) (db : list Order)
  : (SagaError + Order) * list Order * list Call :=
  if negb (truthy_str (PAYMENT_SERVICE_URL cfg)) then
    (inl (env_not_set "PAYMENT_SERVICE_URL"), db, [])
  else
    let call := payment_call orderData order in
    match payment_charge env call with
    | answered http_status data =>
        if negb (resolved http_status) then
          (inl (payment_service_error http_status), db, [POST_payments call])
        else
          match rejected_status data with
          | Some s => (inl (payment_failed_with_status s), db, [POST_payments call])
          | None =>
              match paymentId_of data with
              | Some paymentId =>
                  match Order_update db (order_id order) (updateData paymentId) with
                  | (db', Some order') => (inr order', db', [POST_payments call])
                  | (db', None) =>
                      (inl record_to_update_not_found, db', [POST_payments call])
                  end
              | None => (inl payment_id_not_returned, db, [POST_payments call])
              end
          end
    | no_response => (inl cannot_connect_to_payment, db, [POST_payments call])
    end.

(** Steps 3 to 5: the body of the second [try] block after the order was
    created.  With an error comes the value [inventoryReserved] has when
    it is thrown. *)
Definition reserve_charge_finalize (cfg : Config) (env : Env) (orderData : OrderData)
    (order : Order) (pricedItems : list Totals.PricedItem) (db : list Order)
  : (SagaError * bool + Order) * list Order * list Call :=
  if negb (truthy_str (INVENTORY_SERVICE_URL cfg)) then
    (inl (env_not_set "INVENTORY_SERVICE_URL", false), db, [])
  else
    let call := reserve_call order pricedItems in
    match inventory_reserve env call with
    | answered http_status data =>
        if negb (resolved http_status) then
          (inl (inventory_service_error http_status data, false), db,
           [POST_inventory_reserve call])
        else
          (* inventoryReserved = true *)
          match charge_and_finalize cfg env orderData order db with
          | (inl e, db', calls) => (inl (e, true), db', POST_inventory_reserve call :: calls)
          | (inr order', db', calls) => (inr order', db', POST_inventory_reserve call :: calls)
          end
    | no_response =>
        (inl (cannot_connect_to_inventory, false), db, [POST_inventory_reserve call])
    end.

(** ** Compensation *)

Definition release_call (order : Order) (orderWithItems : Order) : Inventory.Request :=
  Inventory.mkRequest
    [("Content-Type", "application/json")]%string
    (Some (map (fun item => Inventory.mkItem None (oi_product_id item) (oi_quantity item))
               (order_items orderWithItems)))
    (Some (order_id order))
    None.

(** [compensateOrder(order, inventoryReserved, originalError)], called
    with an order that was created. *)
Definition compensateOrder (cfg : Config) (env : Env) (order : Order)
    (inventoryReserved : bool) (db : list Order) : list Order * list Call :=
  let db1 := fst (Order_update db (order_id order) cancelData) in
  if inventoryReserved then
    match Order_findUnique db1 (order_id order) with
    | Some orderWithItems =>
        match order_items orderWithItems with
        | _ :: _ =>
            if negb (truthy_str (INVENTORY_SERVICE_URL cfg)) then (db1, [])
            else (db1, [POST_inventory_release (release_call order orderWithItems)])
        | [] => (db1, [])
        end
    | None => (db1, [])
    end
  else (db1, []).

(** ** The saga *)

Definition taxRate : Q := 5 # 100.

(** The order of step 2, as [prisma.Order.create] is given it. *)
Definition create_pending_order (orderData : OrderData)
    (pricedItems : list Totals.PricedItem) (db : list Order) : list Order * Order :=
  let shippingCost := Totals.calculateShippingCost pricedItems in
  let orderTotals :=
    Totals.calculateOrderTotals pricedItems
      (Totals.mkOptions (Some taxRate) (Some shippingCost)) in
  let finalTotalAmount := Totals.total orderTotals in
  let totalsSignature := generateTotalsSignature orderTotals pricedItems in
  Order_create db (userId orderData) finalTotalAmount PENDING totalsSignature
    (map (fun item =>
            mkOrderItem (Totals.product_id item) (Totals.quantity item) (Totals.price item)
              taxRate
              (or_null (Some (Totals.sku item)))
              (or_null (Some (Totals.product_name item))))
         pricedItems).

(** [createOrderSaga(orderData)]: the result, the orders table after the
    run, and the outbound calls made. *)
Definition createOrderSaga (cfg : Config) (env : Env) (orderData : OrderData)
    (db : list Order) : SagaResult * list Order * list Call :=
  if negb (truthy_str (CATALOG_SERVICE_URL cfg)) then
    (throws_pricing_verification_failed (env_not_set "CATALOG_SERVICE_URL"), db, [])
  else
    match price_and_details env orderData with
    | (inl e, calls) => (throws_pricing_verification_failed e, db, calls)
    | (inr pricedItems, calls) =>
        let shippingCost := Totals.calculateShippingCost pricedItems in
        let orderTotals :=
    Totals.calculateOrderTotals pricedItems
      (Totals.mkOptions (Some taxRate) (Some shippingCost)) in
        let (db1, order) := create_pending_order orderData pricedItems db in
        match reserve_charge_finalize cfg env orderData order pricedItems db1 with
        | (inr order', db2, calls2) => (returns order' orderTotals, db2, calls ++ calls2)
        | (inl (e, inventoryReserved), db2, calls2) =>
            let (db3, calls3) := compensateOrder cfg env order inventoryReserved db2 in
            (throws_order_processing_failed e, db3, calls ++ calls2 ++ calls3)
        end
    end.

End Saga.

(** The inventory service as the saga's environment sees it: the reserve
    handler run on a database at some time, its answer as an axios
    outcome. *)
Definition inventory_service (now : Z) (db : Inventory.DB) (req : Inventory.Request)
  : Outcome Inventory.Body :=
  let response := snd (Inventory.reserve now req db) in
  answered (Inventory.http_status response) (Inventory.body response).

Definition is_POST_payments (c : Call) : bool :=
  match c with POST_payments _ => true | _ => false end.

(** What the reserve handler of the inventory service does with a
    request that has neither the header nor the body field. *)
Definition rejected_by_inventory (req : Inventory.Request) : Prop :=
  Inventory.idempotencyKey_of req = None
  /\ forall now idb,
       fst (Inventory.reserve now req idb) = idb
       /\ Inventory.http_status (snd (Inventory.reserve now req idb)) = 400.

Definition reserve_calls_rejected (c : Call) : Prop :=
  match c with
  | POST_inventory_reserve req =>
      rejected_by_inventory req
      /\ prop "idempotency-key" (Inventory.headers req) = None
      /\ Inventory.idempotency_key req = None
  | _ => True
  end.

End OrderService.

(** ** Fixtures: the happy path of the end-to-end scenarios *)

Module SagaFixtures.
Import Http OrderService.

Definition happy_cfg : Config :=
  mkConfig (Some "http://catalog:8081/v1"%string) (Some "http://inventory:8082"%string)
           (Some "http://payments:8083"%string).

Definition happy_catalog_prices (ids : list Z) : Outcome (option (list (Z * Q))) :=
  answered 200 (Some [(1, 10 # 1); (2, 10 # 1)]).

Definition happy_catalog_detail (id : Z) : Outcome (option ProductData) :=
  answered 200
    (Some (mkProductData (Some (if id =? 1 then "SKU-1"%string else "SKU-2"%string)) None
             (Some (if id =? 1 then "Product 1"%string else "Product 2"%string)) None None)).

Definition payment_succeeds (call : PaymentCall) : Outcome (option PaymentData) :=
  answered 200 (Some (mkPaymentData (Some "SUCCESS"%string) (Some "pay-1"%string) None None)).

Definition release_succeeds (req : Inventory.Request) : Outcome Inventory.Body :=
  answered 200 (Inventory.released_body 1 0).

Definition happy_inventory : Inventory.DB :=
  Inventory.mkDB [Inventory.mkRow 1 1 "WH1" 10 0; Inventory.mkRow 2 2 "WH1" 5 0] [] [].

(** The request of the happy path, with the client key k1. *)
Definition happy_order : OrderData :=
  mkOrderData 1 [mkRequestItem 1 2 None; mkRequestItem 2 1 None] (Some "k1"%string) None.

(** The services of the happy path, the inventory service being the
    reserve handler itself on the seeded stock. *)
Definition live_env : Env :=
  mkEnv happy_catalog_prices happy_catalog_detail
        (inventory_service 1000 happy_inventory) payment_succeeds release_succeeds.

(** The same services with an inventory service that answers 200 with
    status PARTIAL: product 1 reserved, product 2 out of stock. *)
Definition partial_answer (req : Inventory.Request) : Outcome Inventory.Body :=
  answered 200
    (Inventory.reserve_body Inventory.PARTIAL 1 false (Some Inventory.SPLIT)
       [Inventory.reserved_item (Some "SKU-1"%string) 1 "WH1" 2 (Some 2) 1;
        Inventory.partial_item (Some "SKU-2"%string) 2 None 1 0]
       901000).

Definition partial_env : Env :=
  mkEnv happy_catalog_prices happy_catalog_detail partial_answer
        payment_succeeds release_succeeds.

(** An inventory service that answers every reserve call 200 RESERVED. *)
Definition reserved_answer (req : Inventory.Request) : Outcome Inventory.Body :=
  answered 200
    (Inventory.reserve_body Inventory.RESERVED 1 false (Some Inventory.SINGLE_WAREHOUSE)
       [Inventory.reserved_item (Some "SKU-1"%string) 1 "WH1" 2 (Some 2) 1;
        Inventory.reserved_item (Some "SKU-2"%string) 2 "WH1" 1 (Some 1) 2]
       901000).

Definition reserved_env : Env :=
  mkEnv happy_catalog_prices happy_catalog_detail reserved_answer
        payment_succeeds release_succeeds.

End SagaFixtures.

(* ===================================================================== *)
(** * controllers/orderController.js and routes/orderRoutes.js *)
(* ===================================================================== *)

Module OrderController.
Import Js.

(** The JSON documents the order service stores and sends. *)
Inductive Json :=
| request_json (userId : option Z) (items : option (list OrderService.RequestItem))
| order_json (order : OrderService.Order) (totals : Totals.OrderTotals)
| INVALID_REQUEST
| ORDER_CREATION_FAILED (message : OrderService.SagaResult) (order_id : option Z).

Record OrderRequest := mkOrderRequest {
  headers : list (string * string);
  baseUrl_path : string;
  body_userId : option Z;
  body_items : option (list OrderService.RequestItem)
}.

Record World := mkWorld {
  idempotency_keys : list (Idempotency.IdempotencyRecord Json);
  orders : list OrderService.Order
}.

Inductive Answer :=
| by_middleware (status : Z) (body : Idempotency.MiddlewareBody Json)
| by_controller (status : Z) (body : Json).

Section Controller.

Variable generateTotalsSignature : Totals.OrderTotals -> list Totals.PricedItem -> string.
Variable request_hash_of : Json -> string.

(** [createOrder(req, res)], entered with [req.idempotencyKey] set by the
    middleware. *)
Definition createOrder (cfg : OrderService.Config) (env : OrderService.Env)
    (req_idempotencyKey : option string) (req : OrderRequest) (w : World)
  : World * Answer * list OrderService.Call :=
  let idempotencyKey :=
    or_str (or_str req_idempotencyKey (prop "x-idempotency-key" (headers req)))
           (prop "idempotency-key" (headers req)) in
  match body_userId req, body_items req with
  | Some userId, Some ((_ :: _) as items) =>
      if negb (truthy_num (body_userId req)) then (w, by_controller 400 INVALID_REQUEST, [])
      else
        let orderData := OrderService.mkOrderData userId items idempotencyKey None in
        match OrderService.createOrderSaga generateTotalsSignature cfg env orderData
                (orders w) with
        | (OrderService.returns approvedOrder totals, db, calls) =>
            let body := order_json approvedOrder totals in
            (mkWorld (Idempotency.finalizeIdempotency idempotencyKey 201 body
                        (idempotency_keys w)) db,
             by_controller 201 body, calls)
        | (error, db, calls) =>
            let failureResponse := ORDER_CREATION_FAILED error None in
            (mkWorld (Idempotency.finalizeIdempotency idempotencyKey 500 failureResponse
                        (idempotency_keys w)) db,
             by_controller 500 failureResponse, calls)
        end
  | _, _ => (w, by_controller 400 INVALID_REQUEST, [])
  end.

(** [router.post('/', checkIdempotency, createOrder)] *)
Definition POST_orders (cfg : OrderService.Config) (env : OrderService.Env)
    (req : OrderRequest) (w : World) : World * Answer * list OrderService.Call :=
  match Idempotency.checkIdempotency request_hash_of
          (fun name => prop name (headers req)) (baseUrl_path req)
          (request_json (body_userId req) (body_items req)) (idempotency_keys w) with
  | (store, Idempotency.respond status body) =>
      (mkWorld store (orders w), by_middleware status body, [])
  | (store, Idempotency.next k) =>
      createOrder cfg env (Some k) req (mkWorld store (orders w))
  end.

End Controller.

(** ** Fixtures *)

Definition retry_request : OrderRequest :=
  mkOrderRequest [("idempotency-key", "k3")]%string "/v1/orders/"
            (Some 1) (Some [OrderService.mkRequestItem 1 2 None]).





End OrderController.

(* ===================================================================== *)
(** * Further predicates on the inventory engine *)
(* ===================================================================== *)

Module InventoryProps.
Import Inventory.

(** Two versions of a row that differ in [reserved] at most. *)
Definition same_stock (r r' : InventoryRow) : Prop :=
  inventory_id r' = inventory_id r
  /\ inv_product_id r' = inv_product_id r
  /\ inv_warehouse r' = inv_warehouse r
  /\ on_hand r' = on_hand r.

(** Row by row, [on_hand] is kept and [reserved] does not go down. *)
Definition reserved_grows (before after : list InventoryRow) : Prop :=
  Forall2 (fun r r' => same_stock r r' /\ reserved r <= reserved r') before after.

(** Row by row, [on_hand] is kept and [reserved] does not go up. *)
Definition reserved_shrinks (before after : list InventoryRow) : Prop :=
  Forall2 (fun r r' => same_stock r r' /\ reserved r' <= reserved r) before after.

(** Row by row, the keys are kept and neither counter goes up. *)
Definition stock_shrinks (before after : list InventoryRow) : Prop :=
  Forall2 (fun r r' =>
             inventory_id r' = inventory_id r
             /\ inv_product_id r' = inv_product_id r
             /\ inv_warehouse r' = inv_warehouse r
             /\ on_hand r' <= on_hand r /\ reserved r' <= reserved r)
          before after.

(** A reservation as the reserve handler inserts it for a request. *)
Definition inserted_by (now : Z) (key : string) (order : Z) (r : Reservation) : Prop :=
  res_status r = ACTIVE
  /\ res_idempotency_key r = key
  /\ res_order_id r = order
  /\ res_expires_at r = now + 900000
  /\ 0 < res_quantity r.

(** The ledger entry that goes with a new reservation. *)
Definition booked_as (r : Reservation) (m : Movement) : Prop :=
  movement_type m = RESERVE
  /\ mov_product_id m = res_product_id r
  /\ mov_warehouse m = res_warehouse r
  /\ mov_quantity m = res_quantity r
  /\ reference_order_id m = res_order_id r
  /\ mov_sku m = res_sku r.

(** The reserved entry of a response that answers a requested item. *)
Definition answers (item : Item) (e : RespItem) : Prop :=
  match e with
  | reserved_item _ p _ q _ _ => p = product_id item /\ q = qty item
  | partial_item _ _ _ _ _ => False
  end.

(** The state of the reserve loop against the database it started on:
    [reserved] only went up, reservations were appended, each with its
    ledger entry. *)
Definition loop_frame (now : Z) (key : string) (order : Z) (db : DB) (st : DB) : Prop :=
  reserved_grows (inventory db) (inventory st)
  /\ exists new entries,
       reservations st = reservations db ++ new
       /\ Forall (inserted_by now key order) new
       /\ inventory_Movements st = inventory_Movements db ++ entries
       /\ Forall2 booked_as new entries.

(** While no item failed, the reserved entries answer the items taken so
    far, one each and in order. *)
Definition complete_so_far (taken : list Item) (st : LoopState) : Prop :=
  hasPartial st = false -> Forall2 answers taken (reservedItems st).

(** A property of the early answers of a statement sequence. *)
Definition on_return {A : Type} (P : Response -> Prop) (c : Ctl A) : Prop :=
  match c with
  | Return r => P r
  | _ => True
  end.

(** The answers built from reservations that exist already: an
    idempotent replay or the duplicate-key error. *)
Definition replay_or_duplicate (r : Response) : Prop :=
  match body r with
  | reserve_body _ _ idempotent _ _ _ => idempotent = true
  | duplicate_key_body _ _ => True
  | _ => False
  end.

(** An entry that reports an item as not allocated. *)
Definition reports_shortfall (items : list Item) (e : RespItem) : Prop :=
  match e with
  | partial_item _ p _ q a =>
      exists item, In item items /\ p = product_id item /\ q = qty item /\ a < q
  | reserved_item _ _ _ _ _ _ => False
  end.

(** No row of the table can take the item in full. *)
Definition nowhere_in_full (db : DB) (item : Item) : Prop :=
  0 < qty item /\ product_id item <> 0
  /\ forall row, In row (inventory db) -> inv_product_id row = product_id item ->
                 on_hand row - reserved row < qty item.

(** A single warehouse can take every item of a request by itself. *)
Definition can_take_each (db : DB) (warehouse : string) (items : list Item) : Prop :=
  Forall (fun item =>
            exists row, In row (inventory db)
                        /\ inv_product_id row = product_id item
                        /\ inv_warehouse row = warehouse
                        /\ qty item <= on_hand row - reserved row
                        /\ 0 < on_hand row - reserved row)
         items.

(** The entries of the map built by [findSingleWarehouseForOrder] are rows
    of the table, filed under their own warehouse and product. *)
Definition warehouseMap_sound (db : DB) (m : WarehouseMap) : Prop :=
  Forall (fun e =>
            Forall (fun pe =>
                      In (snd pe) (inventory db)
                      /\ inv_product_id (snd pe) = fst pe
                      /\ inv_warehouse (snd pe) = fst e
                      /\ 0 < on_hand (snd pe) - reserved (snd pe))
                   (snd e))
         m.

(** Two versions of a reservation that differ in [status] at most. *)
Definition same_hold (r r' : Reservation) : Prop :=
  reservation_id r' = reservation_id r
  /\ res_order_id r' = res_order_id r
  /\ res_product_id r' = res_product_id r
  /\ res_sku r' = res_sku r
  /\ res_warehouse r' = res_warehouse r
  /\ res_quantity r' = res_quantity r
  /\ res_idempotency_key r' = res_idempotency_key r
  /\ res_expires_at r' = res_expires_at r.

(** The test of the reaper: ACTIVE and past the expiry. *)
Definition overdue (now : Z) (r : Reservation) : bool :=
  is_active r && (res_expires_at r <? now).

(** The movement the reaper appends for a reservation. *)
Definition expiry_movement (r : Reservation) : Movement :=
  mkMovement (res_product_id r) (Js.or_null (res_sku r)) (res_warehouse r) RELEASE
    (res_quantity r) (res_order_id r)
    (Expired_reservation_auto_released_for_Order (res_order_id r) (res_sku r)).

(** What a release of [order] may do to a reservation: nothing, or turn
    an ACTIVE reservation of that order into a RELEASED one. *)
Definition released_or_same (order : Z) (r r' : Reservation) : Prop :=
  same_hold r r'
  /\ (res_status r' = res_status r
      \/ (res_order_id r = order /\ res_status r = ACTIVE /\ res_status r' = RELEASED)).

(** The reservations table after an operation against the table before:
    the old rows in place, changed in [status] at most, then new rows. *)
Definition holds_kept (before after : list Reservation) : Prop :=
  exists old new, after = old ++ new /\ Forall2 same_hold before old.

(** The WHERE clause of the confirm handler: the reservations of the
    order that are ACTIVE, among the listed identifiers when a non-empty
    list is given. *)
Definition confirm_selects (order : Z) (reservation_ids : option (list Z))
    (r : Reservation) : bool :=
  match reservation_ids with
  | Some ((_ :: _) as ids) =>
      (res_order_id r =? order) && existsb (Z.eqb (reservation_id r)) ids && is_active r
  | _ => (res_order_id r =? order) && is_active r
  end.

(** ** Fixtures *)

(** The split-allocation scenario: product 1 with 2 units in WH1 and 3 in
    WH2. *)
Definition split_db : DB := mkDB [mkRow 1 1 "WH1" 2 0; mkRow 2 1 "WH2" 3 0] [] [].

Definition split_request : Request :=
  mkRequest [("idempotency-key", "k5")]%string (Some [mkItem None 1 4]) (Some 50) None.

(** A reservation made at time 1000 with the 15-minute hold. *)
Definition held_db : DB :=
  mkDB [mkRow 1 1 "WH1" 10 2]
       [mkReservation 1 42 1 None "WH1" 2 "k2" 901000 ACTIVE]
       [].

Definition happy_request : Request :=
  mkRequest [("idempotency-key", "k1")]%string
            (Some [mkItem None 1 2; mkItem None 2 1]) (Some 42) None.

Definition happy_stock : DB :=
  mkDB [mkRow 1 1 "WH1" 10 0; mkRow 2 2 "WH1" 5 0] [] [].

(** A request whose second item asks for nothing. *)
Definition bad_qty_request : Request :=
  mkRequest [("idempotency-key", "k9")]%string
            (Some [mkItem None 1 2; mkItem None 2 0]) (Some 42) None.

(** Two reservations of order 42, one confirmed, both past their expiry
    at time 2000000. *)
Definition overdue_db : DB :=
  mkDB [mkRow 1 1 "WH1" 10 5]
       [mkReservation 1 42 1 None "WH1" 2 "k2" 901000 ACTIVE;
        mkReservation 2 42 1 None "WH1" 3 "k3" 901000 CONFIRMED]
       [].

Definition ship_items : list ShipItem :=
  [mkShipItem None 1 2 (Some "WH1"%string)].

End InventoryProps.

(* ===================================================================== *)
(** * Properties of saga runs *)
(* ===================================================================== *)

Module SagaProps.
Import Http OrderService.

(** A call to the catalog service. *)
Definition is_GET (c : Call) : bool :=
  match c with
  | GET_prices _ | GET_product _ => true
  | _ => false
  end.

(** The reserve call for an order was answered with a 2xx status. *)
Definition reserve_resolved (cfg : Config) (env : Env) (order : Order)
    (pricedItems : list Totals.PricedItem) : Prop :=
  Js.truthy_str (INVENTORY_SERVICE_URL cfg) = true
  /\ exists s data,
       inventory_reserve env (reserve_call order pricedItems) = answered s data
       /\ resolved s = true.

(** The release request for the positions of a client request. *)
Definition release_of (od : OrderData) (id : Z) : Inventory.Request :=
  Inventory.mkRequest
    [("Content-Type", "application/json")]%string
    (Some (map (fun it => Inventory.mkItem None (productId it) (quantity it)) (items od)))
    (Some id)
    None.

(** The catalog service does not answer. *)
Definition catalog_down_env : Env :=
  mkEnv (fun _ => no_response) SagaFixtures.happy_catalog_detail
        SagaFixtures.reserved_answer SagaFixtures.payment_succeeds
        SagaFixtures.release_succeeds.

(** The payment service answers 200 with status FAILED. *)
Definition payment_declined (call : PaymentCall) : Outcome (option PaymentData) :=
  answered 200 (Some (mkPaymentData (Some "FAILED"%string) None None None)).

Definition declined_env : Env :=
  mkEnv SagaFixtures.happy_catalog_prices SagaFixtures.happy_catalog_detail
        SagaFixtures.reserved_answer payment_declined SagaFixtures.release_succeeds.

End SagaProps.

(* ===================================================================== *)
(** * Properties of the route POST /v1/orders *)
(* ===================================================================== *)

Module RouteProps.
Import Js OrderController.

(** The negation of the controller's test
    [!userId || !items || items.length === 0]. *)
Definition valid_body (req : OrderRequest) : bool :=
  truthy_num (body_userId req)
  && match body_items req with
     | Some (_ :: _) => true
     | _ => false
     end.

(** The record the middleware creates for a request. *)
Definition pending_record (request_hash_of : Json -> string) (k : string)
    (req : OrderRequest) : Idempotency.IdempotencyRecord Json :=
  Idempotency.mkRecord k (baseUrl_path req)
    (request_hash_of (request_json (body_userId req) (body_items req))) None None.

(** That record after [finalizeIdempotency]. *)
Definition finalized_record (request_hash_of : Json -> string) (k : string)
    (req : OrderRequest) (code : Z) (body : Json) : Idempotency.IdempotencyRecord Json :=
  Idempotency.mkRecord k (baseUrl_path req)
    (request_hash_of (request_json (body_userId req) (body_items req)))
    (Some code) (Some body).

(** The key of a request as the middleware detects it. *)
Definition key_of (req : OrderRequest) : option string :=
  Idempotency.detected_key (fun name => prop name (headers req)).

(** ** Fixtures *)

Definition empty_world : World := mkWorld [] [].

(** A request with a key and no items. *)
Definition no_items_request : OrderRequest :=
  mkOrderRequest [("idempotency-key", "k3")]%string "/v1/orders/" (Some 1) None.

(** A request without a key. *)
Definition no_key_request : OrderRequest :=
  mkOrderRequest [("content-type", "application/json")]%string "/v1/orders/"
    (Some 1) (Some [OrderService.mkRequestItem 1 2 None]).

End RouteProps.

(* ===================================================================== *)
(** * Part II: theorems *)
(* ===================================================================== *)

(* ===================================================================== *)
(** * Rounding *)
(* ===================================================================== *)

Module RoundingFacts.
Import Rounding.

Lemma pow10_2 : pow10 2 = inject_Z 100.
Proof. reflexivity. Qed.



Lemma Math_round_tie (x : Q) (k : Z) :
  (x == inject_Z k + (1 # 2))%Q -> Math_round x = k + 1.
Proof.
  intros Hx. unfold Math_round.
  rewrite (Qfloor_comp _ (inject_Z (k + 1))).
  - apply Qfloor_Z.
  - rewrite inject_Z_plus, Hx. change (inject_Z 1) with 1%Q. lra.
Qed.


#[local] Instance Qgtb_Proper : Proper (Qeq ==> Qeq ==> eq) Qgtb.
Proof. intros x y H a b H'. unfold Qgtb. now rewrite H, H'. Qed.





Lemma bankersRound_tie (x : Q) (k : Z) :
  (x * 100 == inject_Z k + (1 # 2))%Q ->
  (bankersRound x 2 == inject_Z (tie_result k) / 100)%Q.
Proof.
  intros Hx. unfold bankersRound. cbv zeta. rewrite pow10_2.
  change (inject_Z 100) with 100%Q.
  rewrite (Math_round_tie _ _ Hx).
  assert (Hr : (Qabs (x * 100 - inject_Z (k + 1)) == 1 # 2)%Q).
  { rewrite Hx, inject_Z_plus. change (inject_Z 1) with 1%Q.
    setoid_replace (inject_Z k + (1 # 2) - (inject_Z k + 1))%Q with (- (1 # 2))%Q by ring.
    reflexivity. }
  rewrite (Qeqb_comp _ _ Hr _ _ (Qeq_refl _)).
  change (Qeq_bool (1 # 2) (1 # 2)) with true. cbv iota.
  rewrite (Qgtb_Proper _ _ Hx _ _ (Qeq_refl _)).
  unfold tie_result.
  assert (Hrem : (Z.rem (k + 1) 2 =? 0) = Z.odd k).
  { destruct (Z.Even_or_Odd k) as [[m Hm]|[m Hm]].
    - replace (Z.odd k) with false
        by (symmetry; rewrite Hm, Z.odd_mul; reflexivity).
      apply Z.eqb_neq. intro Hz.
      pose proof (Z.quot_rem' (k + 1) 2) as Hq. rewrite Hz in Hq. lia.
    - replace (Z.odd k) with true
        by (symmetry; rewrite Hm, Z.odd_add, Z.odd_mul; reflexivity).
      replace (k + 1) with ((m + 1) * 2) by lia.
      rewrite Z.rem_mul by lia. reflexivity. }
  rewrite Hrem. destruct (Z.odd k); [reflexivity|].
  assert (Hg : Qgtb (inject_Z k + (1 # 2)) 0 = (0 <=? k)).
  { unfold Qgtb. destruct (0 <=? k) eqn:Hk.
    - apply Z.leb_le in Hk. apply negb_true_iff.
      destruct (Qle_bool _ _) eqn:Hq; [|reflexivity].
      apply Qle_bool_iff in Hq. rewrite Zle_Qle in Hk. change (inject_Z 0) with 0%Q in Hk. lra.
    - apply Z.leb_gt in Hk. apply negb_false_iff. apply Qle_bool_iff.
      assert (Hk' : k + 1 <= 0) by lia. rewrite Zle_Qle, inject_Z_plus in Hk'.
      change (inject_Z 1) with 1%Q in Hk'. change (inject_Z 0) with 0%Q in Hk'. lra. }
  rewrite Hg. destruct (0 <=? k).
  - replace (k + 1 + 1) with (k + 2) by lia. reflexivity.
  - replace (k + 1 + -1) with k by lia. reflexivity.
Qed.

Lemma round_half_even_tie (x : Q) (k : Z) :
  (x == inject_Z k + (1 # 2))%Q ->
  round_half_even x = if Z.even k then k else k + 1.
Proof.
  intros Hx. unfold round_half_even. cbv zeta.
  assert (Hf : Qfloor x = k).
  { pose proof (Qfloor_le x) as Hl. pose proof (Qlt_floor x) as Hu.
    rewrite inject_Z_plus in Hu. change (inject_Z 1) with 1%Q in Hu.
    assert (H1 : (inject_Z (Qfloor x) < inject_Z (k + 1))%Q)
      by (rewrite inject_Z_plus; change (inject_Z 1) with 1%Q; lra).
    assert (H2 : (inject_Z (k - 1) < inject_Z (Qfloor x))%Q)
      by (replace (k - 1) with (k + (-1)) by lia; rewrite inject_Z_plus;
          change (inject_Z (-1)) with (-1 # 1)%Q; lra).
    rewrite <- Zlt_Qlt in H1, H2. lia. }
  rewrite Hf.
  assert (Hc : ((x - inject_Z k) ?= 1 # 2)%Q = Eq).
  { apply Qeq_alt. rewrite Hx. ring. }
  rewrite Hc. reflexivity.
Qed.


Lemma div100_inj (a b : Z) : (inject_Z a / 100 == inject_Z b / 100)%Q <-> a = b.
Proof.
  split; [|intros ->; reflexivity].
  intros H. apply inject_Z_injective.
  assert (Ha : (inject_Z a == inject_Z a / 100 * 100)%Q) by field.
  assert (Hb : (inject_Z b == inject_Z b / 100 * 100)%Q) by field.
  rewrite Ha, Hb, H. reflexivity.
Qed.

(** On a tie the code agrees with round half to even exactly when the
    integer below the scaled value is odd or negative. *)
Lemma bankersRound_tie_agrees_iff (x : Q) (k : Z) :
  (x * 100 == inject_Z k + (1 # 2))%Q ->
  (bankersRound x 2 == half_even_2dp x)%Q <-> (Z.odd k = true \/ k < 0).
Proof.
  intros Hx. rewrite (bankersRound_tie x k Hx).
  unfold half_even_2dp. rewrite pow10_2. change (inject_Z 100) with 100%Q.
  rewrite (round_half_even_tie _ k Hx), div100_inj.
  unfold tie_result. rewrite <- Z.negb_odd.
  destruct (Z.odd k); cbn [negb].
  - split; [intros _; left; reflexivity | reflexivity].
  - destruct (0 <=? k) eqn:Hk.
    + apply Z.leb_le in Hk. split; [lia | intros [H|H]; [discriminate | lia]].
    + apply Z.leb_gt in Hk. split; [intros _; right; exact Hk | reflexivity].
Qed.

Example bankersRound_0135 : (bankersRound (135 # 1000) 2 == 14 # 100)%Q.
Proof. vm_compute. reflexivity. Qed.

Example bankersRound_neg_0125 : (bankersRound (- (125 # 1000)) 2 == - (12 # 100))%Q.
Proof. vm_compute. reflexivity. Qed.

Example half_even_0125 : (half_even_2dp (125 # 1000) == 12 # 100)%Q.
Proof. vm_compute. reflexivity. Qed.

(** C3.  bankersRound(0.125, 2): the scaled number 12.5 is a tie,
    Math.round gives 13, 13 is odd, and the tie branch adds 1 to it: the
    function returns 0.14.  Round half to even, the rule its documentation
    names, gives 0.12. *)
Theorem bankersRound_0125_is_014 :
  (bankersRound (125 # 1000) 2 == 14 # 100)%Q
  /\ ~ (bankersRound (125 # 1000) 2 == 12 # 100)%Q
  /\ ~ (bankersRound (125 # 1000) 2 == half_even_2dp (125 # 1000))%Q.
Proof.
  split; [| split].
  - vm_compute. reflexivity.
  - intro H. vm_compute in H. discriminate H.
  - intro H. vm_compute in H. discriminate H.
Qed.

End RoundingFacts.

(* ===================================================================== *)
(** * Totals *)
(* ===================================================================== *)

Module TotalsFacts.
Import Rounding Totals RoundingFacts.






(** A tax amount that lands on a tie: 5% of 0.50 is 0.025, and the
    calculator returns 0.04. *)
Example tax_on_half_unit :
  (taxAmount (calculateOrderTotals [mkPricedItem 1 1 (1 # 2) "SKU-1" "Product 1"]
                (mkOptions None (Some 0%Q)))
   == 4 # 100)%Q.
Proof. vm_compute. reflexivity. Qed.


End TotalsFacts.

(* ===================================================================== *)
(** * Inventory engine: the row invariant *)
(* ===================================================================== *)

Module InventoryInvariant.
Import Inventory.

Create HintDb inv_db.

Lemma rows_ok_map (f : InventoryRow -> InventoryRow) (db : DB) :
  (forall r, row_ok r -> row_ok (f r)) ->
  rows_ok db -> rows_ok (with_inventory db (map f (inventory db))).
Proof.
  unfold rows_ok. cbn. intros Hf H.
  induction H as [|r l Hr _ IH]; cbn; constructor; auto.
Qed.

Lemma insert_movement_ok db m : db_ok db -> db_ok (insert_movement db m).
Proof. intros [H1 H2]. split; assumption. Qed.

(** The guarded increment of the reserve handler. *)
Lemma update_reserve_rows db qty id :
  0 <= qty -> rows_ok db -> rows_ok (fst (update_reserve db qty id)).
Proof.
  intros Hq H. cbn. apply rows_ok_map; [|assumption].
  intros r [Hr1 Hr2].
  destruct ((inventory_id r =? id) && (qty <=? on_hand r - reserved r)) eqn:Hg.
  - apply andb_prop in Hg. destruct Hg as [_ Hg]. apply Z.leb_le in Hg.
    unfold row_ok. cbn. lia.
  - split; assumption.
Qed.

Lemma update_reserve_reservations db qty id :
  reservations (fst (update_reserve db qty id)) = reservations db.
Proof. reflexivity. Qed.

(** The clamped decrement of release and of the reaper. *)
Lemma update_release_ok db q p w :
  0 <= q -> db_ok db -> db_ok (update_release db q p w).
Proof.
  intros Hq [H1 H2]. split; [|exact H2].
  apply rows_ok_map; [|assumption].
  intros r [Hr1 Hr2].
  destruct ((inv_product_id r =? p) && (inv_warehouse r =? w)%string).
  - unfold row_ok, GREATEST_sub. cbn. lia.
  - split; assumption.
Qed.

(** The two clamped decrements of ship: whatever the quantity. *)
Lemma update_ship_ok db q p w : db_ok db -> db_ok (update_ship db q p w).
Proof.
  intros [H1 H2]. split; [|exact H2].
  apply rows_ok_map; [|assumption].
  intros r [Hr1 Hr2].
  destruct ((inv_product_id r =? p) && (inv_warehouse r =? w)%string).
  - unfold row_ok, GREATEST_sub. cbn. lia.
  - split; assumption.
Qed.

Lemma set_status_ok db (f : Reservation -> bool) s :
  db_ok db ->
  db_ok (with_reservations db
           (map (fun r => if f r then set_status r s else r) (reservations db))).
Proof.
  intros [H1 H2]. split; [exact H1|].
  unfold reservations_ok in *. cbn.
  induction H2 as [|r l Hr _ IH]; cbn; constructor; auto.
  destruct (f r); [exact Hr | exact Hr].
Qed.

Lemma insert_reservation_ok db order product sku w qty key e :
  0 < qty -> db_ok db ->
  db_ok (fst (insert_reservation db order product sku w qty key e)).
Proof.
  intros Hq [H1 H2]. split; [exact H1|].
  unfold reservations_ok in *. cbn.
  apply Forall_app. split; [assumption|].
  constructor; [exact Hq | constructor].
Qed.

#[local] Hint Resolve insert_movement_ok update_release_ok update_ship_ok
  set_status_ok insert_reservation_ok : inv_db.

Lemma on_normal_bind {A B : Type} (P : A -> Prop) (Q : B -> Prop)
    (c : Ctl A) (k : A -> Ctl B) :
  on_normal P c -> (forall a, P a -> on_normal Q (k a)) -> on_normal Q (bind c k).
Proof. destruct c; cbn; auto. Qed.

Lemma on_normal_for_of {A S : Type} (P : S -> Prop) (body : S -> A -> Ctl S) :
  (forall s x, P s -> on_normal P (body s x)) ->
  forall l s, P s -> on_normal P (for_of body l s).
Proof.
  intros Hbody l. induction l as [|x l IH]; intros s Hs; cbn; [exact Hs|].
  apply on_normal_bind with (P := P); auto.
Qed.

Lemma try_warehouses_ok key order expiresAt item :
  0 < qty item ->
  forall warehouses st, loop_ok st ->
  on_normal (fun r => loop_ok (fst r))
            (try_warehouses key order expiresAt item warehouses st).
Proof.
  intros Hq warehouses.
  induction warehouses as [|inv rest IH]; intros st Hst;
    cbn [try_warehouses]; [exact Hst|].
  destruct (qty item <=? on_hand inv - reserved inv).
  - pose proof (update_reserve_rows (conn st) (qty item) (inventory_id inv)
                  ltac:(lia) (proj1 Hst)) as Hrows.
    destruct (update_reserve (conn st) (qty item) (inventory_id inv))
      as [db1 affectedRows] eqn:Hu.
    assert (Hdb1 : db_ok db1).
    { split; [exact Hrows|].
      pose proof (update_reserve_reservations (conn st) (qty item) (inventory_id inv)) as Hr.
      rewrite Hu in Hr. unfold reservations_ok. cbn in Hr. rewrite Hr. exact (proj2 Hst). }
    destruct (affectedRows =? 0).
    + apply IH. exact Hdb1.
    + destruct (unique_key_taken db1 key order (product_id item)).
      * unfold on_insert_error. destruct (0 <? _); exact I.
      * destruct (insert_reservation _ _ _ _ _ _ _ _) as [db2 reservationId] eqn:Hi.
        cbn. unfold loop_ok. cbn [conn].
        apply insert_movement_ok.
        replace db2 with (fst (insert_reservation db1 order (product_id item)
                                 (Js.or_null (sku item)) (inv_warehouse inv) (qty item)
                                 key expiresAt)) by (rewrite Hi; reflexivity).
        apply (insert_reservation_ok db1 order (product_id item)); assumption.
  - apply IH. exact Hst.
Qed.

Lemma reserve_item_ok key order expiresAt allocation st item :
  loop_ok st -> on_normal loop_ok (reserve_item key order expiresAt allocation st item).
Proof.
  intros Hst. unfold reserve_item.
  destruct ((qty item =? 0) || (qty item <=? 0)) eqn:Hq; [exact I|].
  apply orb_false_elim in Hq. destruct Hq as [_ Hq]. apply Z.leb_gt in Hq.
  destruct (product_id item =? 0); [exact I|].
  cbv zeta. destruct (candidate_warehouses allocation (conn st) item) as [|inv rest].
  - exact Hst.
  - destruct (existingProductReservation _ _ _ _); [|exact I].
    eapply on_normal_bind.
    + apply try_warehouses_ok; [exact Hq | exact Hst].
    + intros [st1 reserved] H1. cbn in H1. destruct reserved; cbn; exact H1.
Qed.

Lemma reserve_ok now req db : db_ok db -> db_ok (fst (reserve now req db)).
Proof.
  intros Hdb. unfold reserve.
  destruct (items req) as [[|it its]|]; [exact Hdb| |exact Hdb].
  destruct (negb (Js.truthy_num (order_id req))); [exact Hdb|].
  destruct (negb (Js.truthy_str (idempotencyKey_of req))); [exact Hdb|].
  destruct (order_id req) as [order|]; [|exact Hdb].
  destruct (idempotencyKey_of req) as [key|]; [|exact Hdb].
  pose proof (on_normal_for_of loop_ok
                (reserve_item key order (now + RESERVATION_TTL_MINUTES * 60 * 1000)
                   (allocateWarehouseStrategy db (it :: its)))
                (fun s x => reserve_item_ok key order _ _ s x)
                (it :: its) (mkLoop db [] [] false) Hdb) as Hloop.
  unfold reserve_transaction.
  destruct (reservations_of_key db key order); [|exact Hdb].
  destruct (for_of _ _ _) as [st|e|r]; cbn in *; assumption.
Qed.

Lemma confirm_ok o ids db : db_ok db -> db_ok (fst (confirm o ids db)).
Proof.
  intros Hdb. unfold confirm.
  destruct o as [order|]; [|exact Hdb].
  destruct (negb _); [exact Hdb|]. cbn.
  apply set_status_ok. exact Hdb.
Qed.

Lemma fold_release_ok (f : DB -> Reservation -> DB) :
  (forall db r, 0 < res_quantity r -> db_ok db -> db_ok (f db r)) ->
  forall l db, Forall (fun r => 0 < res_quantity r) l -> db_ok db ->
  db_ok (fold_left f l db).
Proof.
  intros Hf l. induction l as [|r l IH]; intros db Hl Hdb; cbn; [exact Hdb|].
  inversion Hl; subst. apply IH; auto.
Qed.

Lemma Forall_filter {A : Type} (P : A -> Prop) (f : A -> bool) (l : list A) :
  Forall P l -> Forall P (filter f l).
Proof.
  induction 1 as [|x l Hx _ IH]; cbn; [constructor|].
  destruct (f x); [constructor|]; assumption.
Qed.

Lemma release_ok o db : db_ok db -> db_ok (fst (release o db)).
Proof.
  intros Hdb. unfold release.
  destruct o as [order|]; [|exact Hdb].
  destruct (negb _); [exact Hdb|]. cbn.
  set (hit := fun r => (res_order_id r =? order) && is_active r).
  pose proof (set_status_ok db hit RELEASED Hdb) as H1.
  apply fold_release_ok.
  - intros d r Hr Hd. unfold release_one.
    apply insert_movement_ok, update_release_ok; [lia | exact Hd].
  - apply Forall_filter. exact (proj2 H1).
  - exact H1.
Qed.

Lemma ship_item_ok order db item :
  db_ok db -> on_normal db_ok (ship_item order db item).
Proof.
  intros Hdb. unfold ship_item.
  destruct (ship_warehouse item) as [w|]; [|exact I].
  destruct (_ || _); [exact I|]. cbn.
  apply insert_movement_ok, update_ship_ok. exact Hdb.
Qed.

Lemma ship_ok its o db : db_ok db -> db_ok (fst (ship its o db)).
Proof.
  intros Hdb. unfold ship.
  destruct its as [[|it its]|]; [exact Hdb| |exact Hdb].
  destruct o as [order|]; [|exact Hdb].
  destruct (negb _); [exact Hdb|].
  pose proof (on_normal_for_of db_ok (ship_item order)
                (fun s x => ship_item_ok order s x) (it :: its) db Hdb) as H.
  destruct (for_of _ _ _); cbn in *; assumption.
Qed.

Lemma reaper_ok now db : db_ok db -> db_ok (fst (reaper now db)).
Proof.
  intros Hdb. unfold reaper.
  set (expired := filter (fun r => is_active r && (res_expires_at r <? now))
                         (reservations db)).
  assert (Hexp : Forall (fun r => 0 < res_quantity r) expired)
    by (apply Forall_filter; exact (proj2 Hdb)).
  destruct expired as [|e rest] eqn:He; [exact Hdb|]. cbn [fst].
  apply fold_release_ok.
  - intros d r Hr Hd. unfold reap_one.
    apply insert_movement_ok, update_release_ok; [lia | exact Hd].
  - exact Hexp.
  - apply set_status_ok. exact Hdb.
Qed.

(** The joint invariant through one operation. *)
Lemma step_ok (op : Operation) (db : DB) : db_ok db -> db_ok (fst (step op db)).
Proof.
  intros Hdb. destruct op; cbn [step].
  - apply reserve_ok; exact Hdb.
  - apply confirm_ok; exact Hdb.
  - apply release_ok; exact Hdb.
  - apply ship_ok; exact Hdb.
  - apply reaper_ok; exact Hdb.
Qed.

(** C5.  Every operation of the inventory engine (reserve, confirm,
    release, ship, reaper) preserves the row invariant
    0 <= reserved <= on_hand: if it holds of every row before the
    operation, and the reservations hold positive quantities as the data
    model has them, it holds of every row after the operation, and the
    reservations still hold positive quantities. *)
Theorem step_preserves_row_invariant (op : Operation) (db : DB) :
  rows_ok db -> reservations_ok db ->
  rows_ok (fst (step op db)) /\ reservations_ok (fst (step op db)).
Proof.
  intros H1 H2. apply step_ok. split; assumption.
Qed.

Lemma step_preserves_row_invariant_witness :
  rows_ok release_db /\ reservations_ok release_db
  /\ rows_ok (fst (step (Op_release (Some 7)) release_db))
  /\ reservations_ok (fst (step (Op_release (Some 7)) release_db)).
Proof.
  assert (H1 : rows_ok release_db)
    by (unfold rows_ok, row_ok; simpl; repeat constructor; simpl; lia).
  assert (H2 : reservations_ok release_db)
    by (unfold reservations_ok; simpl; repeat constructor).
  split; [exact H1|]. split; [exact H2|].
  apply (step_preserves_row_invariant (Op_release (Some 7)) release_db H1 H2).
Defined.

(** The invariant along a run of operations. *)
Corollary run_preserves_row_invariant (ops : list Operation) (db : DB) :
  rows_ok db -> reservations_ok db -> rows_ok (run ops db).
Proof.
  revert db. induction ops as [|op ops IH]; intros db H1 H2; cbn; [exact H1|].
  destruct (step_ok op db (conj H1 H2)) as [H1' H2'].
  apply IH; assumption.
Qed.

(** From stock that satisfies the invariant and an empty reservations
    table, every run keeps the invariant. *)
Corollary run_from_seed_keeps_row_invariant (ops : list Operation)
    (rows : list InventoryRow) (ledger : list Movement) :
  Forall row_ok rows -> rows_ok (run ops (mkDB rows [] ledger)).
Proof.
  intros H. apply run_preserves_row_invariant; [exact H | constructor].
Qed.

End InventoryInvariant.

(* ===================================================================== *)
(** * Inventory engine: idempotent replay, collisions, release *)
(* ===================================================================== *)

Module InventoryFacts.
Import Inventory.

(** A request that passes the validation of the reserve handler. *)
Lemma reserve_valid now req db it its order key :
  items req = Some (it :: its) ->
  order_id req = Some order -> order <> 0 ->
  idempotencyKey_of req = Some key -> key <> EmptyString ->
  reserve now req db =
  match reserve_transaction now key order (it :: its) db with
  | Normal (db', response) => (db', response)
  | Throw err => (db, reserve_catch db key order err)
  | Return response => (db, response)
  end.
Proof.
  intros Hi Ho Ho0 Hk Hk0. unfold reserve. rewrite Hi, Ho, Hk. cbn.
  destruct (order =? 0) eqn:E; [apply Z.eqb_eq in E; contradiction|]. cbn.
  destruct (key =? EmptyString)%string eqn:E'; [apply String.eqb_eq in E'; contradiction|].
  reflexivity.
Qed.



(** The idempotent-replay scenario: the same reserve sent twice with key
    k2 for order 42 gives the same reservation and reserves once. *)
Example reserve_twice_reserves_once :
  let db0 := mkDB [mkRow 1 1 "WH1" 10 0] [] [] in
  let (db1, r1) := reserve 1000 replay_request db0 in
  let (db2, r2) := reserve 2000 replay_request db1 in
  db1 = replay_db /\ db2 = db1
  /\ r1 = mkResponse 200
            (reserve_body RESERVED 42 false (Some SINGLE_WAREHOUSE)
               [reserved_item (Some "SKU-1"%string) 1 "WH1" 2 (Some 2) 1] 901000)
  /\ r2 = mkResponse 200
            (reserve_body RESERVED 42 true None
               [reserved_item (Some "SKU-1"%string) 1 "WH1" 2 None 1] 901000).
Proof. vm_compute. repeat split. Qed.

(** The per-item collision: when the product of an item already has an
    ACTIVE reservation under the key and the order, the loop body ends in
    the ReferenceError raised by the assignment to [reserved]. *)
Lemma reserve_item_collision key order expiresAt allocation st item existing rest :
  0 < qty item -> product_id item <> 0 ->
  candidate_warehouses allocation (conn st) item <> [] ->
  existingProductReservation (conn st) key order (product_id item) = existing :: rest ->
  reserve_item key order expiresAt allocation st item = Throw ReferenceError_reserved.
Proof.
  intros Hq Hp Hw He. unfold reserve_item.
  destruct (qty item =? 0) eqn:E1; [apply Z.eqb_eq in E1; lia|].
  destruct (qty item <=? 0) eqn:E2; [apply Z.leb_le in E2; lia|].
  destruct (product_id item =? 0) eqn:E3; [apply Z.eqb_eq in E3; contradiction|].
  cbn. destruct (candidate_warehouses _ _ _); [contradiction|].
  rewrite He. reflexivity.
Qed.

(** An error raised inside the transaction is answered with 400 after a
    rollback, unless it is ER_DUP_ENTRY. *)
Lemma reserve_throw_rolls_back now req db it its order key err :
  items req = Some (it :: its) ->
  order_id req = Some order -> order <> 0 ->
  idempotencyKey_of req = Some key -> key <> EmptyString ->
  reserve_transaction now key order (it :: its) db = Throw err ->
  is_ER_DUP_ENTRY err = false ->
  reserve now req db = (db, mkResponse 400 (error_body err order)).
Proof.
  intros Hi Ho Ho0 Hk Hk0 Ht He.
  rewrite (reserve_valid now req db it its order key Hi Ho Ho0 Hk Hk0), Ht.
  unfold reserve_catch. rewrite He. reflexivity.
Qed.

(** C9.  A reserve request that names product 1 twice: the first item is
    reserved, the second finds the ACTIVE reservation just made for
    (k1, 42, 1) and takes the branch that reuses it; the assignment
    [reserved = true] in that branch raises a ReferenceError, the
    transaction is rolled back and the request is answered 400.  Neither
    item ends up reserved. *)
Theorem reserve_collision_is_answered_400 :
  reserve 1000 collision_request collision_db
  = (collision_db, mkResponse 400 (error_body ReferenceError_reserved 42))
  /\ (exists st1,
        reserve_item "k1" 42 901000 (allocateWarehouseStrategy collision_db
                                       [mkItem (Some "SKU-1"%string) 1 1;
                                        mkItem (Some "SKU-1"%string) 1 1])
                     (mkLoop collision_db [] [] false) (mkItem (Some "SKU-1"%string) 1 1)
        = Normal st1
        /\ List.length (existingProductReservation (conn st1) "k1" 42 1) = 1%nat
        /\ reserve_item "k1" 42 901000 (allocateWarehouseStrategy collision_db
                                          [mkItem (Some "SKU-1"%string) 1 1;
                                           mkItem (Some "SKU-1"%string) 1 1])
                        st1 (mkItem (Some "SKU-1"%string) 1 1)
           = Throw ReferenceError_reserved).
Proof.
  split; [vm_compute; reflexivity|].
  eexists. split; [vm_compute; reflexivity|].
  split; vm_compute; reflexivity.
Qed.

(** ** Release *)

(** C4.  Release of order 7 run twice on a row that also carries the
    reservation of order 8: the first call takes the two units of order 7
    off [reserved] (5 to 3) and appends one RELEASE movement; the second
    call finds the same reservation, now RELEASED, takes two more units
    off (3 to 1) and appends a second RELEASE movement. *)
Theorem release_twice_decrements_twice :
  let db1 := fst (release (Some 7) release_db) in
  let db2 := fst (release (Some 7) db1) in
  map reserved (inventory release_db) = [5]
  /\ map reserved (inventory db1) = [3]
  /\ map reserved (inventory db2) = [1]
  /\ List.length (inventory_Movements db1) = 1%nat
  /\ List.length (inventory_Movements db2) = 2%nat
  /\ db2 <> db1
  /\ snd (release (Some 7) db1) = mkResponse 200 (released_body 7 0).
Proof.
  vm_compute. repeat split. intro H. discriminate H.
Qed.

Lemma update_release_movements db q p w :
  inventory_Movements (update_release db q p w) = inventory_Movements db.
Proof. reflexivity. Qed.

Lemma fold_release_movements order l : forall db,
  inventory_Movements (fold_left (release_one order) l db)
  = inventory_Movements db ++ map (release_movement order) l.
Proof.
  induction l as [|r l IH]; intros db; cbn [fold_left map].
  - symmetry. apply app_nil_r.
  - rewrite IH. unfold release_one, release_movement.
    cbn [insert_movement inventory_Movements].
    rewrite update_release_movements, <- app_assoc. reflexivity.
Qed.

Lemma released_iff_walked order r :
  (res_order_id (mark_released order r) =? order)
  && ResStatus_eqb (res_status (mark_released order r)) RELEASED
  = walked order r.
Proof.
  unfold mark_released, walked, is_active.
  destruct r as [id o p s w q k e st]. cbn [res_order_id res_status].
  destruct (o =? order) eqn:E; destruct st; cbn; rewrite ?E; reflexivity.
Qed.

Lemma walked_mark_released order r :
  walked order (mark_released order r) = walked order r.
Proof.
  unfold mark_released, walked, is_active.
  destruct r as [id o p s w q k e st]. cbn [res_order_id res_status].
  destruct (o =? order) eqn:E; destruct st; cbn; rewrite ?E; reflexivity.
Qed.

Lemma release_movement_mark_released order r :
  release_movement order (mark_released order r) = release_movement order r.
Proof.
  unfold mark_released. destruct (_ && _); reflexivity.
Qed.

Lemma released_after_update order rs :
  map (release_movement order)
      (filter (fun r => (res_order_id r =? order) && ResStatus_eqb (res_status r) RELEASED)
              (map (mark_released order) rs))
  = map (release_movement order) (filter (walked order) rs).
Proof.
  induction rs as [|r rs IH]; [reflexivity|].
  cbn [map filter]. rewrite released_iff_walked.
  destruct (walked order r); cbn [map]; rewrite IH; [|reflexivity].
  rewrite release_movement_mark_released. reflexivity.
Qed.

(** What a release appends to the ledger. *)
Lemma release_movements order db :
  order <> 0 ->
  inventory_Movements (fst (release (Some order) db))
  = inventory_Movements db
    ++ map (release_movement order) (filter (walked order) (reservations db)).
Proof.
  intros Ho. unfold release. cbn [Js.truthy_num].
  destruct (order =? 0) eqn:E; [apply Z.eqb_eq in E; contradiction|].
  cbn [negb fst]. rewrite fold_release_movements.
  cbn [inventory_Movements with_reservations reservations].
  rewrite released_after_update. reflexivity.
Qed.

Lemma walked_after_release order rs :
  List.length (filter (walked order) (map (mark_released order) rs))
  = List.length (filter (walked order) rs).
Proof.
  induction rs as [|r rs IH]; [reflexivity|].
  cbn [map filter]. rewrite walked_mark_released.
  destruct (walked order r); cbn [List.length]; rewrite IH; reflexivity.
Qed.

Lemma fold_release_reservations order l : forall db,
  reservations (fold_left (release_one order) l db) = reservations db.
Proof.
  induction l as [|r l IH]; intros db; cbn [fold_left]; [reflexivity|].
  rewrite IH. reflexivity.
Qed.

(** Releasing an order that has an ACTIVE reservation and releasing it
    again: the second call appends as many RELEASE movements as the
    first, at least one. *)
Lemma release_again_appends_movements order db r :
  order <> 0 -> In r (reservations db) ->
  res_order_id r = order -> res_status r = ACTIVE ->
  let db1 := fst (release (Some order) db) in
  let db2 := fst (release (Some order) db1) in
  exists n, (0 < n)%nat
    /\ List.length (inventory_Movements db1) = (List.length (inventory_Movements db) + n)%nat
    /\ List.length (inventory_Movements db2) = (List.length (inventory_Movements db1) + n)%nat.
Proof.
  intros Ho Hin Hr Hs db1 db2.
  exists (List.length (filter (walked order) (reservations db))).
  assert (Hpos : (0 < List.length (filter (walked order) (reservations db)))%nat).
  { assert (Hw : In r (filter (walked order) (reservations db))).
    { apply filter_In. split; [exact Hin|].
      unfold walked, is_active. rewrite Hr, Hs, Z.eqb_refl. reflexivity. }
    destruct (filter (walked order) (reservations db)); [destruct Hw | cbn; lia]. }
  split; [exact Hpos|]. split.
  - unfold db1. rewrite release_movements by exact Ho.
    rewrite length_app, length_map. reflexivity.
  - unfold db2. rewrite release_movements by exact Ho.
    rewrite length_app, length_map. f_equal.
    unfold db1, release. cbn [Js.truthy_num].
    destruct (order =? 0) eqn:E; [apply Z.eqb_eq in E; contradiction|].
    cbn [negb fst]. rewrite fold_release_reservations.
    cbn [reservations with_reservations].
    apply (walked_after_release order (reservations db)).
Qed.

End InventoryFacts.

(* ===================================================================== *)
(** * The saga: calls, compensation, finalize *)
(* ===================================================================== *)

Module SagaFacts.
Import Js Http OrderService SagaFixtures.

Section Facts.

Variable generateTotalsSignature : Totals.OrderTotals -> list Totals.PricedItem -> string.

Local Abbreviation createOrderSaga := (createOrderSaga generateTotalsSignature).
Local Abbreviation create_pending_order := (create_pending_order generateTotalsSignature).

(** ** The orders table *)

Lemma fresh_order_id_above (db : list Order) :
  Forall (fun o => order_id o < fresh_order_id db) db.
Proof.
  unfold fresh_order_id.
  induction db as [|o db IH]; constructor; cbn [fold_right]; cbv beta.
  - lia.
  - eapply Forall_impl; [|exact IH]. cbv beta. intros a Ha. lia.
Qed.

Lemma update_leaves_older_rows (db : list Order) (id : Z) (data : Order -> Order) :
  Forall (fun o => order_id o < id) db ->
  map (fun o => if order_id o =? id then data o else o) db = db.
Proof.
  induction 1 as [|o db Ho _ IH]; cbn [map]; [reflexivity|].
  destruct (order_id o =? id) eqn:E; [apply Z.eqb_eq in E; lia|].
  rewrite IH. reflexivity.
Qed.

Lemma find_skips_older_rows (db : list Order) (id : Z) (o : Order) :
  Forall (fun o => order_id o < id) db -> order_id o = id ->
  Order_findUnique (db ++ [o]) id = Some o.
Proof.
  intros H Ho. unfold Order_findUnique.
  induction H as [|x db Hx _ IH]; cbn [app find].
  - rewrite Ho, Z.eqb_refl. reflexivity.
  - destruct (order_id x =? id) eqn:E; [apply Z.eqb_eq in E; lia|]. exact IH.
Qed.

(** An update of the order just created changes that row and no other. *)
Lemma Order_update_new_row (db : list Order) (o : Order) (data : Order -> Order) :
  order_id o = fresh_order_id db ->
  order_id (data o) = order_id o ->
  Order_update (db ++ [o]) (order_id o) data = (db ++ [data o], Some (data o)).
Proof.
  intros Hid Hdata. unfold Order_update.
  pose proof (fresh_order_id_above db) as Hdb. rewrite <- Hid in Hdb.
  rewrite map_app. cbn [map]. rewrite Z.eqb_refl.
  rewrite (update_leaves_older_rows db (order_id o) data Hdb).
  rewrite (find_skips_older_rows db (order_id o) (data o) Hdb Hdata).
  reflexivity.
Qed.

Lemma create_pending_order_spec (od : OrderData) (items : list Totals.PricedItem)
    (db : list Order) :
  let (db1, order) := create_pending_order od items db in
  db1 = db ++ [order]
  /\ order_id order = fresh_order_id db
  /\ order_status order = PENDING
  /\ payment_status order = PAY_PENDING
  /\ payment_id order = None
  /\ customer_id order = userId od
  /\ order_total order = Totals.total (Totals.saga_totals items).
Proof. cbn. repeat split. Qed.

(** ** The reserve call *)

Lemma reserve_call_rejected (order : Order) (items : list Totals.PricedItem) :
  rejected_by_inventory (reserve_call order items).
Proof.
  split; [reflexivity|]. intros now idb.
  unfold Inventory.reserve. cbn [reserve_call Inventory.items Inventory.order_id].
  destruct (map _ items) as [|it its]; [split; reflexivity|].
  destruct (negb (truthy_num (Some (order_id order)))); [split; reflexivity|].
  split; reflexivity.
Qed.

Lemma price_and_details_calls env od :
  Forall reserve_calls_rejected (snd (price_and_details env od)).
Proof.
  unfold price_and_details.
  destruct (catalog_prices env _) as [s [pm|]|]; cbn;
    repeat (destruct (negb _)); cbn; repeat constructor.
  induction (map productId (items od)); cbn; constructor; [exact I | assumption].
Qed.

Lemma charge_and_finalize_calls cfg env od order db :
  Forall reserve_calls_rejected (snd (charge_and_finalize cfg env od order db)).
Proof.
  unfold charge_and_finalize.
  destruct (negb _); [constructor|].
  destruct (payment_charge env _) as [s data|]; [|repeat constructor].
  destruct (negb _); [repeat constructor|].
  destruct (rejected_status data); [repeat constructor|].
  destruct (paymentId_of data); [|repeat constructor].
  destruct (Order_update _ _ _) as [db' [o|]]; repeat constructor.
Qed.

Lemma reserve_charge_finalize_calls cfg env od order items db :
  Forall reserve_calls_rejected
         (snd (reserve_charge_finalize cfg env od order items db)).
Proof.
  unfold reserve_charge_finalize.
  destruct (negb _); [constructor|].
  assert (Hc : reserve_calls_rejected (POST_inventory_reserve (reserve_call order items)))
    by (split; [apply reserve_call_rejected | split; reflexivity]).
  destruct (inventory_reserve env _) as [s data|];
    [|constructor; [exact Hc | constructor]].
  destruct (negb _); [constructor; [exact Hc | constructor]|].
  pose proof (charge_and_finalize_calls cfg env od order db) as Hp.
  destruct (charge_and_finalize cfg env od order db) as [[[e|o] db'] calls];
    cbn [snd] in *; constructor; assumption.
Qed.

Lemma compensateOrder_calls cfg env order b db :
  Forall reserve_calls_rejected (snd (compensateOrder cfg env order b db)).
Proof.
  unfold compensateOrder. destruct b; [|constructor].
  destruct (Order_findUnique _ _) as [o|]; [|constructor].
  destruct (order_items o); [constructor|].
  destruct (negb _); repeat constructor.
Qed.

Lemma createOrderSaga_calls cfg env od db :
  Forall reserve_calls_rejected (snd (createOrderSaga cfg env od db)).
Proof.
  unfold OrderService.createOrderSaga.
  destruct (negb _); [constructor|].
  pose proof (price_and_details_calls env od) as H1.
  destruct (price_and_details env od) as [[e|items] calls]; cbn [snd] in *; [exact H1|].
  destruct (create_pending_order od items db) as [db1 order].
  pose proof (reserve_charge_finalize_calls cfg env od order items db1) as H2.
  destruct (reserve_charge_finalize cfg env od order items db1)
    as [[[[e b]|o] db2] calls2]; cbn [snd] in *.
  - pose proof (compensateOrder_calls cfg env order b db2) as H3.
    destruct (compensateOrder cfg env order b db2) as [db3 calls3]. cbn [snd] in *.
    apply Forall_app. split; [exact H1|]. apply Forall_app. split; assumption.
  - apply Forall_app. split; assumption.
Qed.

(** C1.  In every run of the saga, every POST to /v1/inventory/reserve
    has no Idempotency-Key header and no idempotency_key body field, so
    the reserve handler finds no key in it and answers it with 400
    without touching its database.  On the happy-path request with client
    key k1 and stock for both products the run therefore ends in
    compensation: the saga throws, the order is CANCELLED, no payment is
    attempted. *)
Theorem saga_reserve_call_lacks_idempotency_key :
  (forall cfg env od db,
     Forall (fun c =>
               match c with
               | POST_inventory_reserve req =>
                   prop "idempotency-key" (Inventory.headers req) = None
                   /\ Inventory.idempotency_key req = None
                   /\ Inventory.idempotencyKey_of req = None
                   /\ (forall now idb,
                         fst (Inventory.reserve now req idb) = idb
                         /\ Inventory.http_status (snd (Inventory.reserve now req idb)) = 400)
               | _ => True
               end)
            (snd (createOrderSaga cfg env od db)))
  /\ (let '(result, db, calls) := createOrderSaga happy_cfg live_env happy_order [] in
      idempotencyKey happy_order = Some "k1"%string
      /\ result = throws_order_processing_failed
                    (inventory_service_error 400
                       (Inventory.invalid_request "'idempotency-key' header is required"))
      /\ map order_status db = [CANCELLED]
      /\ existsb is_POST_payments calls = false).
Proof.
  split.
  - intros cfg env od db.
    eapply Forall_impl; [|apply createOrderSaga_calls].
    intros [ | |req| | ]; cbn; try (intros; exact I).
    intros [[H1 H2] [H3 H4]]. repeat split; try assumption; apply H2.
  - vm_compute. repeat split.
Qed.

(** ** Reserve answers and the payment phase *)

(** Any 2xx answer of the reserve call, whatever its body says, sets
    [inventoryReserved] and leads into the payment phase. *)
Lemma reserve_answer_body_is_ignored cfg env od order items db s data :
  truthy_str (INVENTORY_SERVICE_URL cfg) = true ->
  inventory_reserve env (reserve_call order items) = answered s data ->
  resolved s = true ->
  reserve_charge_finalize cfg env od order items db
  = match charge_and_finalize cfg env od order db with
    | (inl e, db', calls) =>
        (inl (e, true), db', POST_inventory_reserve (reserve_call order items) :: calls)
    | (inr order', db', calls) =>
        (inr order', db', POST_inventory_reserve (reserve_call order items) :: calls)
    end.
Proof.
  intros Hurl Hans Hres. unfold reserve_charge_finalize.
  rewrite Hurl, Hans, Hres. reflexivity.
Qed.

(** A reserve call that is answered outside 200..299, or not answered:
    the saga makes no payment call, marks the order CANCELLED and
    throws. *)
Lemma reserve_failure_is_compensated cfg env od db items calls :
  truthy_str (CATALOG_SERVICE_URL cfg) = true ->
  truthy_str (INVENTORY_SERVICE_URL cfg) = true ->
  price_and_details env od = (inr items, calls) ->
  let order := snd (create_pending_order od items db) in
  (inventory_reserve env (reserve_call order items) = no_response
   \/ exists s data, inventory_reserve env (reserve_call order items) = answered s data
                     /\ resolved s = false) ->
  exists e,
    createOrderSaga cfg env od db
    = (throws_order_processing_failed e,
       db ++ [cancelData order],
       calls ++ [POST_inventory_reserve (reserve_call order items)]).
Proof.
  intros Hc Hi Hp order Hans.
  unfold OrderService.createOrderSaga. rewrite Hc, Hp. cbn [negb].
  pose proof (create_pending_order_spec od items db) as Hspec.
  destruct (create_pending_order od items db) as [db1 order0] eqn:Hcreate.
  subst order. cbn [snd] in *.
  destruct Hspec as (Hdb1 & Hid & _).
  assert (Hcomp : compensateOrder cfg env order0 false db1 = (db ++ [cancelData order0], [])).
  { unfold compensateOrder. rewrite Hdb1.
    rewrite (Order_update_new_row db order0 cancelData Hid eq_refl). reflexivity. }
  unfold reserve_charge_finalize. rewrite Hi. cbn [negb].
  destruct Hans as [Hn | (s & data & Ha & Hr)].
  - rewrite Hn, Hcomp. eexists. rewrite app_nil_r. reflexivity.
  - rewrite Ha, Hr. cbn [negb]. rewrite Hcomp. eexists. rewrite app_nil_r. reflexivity.
Qed.

(** C2.  The happy-path request against an inventory service that
    answers the reserve call with 200 and status PARTIAL (product 2 out
    of stock): the saga treats the answer as a reservation, charges the
    payment, and returns the order with payment status SUCCESS; the
    order is not CANCELLED and no release is sent. *)
Theorem saga_charges_after_partial_reserve :
  let '(result, db, calls) := createOrderSaga happy_cfg partial_env happy_order [] in
  (exists s body, inventory_reserve partial_env
                    (reserve_call (snd (create_pending_order happy_order
                                          Totals.happy_items [])) Totals.happy_items)
                  = answered s (Inventory.reserve_body Inventory.PARTIAL 1 false
                                  (Some Inventory.SPLIT) body 901000)
                  /\ s = 200)
  /\ (exists order totals,
        result = returns order totals
        /\ order_status order = PENDING
        /\ payment_status order = SUCCESS
        /\ payment_id order = Some "pay-1"%string)
  /\ existsb is_POST_payments calls = true
  /\ map order_status db = [PENDING]
  /\ List.length calls = 5%nat.
Proof.
  vm_compute. split; [|split; [|repeat split]].
  - do 2 eexists. split; reflexivity.
  - do 2 eexists. repeat split.
Qed.

(** ** Finalize *)

Lemma charge_and_finalize_returns cfg env od db order0 order db' calls :
  order_id order0 = fresh_order_id db ->
  charge_and_finalize cfg env od order0 (db ++ [order0]) = (inr order, db', calls) ->
  exists s data paymentId,
    payment_charge env (payment_call od order0) = answered s data
    /\ paymentId_of data = Some paymentId
    /\ order = updateData paymentId order0
    /\ db' = db ++ [order].
Proof.
  intros Hid. unfold charge_and_finalize.
  destruct (negb _); [discriminate|].
  destruct (payment_charge env _) as [s data|]; [|discriminate].
  destruct (negb _); [discriminate|].
  destruct (rejected_status data); [discriminate|].
  destruct (paymentId_of data) as [paymentId|] eqn:Hp; [|discriminate].
  rewrite (Order_update_new_row db order0 (updateData paymentId) Hid eq_refl).
  intros H. injection H as <- <- <-.
  exists s, data, paymentId. repeat split. exact Hp.
Qed.

(** C10.  When the saga returns an order, the order it returns and
    stores is the order persisted in step 2 with [payment_status] set to
    SUCCESS and [payment_id] set to the payment identifier the payment
    service answered; [order_status] is still PENDING, and the total, the
    signature, the customer, the items and the identifier are those of
    the persisted order; no other row of the orders table changes. *)
Theorem finalize_updates_payment_fields_only cfg env od db order totals db' calls :
  createOrderSaga cfg env od db = (returns order totals, db', calls) ->
  exists pricedItems paymentId,
    let persisted := snd (create_pending_order od pricedItems db) in
    fst (price_and_details env od) = inr pricedItems
    /\ (exists s data,
          payment_charge env (payment_call od persisted) = answered s data
          /\ paymentId_of data = Some paymentId)
    /\ payment_status order = SUCCESS
    /\ payment_id order = Some paymentId
    /\ order_status order = PENDING
    /\ order_status order = order_status persisted
    /\ order_total order = order_total persisted
    /\ totals_signature order = totals_signature persisted
    /\ customer_id order = customer_id persisted
    /\ order_items order = order_items persisted
    /\ order_id order = order_id persisted
    /\ db' = db ++ [order]
    /\ Order_findUnique db' (order_id order) = Some order.
Proof.
  unfold OrderService.createOrderSaga.
  destruct (negb _); [discriminate|].
  destruct (price_and_details env od) as [[e|items] calls1] eqn:Hp; [discriminate|].
  pose proof (create_pending_order_spec od items db) as Hspec.
  destruct (create_pending_order od items db) as [db1 order0] eqn:Hcreate.
  destruct Hspec as (Hdb1 & Hid & Hst & _).
  unfold reserve_charge_finalize.
  destruct (negb _); [cbn; intros H; discriminate H|].
  destruct (inventory_reserve env _) as [s data|].
  2:{ destruct (compensateOrder _ _ _ _ _). discriminate. }
  destruct (negb _).
  { destruct (compensateOrder _ _ _ _ _). discriminate. }
  destruct (charge_and_finalize cfg env od order0 db1) as [[[e|o] db2] calls2] eqn:Hc.
  { destruct (compensateOrder _ _ _ _ _). discriminate. }
  intros H. injection H as -> _ -> _.
  rewrite Hdb1 in Hc.
  destruct (charge_and_finalize_returns _ _ _ _ _ _ _ _ Hid Hc)
    as (s' & data' & paymentId & Hcall & Hpid & -> & ->).
  exists items, paymentId. cbv zeta. rewrite Hcreate. cbn [snd fst].
  split; [reflexivity|].
  split; [exists s', data'; split; assumption|].
  repeat split; try assumption.
  apply find_skips_older_rows.
  - change (order_id (updateData paymentId order0)) with (order_id order0).
    rewrite Hid. apply fresh_order_id_above.
  - reflexivity.
Qed.

End Facts.

Lemma finalize_updates_payment_fields_only_witness :
  exists order totals db' calls,
    createOrderSaga (fun _ _ => "sig"%string) happy_cfg reserved_env happy_order []
    = (returns order totals, db', calls)
    /\ payment_status order = SUCCESS
    /\ payment_id order = Some "pay-1"%string
    /\ order_status order = PENDING
    /\ db' = [order].
Proof.
  eexists _, _, _, _. split; [vm_compute; reflexivity|].
  destruct (finalize_updates_payment_fields_only (fun _ _ => "sig"%string)
              happy_cfg reserved_env happy_order [] _ _ _ _ eq_refl)
    as (items & paymentId & _ & _ & H1 & _ & H3 & _ & _ & _ & _ & _ & _ & H9 & _).
  split; [exact H1|]. split; [reflexivity|]. split; [exact H3 | exact H9].
Defined.

End SagaFacts.

(* ===================================================================== *)
(** * Idempotent replay of POST /v1/orders *)
(* ===================================================================== *)

Module IdempotencyFacts.
Import Js OrderController.

Section Replay.

Variable generateTotalsSignature : Totals.OrderTotals -> list Totals.PricedItem -> string.
Variable request_hash_of : Json -> string.

Local Abbreviation POST_orders := (POST_orders generateTotalsSignature request_hash_of).

Lemma World_eta (w : World) : mkWorld (idempotency_keys w) (orders w) = w.
Proof. destruct w. reflexivity. Qed.

(** The middleware on a request whose key has a record. *)
Lemma checkIdempotency_existing get path body store k r :
  Idempotency.detected_key get = Some k -> k <> EmptyString ->
  Idempotency.findUnique store k = Some r ->
  Idempotency.checkIdempotency request_hash_of get path body store
  = (store,
     match Idempotency.response_code r with
     | Some code =>
         if (200 <=? code) && (code <? 400)
         then Idempotency.respond code (Idempotency.cached (Idempotency.response_body r))
         else Idempotency.respond 409
                (Idempotency.CONFLICT k (Idempotency.FAILED_ code)
                   (Idempotency.resource_path r))
     | None =>
         Idempotency.respond 409
           (Idempotency.CONFLICT k Idempotency.IN_PROGRESS (Idempotency.resource_path r))
     end).
Proof.
  intros Hk Hk0 Hr. unfold Idempotency.checkIdempotency. cbv zeta. rewrite Hk.
  cbn [truthy_str].
  destruct (k =? EmptyString)%string eqn:E; [apply String.eqb_eq in E; contradiction|].
  cbn [negb]. rewrite Hr.
  destruct (Idempotency.response_code r) as [code|]; [|reflexivity].
  destruct ((200 <=? code) && (code <? 400)); reflexivity.
Qed.


End Replay.



End IdempotencyFacts.

(* ===================================================================== *)
(** * Inventory engine: what a reserve changes *)
(* ===================================================================== *)

Module ReserveFacts.
Import Inventory InventoryProps.

Lemma same_stock_refl r : same_stock r r.
Proof. repeat split. Qed.

Lemma reserved_grows_refl l : reserved_grows l l.
Proof.
  unfold reserved_grows. induction l; constructor; auto.
  split; [apply same_stock_refl | lia].
Qed.

Lemma reserved_grows_trans l1 l2 l3 :
  reserved_grows l1 l2 -> reserved_grows l2 l3 -> reserved_grows l1 l3.
Proof.
  unfold reserved_grows. intros H. revert l3.
  induction H as [|a b l1 l2 [Hs Hr] _ IH]; intros l3 H3; inversion H3; subst;
    constructor; auto.
  destruct H1 as [Hs' Hr']. destruct Hs as (A1 & A2 & A3 & A4).
  destruct Hs' as (B1 & B2 & B3 & B4).
  split; [repeat split; congruence | lia].
Qed.

Lemma update_reserve_grows db q id :
  0 <= q -> reserved_grows (inventory db) (inventory (fst (update_reserve db q id))).
Proof.
  intros Hq. unfold reserved_grows. cbn.
  induction (inventory db) as [|r l IH]; cbn [map]; constructor; [|exact IH].
  destruct (_ && _); cbn; (split; [repeat split | lia]).
Qed.

(** A request is either turned away by the validation, or runs the
    transaction with an order identifier and a key. *)
Lemma reserve_inversion now req db :
  (reserve now req db = (db, mkResponse 400 (invalid_request "'items' array is required"))
   \/ reserve now req db = (db, mkResponse 400 (invalid_request "'order_id' is required"))
   \/ reserve now req db
      = (db, mkResponse 400 (invalid_request "'idempotency-key' header is required")))
  \/ exists it its order key,
       items req = Some (it :: its) /\ order_id req = Some order /\ order <> 0
       /\ idempotencyKey_of req = Some key /\ key <> EmptyString
       /\ reserve now req db =
          match reserve_transaction now key order (it :: its) db with
          | Normal (db', response) => (db', response)
          | Throw err => (db, reserve_catch db key order err)
          | Return response => (db, response)
          end.
Proof.
  unfold reserve.
  destruct (items req) as [[|it its]|] eqn:Hi; [left; left; reflexivity| |left; left; reflexivity].
  destruct (order_id req) as [order|] eqn:Ho; cbn [Js.truthy_num negb];
    [|left; right; left; reflexivity].
  destruct (order =? 0) eqn:E; cbn [negb]; [left; right; left; reflexivity|].
  destruct (idempotencyKey_of req) as [key|] eqn:Hk; cbn [Js.truthy_str negb];
    [|left; right; right; reflexivity].
  destruct (key =? EmptyString)%string eqn:E'; cbn [negb];
    [left; right; right; reflexivity|].
  right. exists it, its, order, key.
  apply Z.eqb_neq in E. apply String.eqb_neq in E'. repeat split; assumption.
Qed.

(** The transaction runs to its commit with a 200 answer only. *)
Lemma reserve_transaction_normal now key order its db db' response :
  reserve_transaction now key order its db = Normal (db', response) ->
  exists st,
    for_of (reserve_item key order (now + RESERVATION_TTL_MINUTES * 60 * 1000)
              (allocateWarehouseStrategy db its)) its (mkLoop db [] [] false) = Normal st
    /\ reservations_of_key db key order = []
    /\ db' = conn st
    /\ response =
       mkResponse 200
         (reserve_body (if hasPartial st then PARTIAL else RESERVED) order false
            (Some (strategy (allocateWarehouseStrategy db its)))
            (if hasPartial st && (0 <? Z.of_nat (List.length (partialItems st)))
             then reservedItems st ++ partialItems st else reservedItems st)
            (now + RESERVATION_TTL_MINUTES * 60 * 1000)).
Proof.
  unfold reserve_transaction.
  destruct (reservations_of_key db key order) eqn:He; [|discriminate].
  destruct (for_of _ _ _) as [st|e|r] eqn:Hf; cbn; [|discriminate|discriminate].
  intros H. injection H as <- <-. exists st. repeat split.
Qed.

(** X1.  A reserve that is not answered 200 leaves the three tables as
    they were: validation failures, errors raised inside the transaction
    and duplicate-key answers all come without any write. *)
Theorem reserve_failure_writes_nothing (now : Z) (req : Request) (db : DB) :
  http_status (snd (reserve now req db)) <> 200 -> fst (reserve now req db) = db.
Proof.
  intros Hs.
  destruct (reserve_inversion now req db) as [[H|[H|H]]|(it & its & order & key & _ & _ & _ & _ & _ & H)];
    try (rewrite H; reflexivity).
  rewrite H in *.
  destruct (reserve_transaction now key order (it :: its) db) as [[db' r]|e|r] eqn:Ht;
    [|reflexivity|reflexivity].
  apply reserve_transaction_normal in Ht. destruct Ht as (st & _ & _ & _ & ->).
  cbn in Hs. contradiction.
Qed.

Lemma reserve_failure_writes_nothing_witness :
  http_status (snd (reserve 1000 collision_request collision_db)) <> 200
  /\ fst (reserve 1000 collision_request collision_db) = collision_db.
Proof.
  assert (H : http_status (snd (reserve 1000 collision_request collision_db)) <> 200)
    by (vm_compute; discriminate).
  split; [exact H|].
  apply (reserve_failure_writes_nothing 1000 collision_request collision_db H).
Defined.


(** A loop that runs to its end ran its body to the end on every
    element. *)
Lemma for_of_normal_each {A S : Type} (body : S -> A -> Ctl S) (l : list A) :
  forall s s', for_of body l s = Normal s' ->
  forall x, In x l -> exists s0 s1, body s0 x = Normal s1.
Proof.
  induction l as [|a l IH]; intros s s' H x Hin; [destruct Hin|].
  cbn in H. destruct (body s a) as [s1|e|r] eqn:Hb; cbn in H; try discriminate.
  destruct Hin as [<-|Hin]; [exists s, s1; exact Hb|].
  eapply IH; eassumption.
Qed.

Lemma reserve_item_normal_checks key order e alloc st item st' :
  reserve_item key order e alloc st item = Normal st' ->
  0 < qty item /\ product_id item <> 0.
Proof.
  unfold reserve_item.
  destruct ((qty item =? 0) || (qty item <=? 0)) eqn:Hq; [discriminate|].
  destruct (product_id item =? 0) eqn:Hp; [discriminate|].
  intros _. apply orb_false_elim in Hq. destruct Hq as [_ Hq].
  apply Z.leb_gt in Hq. apply Z.eqb_neq in Hp. split; assumption.
Qed.

(** X2.  A reserve request in which some item has a quantity of zero or
    less, or no product identifier, writes nothing, whatever the position
    of that item and whatever was reserved for the items before it; when
    the first item is the one with the bad quantity and the key is new,
    the answer is 400 with the quantity error. *)
Theorem reserve_bad_item_writes_nothing (now : Z) (req : Request) (db : DB)
    (its : list Item) (bad : Item) :
  items req = Some its -> In bad its ->
  qty bad <= 0 \/ product_id bad = 0 ->
  fst (reserve now req db) = db
  /\ (forall rest order key,
        its = bad :: rest -> qty bad <= 0 ->
        order_id req = Some order -> order <> 0 ->
        idempotencyKey_of req = Some key -> key <> EmptyString ->
        reservations_of_key db key order = [] ->
        snd (reserve now req db) = mkResponse 400 (error_body Invalid_qty order)).
Proof.
  intros Hi Hin Hbad. split.
  - destruct (reserve_inversion now req db)
      as [[H|[H|H]]|(it & its' & order & key & Hi' & _ & _ & _ & _ & H)];
      try (rewrite H; reflexivity).
    rewrite H. rewrite Hi in Hi'. injection Hi' as ->.
    destruct (reserve_transaction now key order (it :: its') db) as [[db' r]|e|r] eqn:Ht;
      [|reflexivity|reflexivity].
    exfalso. apply reserve_transaction_normal in Ht.
    destruct Ht as (st & Hf & _).
    destruct (for_of_normal_each _ _ _ _ Hf bad Hin) as (s0 & s1 & Hb).
    apply reserve_item_normal_checks in Hb. lia.
  - intros rest order key -> Hq Ho Ho0 Hk Hk0 He.
    unfold reserve. rewrite Hi, Ho, Hk. cbn [Js.truthy_num Js.truthy_str].
    destruct (order =? 0) eqn:E; [apply Z.eqb_eq in E; contradiction|].
    destruct (key =? EmptyString)%string eqn:E'; [apply String.eqb_eq in E'; contradiction|].
    cbn [negb]. unfold reserve_transaction. rewrite He.
    cbn [for_of]. unfold reserve_item at 1.
    replace ((qty bad =? 0) || (qty bad <=? 0)) with true.
    + reflexivity.
    + symmetry. apply orb_true_iff. right. apply Z.leb_le. exact Hq.
Qed.

Lemma reserve_bad_item_writes_nothing_witness :
  In (mkItem None 2 0) [mkItem None 1 2; mkItem None 2 0]
  /\ fst (reserve 1000 bad_qty_request happy_stock) = happy_stock.
Proof.
  assert (Hin : In (mkItem None 2 0) [mkItem None 1 2; mkItem None 2 0])
    by (right; left; reflexivity).
  assert (Hq : qty (mkItem None 2 0) <= 0) by (simpl; lia).
  split; [exact Hin|].
  apply (proj1 (reserve_bad_item_writes_nothing 1000 bad_qty_request happy_stock
                  [mkItem None 1 2; mkItem None 2 0] (mkItem None 2 0)
                  eq_refl Hin (or_introl Hq))).
Defined.

(** ** The frame of the reserve loop *)

Lemma loop_frame_refl now key order db : loop_frame now key order db db.
Proof.
  split; [apply reserved_grows_refl|].
  exists [], []. rewrite !app_nil_r. repeat split; constructor.
Qed.

Lemma try_warehouses_frame now key order db item :
  0 < qty item ->
  forall warehouses st, loop_frame now key order db (conn st) ->
  on_normal (fun r => loop_frame now key order db (conn (fst r)))
            (try_warehouses key order (now + 900000) item warehouses st).
Proof.
  intros Hq warehouses.
  induction warehouses as [|inv rest IH]; intros st Hst;
    cbn [try_warehouses]; [exact Hst|].
  destruct (qty item <=? on_hand inv - reserved inv); [|apply IH; exact Hst].
  pose proof (update_reserve_grows (conn st) (qty item) (inventory_id inv) ltac:(lia)) as Hg.
  destruct (update_reserve (conn st) (qty item) (inventory_id inv))
    as [db1 affectedRows] eqn:Hu.
  assert (Hr1 : reservations db1 = reservations (conn st))
    by (unfold update_reserve in Hu; injection Hu as <- _; reflexivity).
  assert (Hm1 : inventory_Movements db1 = inventory_Movements (conn st))
    by (unfold update_reserve in Hu; injection Hu as <- _; reflexivity).
  cbn [fst] in Hg.
  assert (Hf1 : loop_frame now key order db db1).
  { destruct Hst as (Hrows & new & entries & Hn & Hins & Hl & Hb).
    split; [eapply reserved_grows_trans; eassumption|].
    exists new, entries. rewrite Hr1, Hm1. repeat split; assumption. }
  destruct (affectedRows =? 0); [apply IH; exact Hf1|].
  destruct (unique_key_taken db1 key order (product_id item)).
  { unfold on_insert_error. destruct (0 <? _); exact I. }
  cbn [insert_reservation on_normal fst conn].
  destruct Hf1 as (Hrows & new & entries & Hn & Hins & Hl & Hb).
  split; [exact Hrows|].
  eexists (new ++ [_]), (entries ++ [_]).
  cbn [insert_movement with_reservations reservations inventory_Movements].
  rewrite Hn, Hl, <- !app_assoc. split; [reflexivity|].
  split.
  - apply Forall_app. split; [exact Hins|]. constructor; [|constructor].
    repeat split. exact Hq.
  - split; [reflexivity|].
    apply Forall2_app; [exact Hb|]. constructor; [|constructor]. repeat split.
Qed.

Lemma reserve_item_frame now key order db alloc st item :
  loop_frame now key order db (conn st) ->
  on_normal (fun st' => loop_frame now key order db (conn st'))
            (reserve_item key order (now + 900000) alloc st item).
Proof.
  intros Hst. unfold reserve_item.
  destruct ((qty item =? 0) || (qty item <=? 0)) eqn:Hq; [exact I|].
  apply orb_false_elim in Hq. destruct Hq as [_ Hq]. apply Z.leb_gt in Hq.
  destruct (product_id item =? 0); [exact I|].
  cbv zeta. destruct (candidate_warehouses alloc (conn st) item) as [|inv rest];
    [exact Hst|].
  destruct (existingProductReservation _ _ _ _); [|exact I].
  eapply InventoryInvariant.on_normal_bind.
  - apply try_warehouses_frame; [exact Hq | exact Hst].
  - intros [st1 reserved] H1. cbn in H1. destruct reserved; cbn; exact H1.
Qed.

Lemma reserve_frame_holds (now : Z) (req : Request) (db : DB) :
  let db' := fst (reserve now req db) in
  reserved_grows (inventory db) (inventory db')
  /\ exists new entries,
       reservations db' = reservations db ++ new
       /\ inventory_Movements db' = inventory_Movements db ++ entries
       /\ Forall2 booked_as new entries
       /\ Forall (fun r => res_status r = ACTIVE /\ 0 < res_quantity r
                           /\ res_expires_at r = now + 900000
                           /\ Some (res_order_id r) = order_id req
                           /\ Some (res_idempotency_key r) = idempotencyKey_of req)
                 new.
Proof.
  cbv zeta.
  assert (Hsame : fst (reserve now req db) = db ->
                  reserved_grows (inventory db) (inventory (fst (reserve now req db)))
                  /\ exists new entries,
                       reservations (fst (reserve now req db)) = reservations db ++ new
                       /\ inventory_Movements (fst (reserve now req db))
                          = inventory_Movements db ++ entries
                       /\ Forall2 booked_as new entries
                       /\ Forall (fun r => res_status r = ACTIVE /\ 0 < res_quantity r
                                           /\ res_expires_at r = now + 900000
                                           /\ Some (res_order_id r) = order_id req
                                           /\ Some (res_idempotency_key r)
                                              = idempotencyKey_of req) new).
  { intros ->. split; [apply reserved_grows_refl|].
    exists [], []. rewrite !app_nil_r. repeat split; constructor. }
  destruct (reserve_inversion now req db)
    as [[H|[H|H]]|(it & its & order & key & Hi & Ho & _ & Hk & _ & H)];
    try (apply Hsame; rewrite H; reflexivity).
  destruct (reserve_transaction now key order (it :: its) db) as [[db' r]|e|r] eqn:Ht;
    try (apply Hsame; rewrite H; reflexivity).
  rewrite H. cbn [fst].
  apply reserve_transaction_normal in Ht.
  destruct Ht as (st & Hf & _ & -> & _).
  pose proof (InventoryInvariant.on_normal_for_of
                (fun s => loop_frame now key order db (conn s))
                (reserve_item key order (now + RESERVATION_TTL_MINUTES * 60 * 1000)
                   (allocateWarehouseStrategy db (it :: its)))
                (fun s x Hs => reserve_item_frame now key order db _ s x Hs)
                (it :: its) (mkLoop db [] [] false)
                (loop_frame_refl now key order db)) as Hloop.
  rewrite Hf in Hloop. cbn [on_normal] in Hloop.
  destruct Hloop as (Hrows & new & entries & Hn & Hins & Hl & Hb).
  split; [exact Hrows|]. exists new, entries.
  repeat split; try assumption.
  eapply Forall_impl; [|exact Hins].
  intros x (A1 & A2 & A3 & A4 & A5). rewrite Ho, Hk, A2, A3. repeat split; assumption.
Qed.

(** X3.  Whatever the request and its answer, a reserve keeps every
    inventory row and its [on_hand], never lowers a [reserved] counter,
    keeps every existing reservation and ledger entry, and appends
    reservations and ledger entries in pairs: each new reservation is
    ACTIVE, carries the key and the order of the request, a positive
    quantity and an expiry 15 minutes (900000 ms) after the request, and
    has one RESERVE movement for its product, warehouse and quantity. *)
Theorem reserve_frame (now : Z) (req : Request) (db : DB) :
  let db' := fst (reserve now req db) in
  reserved_grows (inventory db) (inventory db')
  /\ exists new entries,
       reservations db' = reservations db ++ new
       /\ inventory_Movements db' = inventory_Movements db ++ entries
       /\ Forall2 booked_as new entries
       /\ Forall (fun r => res_status r = ACTIVE /\ 0 < res_quantity r
                           /\ res_expires_at r = now + 900000
                           /\ Some (res_order_id r) = order_id req
                           /\ Some (res_idempotency_key r) = idempotencyKey_of req)
                 new.
Proof. exact (reserve_frame_holds now req db). Qed.



(** ** RESERVED means every item *)

Lemma try_warehouses_entries key order e item :
  forall warehouses st st' b,
  try_warehouses key order e item warehouses st = Normal (st', b) ->
  (hasPartial st = true -> hasPartial st' = true)
  /\ (b = true -> exists entry, reservedItems st' = reservedItems st ++ [entry]
                               /\ answers item entry).
Proof.
  induction warehouses as [|inv rest IH]; intros st st' b; cbn [try_warehouses].
  - intros H. injection H as <- <-. split; [auto | discriminate].
  - destruct (qty item <=? on_hand inv - reserved inv).
    + destruct (update_reserve (conn st) (qty item) (inventory_id inv)) as [db1 n].
      destruct (n =? 0).
      * intros H. apply IH in H. exact H.
      * destruct (unique_key_taken db1 key order (product_id item)).
        { unfold on_insert_error. destruct (0 <? _); discriminate. }
        destruct (insert_reservation _ _ _ _ _ _ _ _) as [db2 rid].
        intros H. injection H as <- <-. cbn [hasPartial reservedItems].
        split; [auto|]. intros _. eexists. split; [reflexivity|]. split; reflexivity.
    + intros H. apply IH in H. cbn [hasPartial reservedItems] in H.
      destruct H as [H1 H2]. split; [intros _; apply H1; reflexivity | exact H2].
Qed.

Lemma reserve_item_entries key order e alloc st item st' :
  reserve_item key order e alloc st item = Normal st' ->
  hasPartial st' = false ->
  hasPartial st = false
  /\ exists entry, reservedItems st' = reservedItems st ++ [entry] /\ answers item entry.
Proof.
  unfold reserve_item.
  destruct ((qty item =? 0) || (qty item <=? 0)); [discriminate|].
  destruct (product_id item =? 0); [discriminate|].
  cbv zeta. destruct (candidate_warehouses alloc (conn st) item) as [|inv rest] eqn:Hc.
  - intros H. injection H as <-. cbn. discriminate.
  - destruct (existingProductReservation _ _ _ _); [|discriminate].
    destruct (try_warehouses key order e item (inv :: rest) st) as [[st1 b]|x|x] eqn:Ht;
      cbn [bind]; try discriminate.
    apply try_warehouses_entries in Ht. destruct Ht as [Hm He].
    destruct b; cbn [negb].
    + intros H. injection H as <-. intros Hp. split.
      * destruct (hasPartial st); [rewrite Hm in Hp by reflexivity; discriminate | reflexivity].
      * apply He. reflexivity.
    + intros H. injection H as <-. cbn. discriminate.
Qed.

Lemma for_of_complete key order e alloc :
  forall its taken st st',
  complete_so_far taken st ->
  for_of (reserve_item key order e alloc) its st = Normal st' ->
  complete_so_far (taken ++ its) st'.
Proof.
  induction its as [|it its IH]; intros taken st st' Hc; cbn [for_of].
  - intros H. injection H as <-. rewrite app_nil_r. exact Hc.
  - destruct (reserve_item key order e alloc st it) as [st1|x|x] eqn:Hi;
      cbn [bind]; try discriminate.
    intros Hf.
    replace (taken ++ it :: its) with ((taken ++ [it]) ++ its)
      by (rewrite <- app_assoc; reflexivity).
    eapply IH; [|exact Hf].
    intros Hp. destruct (reserve_item_entries _ _ _ _ _ _ _ Hi Hp) as (Hp0 & entry & Hr & Ha).
    rewrite Hr. apply Forall2_app; [apply Hc; exact Hp0|].
    constructor; [exact Ha | constructor].
Qed.

Lemma existing_response_replay order l : replay_or_duplicate (existing_response order l).
Proof.
  unfold existing_response, replay_or_duplicate.
  destruct (filter is_active l); cbn; auto.
Qed.

Lemma on_return_bind {A B : Type} (P : Response -> Prop) (c : Ctl A) (k : A -> Ctl B) :
  on_return P c -> (forall a, on_return P (k a)) -> on_return P (bind c k).
Proof. destruct c; cbn; auto. Qed.

Lemma on_return_for_of {A S : Type} (P : Response -> Prop) (body : S -> A -> Ctl S) :
  (forall s x, on_return P (body s x)) -> forall l s, on_return P (for_of body l s).
Proof.
  intros Hb l. induction l as [|x l IH]; intros s; cbn; [exact I|].
  apply on_return_bind; auto.
Qed.

Lemma try_warehouses_return key order e item :
  forall warehouses st,
  on_return replay_or_duplicate (try_warehouses key order e item warehouses st).
Proof.
  induction warehouses as [|inv rest IH]; intros st; cbn [try_warehouses]; [exact I|].
  destruct (qty item <=? on_hand inv - reserved inv); [|apply IH].
  destruct (update_reserve _ _ _) as [db1 n].
  destruct (n =? 0); [apply IH|].
  destruct (unique_key_taken _ _ _ _).
  - unfold on_insert_error. destruct (0 <? _); [apply existing_response_replay | exact I].
  - destruct (insert_reservation _ _ _ _ _ _ _ _). exact I.
Qed.

Lemma reserve_item_return key order e alloc st item :
  on_return replay_or_duplicate (reserve_item key order e alloc st item).
Proof.
  unfold reserve_item.
  destruct (_ || _); [exact I|]. destruct (product_id item =? 0); [exact I|].
  cbv zeta. destruct (candidate_warehouses _ _ _); [exact I|].
  destruct (existingProductReservation _ _ _ _); [|exact I].
  apply on_return_bind; [apply try_warehouses_return|].
  intros [st1 b]. destruct b; exact I.
Qed.

(** Every answer of a valid request that does not come from the commit
    is a replay, a duplicate-key error or a 400. *)
Lemma reserve_not_fresh now key order its db :
  match reserve_transaction now key order its db with
  | Normal _ => True
  | Throw err => replay_or_duplicate (reserve_catch db key order err)
                 \/ exists e, reserve_catch db key order err = mkResponse 400 (error_body e order)
  | Return r => replay_or_duplicate r
  end.
Proof.
  unfold reserve_transaction.
  destruct (reservations_of_key db key order) eqn:He.
  - pose proof (on_return_for_of replay_or_duplicate
                  (reserve_item key order (now + RESERVATION_TTL_MINUTES * 60 * 1000)
                     (allocateWarehouseStrategy db its))
                  (reserve_item_return key order _ _) its (mkLoop db [] [] false)) as Hr.
    destruct (for_of _ _ _) as [st|err|r]; cbn [bind]; [exact I| |exact Hr].
    unfold reserve_catch. destruct (is_ER_DUP_ENTRY err).
    + left. rewrite He. exact I.
    + right. eexists. reflexivity.
  - apply existing_response_replay.
Qed.

(** X4.  A reserve answered RESERVED without the idempotent flag has
    reserved every requested item: its entries answer the items of the
    request one for one and in order, each with the product and the full
    quantity asked for, and the hold expires 15 minutes after the
    request. *)
Theorem reserved_answer_covers_every_item (now : Z) (req : Request) (db : DB)
    (its : list Item) (code order expires : Z) (strat : option Strategy)
    (entries : list RespItem) :
  items req = Some its ->
  snd (reserve now req db)
  = mkResponse code (reserve_body RESERVED order false strat entries expires) ->
  Forall2 answers its entries
  /\ code = 200 /\ expires = now + 900000 /\ order_id req = Some order.
Proof.
  intros Hi Hresp.
  destruct (reserve_inversion now req db)
    as [[H|[H|H]]|(it & its' & order' & key & Hi' & Ho & _ & Hk & _ & H)];
    try (rewrite H in Hresp; discriminate Hresp).
  rewrite H in Hresp. rewrite Hi in Hi'. injection Hi' as ->.
  pose proof (reserve_not_fresh now key order' (it :: its') db) as Hnf.
  destruct (reserve_transaction now key order' (it :: its') db) as [[db' r]|e|r] eqn:Ht;
    cbn [snd] in Hresp.
  - apply reserve_transaction_normal in Ht. destruct Ht as (st & Hf & _ & _ & ->).
    injection Hresp as <- Hs <- Hstrat Hent <-.
    destruct (hasPartial st) eqn:Hp; [discriminate Hs|]. cbn [andb] in Hent. subst entries.
    pose proof (for_of_complete key order' _ _ (it :: its') [] (mkLoop db [] [] false) st
                  (fun _ => Forall2_nil _) Hf Hp) as Hc.
    repeat split; [exact Hc | exact Ho].
  - destruct Hnf as [Hnf|[e' Hnf]]; rewrite Hresp in Hnf; [cbn in Hnf|]; discriminate.
  - rewrite Hresp in Hnf. cbn in Hnf. discriminate.
Qed.

Lemma reserved_answer_covers_every_item_witness :
  snd (reserve 1000 happy_request happy_stock)
  = mkResponse 200
      (reserve_body RESERVED 42 false (Some SINGLE_WAREHOUSE)
         [reserved_item None 1 "WH1" 2 (Some 2) 1; reserved_item None 2 "WH1" 1 (Some 1) 2]
         901000)
  /\ Forall2 answers [mkItem None 1 2; mkItem None 2 1]
             [reserved_item None 1 "WH1" 2 (Some 2) 1; reserved_item None 2 "WH1" 1 (Some 1) 2].
Proof.
  assert (H : snd (reserve 1000 happy_request happy_stock)
              = mkResponse 200
                  (reserve_body RESERVED 42 false (Some SINGLE_WAREHOUSE)
                     [reserved_item None 1 "WH1" 2 (Some 2) 1;
                      reserved_item None 2 "WH1" 1 (Some 1) 2] 901000))
    by (vm_compute; reflexivity).
  split; [exact H|].
  apply (proj1 (reserved_answer_covers_every_item 1000 happy_request happy_stock
                  [mkItem None 1 2; mkItem None 2 1] 200 42 901000 _ _ eq_refl H)).
Defined.


(** ** No warehouse holds the full quantity *)

Lemma In_insert_desc r x l : In x (insert_desc r l) -> x = r \/ In x l.
Proof.
  induction l as [|a l IH]; cbn [insert_desc].
  - intros [<-|[]]. left. reflexivity.
  - destruct (available a <=? available r).
    + intros [<-|H]; [left; reflexivity | right; exact H].
    + intros [<-|H]; [right; left; reflexivity|].
      destruct (IH H) as [->|H']; [left; reflexivity | right; right; exact H'].
Qed.

Lemma In_order_by_available_desc x l : In x (order_by_available_desc l) -> In x l.
Proof.
  unfold order_by_available_desc.
  induction l as [|a l IH]; cbn [fold_right]; [auto|].
  intros H. apply In_insert_desc in H. destruct H as [->|H]; [left; reflexivity|].
  right. apply IH. exact H.
Qed.

(** The rows tried for an item are rows of the table for its product. *)
Lemma candidate_warehouses_rows alloc db item row :
  In row (candidate_warehouses alloc db item) ->
  In row (inventory db) /\ inv_product_id row = product_id item.
Proof.
  assert (Hf : In row (findAvailableWarehouses db (product_id item) (qty item)) ->
               In row (inventory db) /\ inv_product_id row = product_id item).
  { unfold findAvailableWarehouses. intros H.
    apply In_order_by_available_desc, filter_In in H. destruct H as [H1 H2].
    apply andb_prop in H2. destruct H2 as [H2 _]. apply Z.eqb_eq in H2. split; assumption. }
  unfold candidate_warehouses.
  destruct (strategy alloc); [|exact Hf].
  destruct (alloc_warehouse alloc) as [w|]; [|exact Hf].
  destruct (Js.truthy_str (Some w)); [|exact Hf].
  unfold select_in_warehouse. intros H. apply filter_In in H. destruct H as [H1 H2].
  apply andb_prop in H2. destruct H2 as [H2 _]. apply andb_prop in H2. destruct H2 as [H2 _].
  apply Z.eqb_eq in H2. split; assumption.
Qed.

Lemma try_warehouses_short key order e item :
  forall warehouses st,
  Forall (fun row => on_hand row - reserved row < qty item) warehouses ->
  exists partials,
    try_warehouses key order e item warehouses st
    = Normal (mkLoop (conn st) (reservedItems st) (partialItems st ++ partials)
                (match warehouses with [] => hasPartial st | _ => true end), false)
    /\ Forall (reports_shortfall [item]) partials.
Proof.
  induction warehouses as [|inv rest IH]; intros st Hall; cbn [try_warehouses].
  - exists []. rewrite app_nil_r. destruct st. split; [reflexivity | constructor].
  - inversion Hall as [|? ? Hinv Hrest]; subst.
    destruct (qty item <=? on_hand inv - reserved inv) eqn:E; [apply Z.leb_le in E; lia|].
    destruct (IH (mkLoop (conn st) (reservedItems st)
                    (partialItems st ++
                       [partial_item (Js.or_null (sku item)) (product_id item)
                          (Some (inv_warehouse inv)) (qty item)
                          (on_hand inv - reserved inv)]) true) Hrest)
      as (partials & Heq & Hp).
    eexists (_ :: partials). rewrite Heq. cbn [conn reservedItems partialItems hasPartial].
    rewrite <- app_assoc. split.
    + destruct rest; reflexivity.
    + constructor; [|exact Hp]. exists item. repeat split; [left; reflexivity | exact Hinv].
Qed.

Lemma existingProductReservation_none db key order product :
  reservations_of_key db key order = [] ->
  existingProductReservation db key order product = [].
Proof.
  unfold reservations_of_key, existingProductReservation. intros H.
  induction (reservations db) as [|r l IH]; [reflexivity|].
  cbn [filter] in *.
  destruct ((res_idempotency_key r =? key)%string && (res_order_id r =? order));
    [discriminate|].
  cbn [andb]. apply IH. exact H.
Qed.

Lemma reserve_item_short key order e alloc db reservedSoFar partials flag item :
  reservations_of_key db key order = [] ->
  nowhere_in_full db item ->
  exists more,
    reserve_item key order e alloc (mkLoop db reservedSoFar partials flag) item
    = Normal (mkLoop db reservedSoFar (partials ++ more) true)
    /\ more <> [] /\ Forall (reports_shortfall [item]) more.
Proof.
  intros Hnone (Hq & Hp & Hrows). unfold reserve_item.
  destruct (qty item =? 0) eqn:E1; [apply Z.eqb_eq in E1; lia|].
  destruct (qty item <=? 0) eqn:E2; [apply Z.leb_le in E2; lia|].
  destruct (product_id item =? 0) eqn:E3; [apply Z.eqb_eq in E3; contradiction|].
  cbn [orb conn reservedItems partialItems hasPartial]. cbv zeta.
  destruct (candidate_warehouses alloc db item) as [|inv rest] eqn:Hc.
  - eexists. split; [reflexivity|]. split; [discriminate|].
    constructor; [|constructor]. exists item. repeat split; [left; reflexivity | exact Hq].
  - rewrite (existingProductReservation_none db key order _ Hnone).
    assert (Hall : Forall (fun row => on_hand row - reserved row < qty item) (inv :: rest)).
    { apply Forall_forall. intros row Hin. rewrite <- Hc in Hin.
      apply candidate_warehouses_rows in Hin. destruct Hin as [H1 H2].
      apply Hrows; assumption. }
    destruct (try_warehouses_short key order e item (inv :: rest)
                (mkLoop db reservedSoFar partials flag) Hall) as (more & Heq & Hm).
    rewrite Heq. cbn [bind negb conn reservedItems partialItems].
    exists more. split; [reflexivity|]. split; [|exact Hm].
    intros ->. cbn [try_warehouses] in Heq.
    inversion Hall as [|? ? Hinv _]; subst.
    destruct (qty item <=? on_hand inv - reserved inv) eqn:E; [apply Z.leb_le in E; lia|].
    destruct (try_warehouses_short key order e item rest
                (mkLoop db reservedSoFar
                   (partials ++
                      [partial_item (Js.or_null (sku item)) (product_id item)
                         (Some (inv_warehouse inv)) (qty item)
                         (on_hand inv - reserved inv)]) true)) as (more' & Heq' & _).
    { inversion Hall; assumption. }
    cbn [conn reservedItems partialItems hasPartial] in Heq, Heq'.
    rewrite Heq' in Heq. injection Heq as Heq.
    rewrite app_nil_r, <- app_assoc in Heq.
    apply (f_equal (@List.length RespItem)) in Heq.
    rewrite !length_app in Heq. cbn in Heq. lia.
Qed.

Lemma reports_shortfall_weaken item its e :
  In item its -> reports_shortfall [item] e -> reports_shortfall its e.
Proof.
  intros Hin. destruct e; cbn; [auto|].
  intros (x & [Hx|[]] & H). exists x. subst x. split; assumption.
Qed.

Lemma for_of_short key order e alloc db :
  reservations_of_key db key order = [] ->
  forall its partials flag,
  Forall (nowhere_in_full db) its ->
  exists more,
    for_of (reserve_item key order e alloc) its (mkLoop db [] partials flag)
    = Normal (mkLoop db [] (partials ++ more)
                (match its with [] => flag | _ => true end))
    /\ (its <> [] -> more <> [])
    /\ Forall (reports_shortfall its) more.
Proof.
  intros Hnone its. induction its as [|it its IH]; intros partials flag Hall; cbn [for_of].
  - exists []. rewrite app_nil_r. split; [reflexivity|]. split; [congruence | constructor].
  - inversion Hall as [|? ? Hit Hrest]; subst.
    destruct (reserve_item_short key order e alloc db [] partials flag it Hnone Hit)
      as (more1 & Heq1 & Hne1 & Hm1).
    rewrite Heq1. cbn [bind].
    destruct (IH (partials ++ more1) true Hrest) as (more2 & Heq2 & _ & Hm2).
    rewrite Heq2. exists (more1 ++ more2). rewrite app_assoc. split.
    + destruct its; reflexivity.
    + split.
      * intros _ H. apply app_eq_nil in H. destruct H. contradiction.
      * apply Forall_app. split.
        -- eapply Forall_impl; [|exact Hm1]. intros x.
           apply reports_shortfall_weaken. left. reflexivity.
        -- eapply Forall_impl; [|exact Hm2]. intros x. destruct x; cbn; [auto|].
           intros (y & Hy & H). exists y. split; [right; exact Hy | exact H].
Qed.

(** X5.  When no inventory row can take any requested item in full, a
    reserve with a new key is answered 200 PARTIAL, writes nothing to the
    three tables, reserves nothing, and reports for every entry a
    requested item with less available than asked for. *)
Theorem reserve_nothing_fits_is_partial (now : Z) (req : Request) (db : DB)
    (its : list Item) (order : Z) (key : string) :
  items req = Some its -> its <> [] ->
  order_id req = Some order -> order <> 0 ->
  idempotencyKey_of req = Some key -> key <> EmptyString ->
  reservations_of_key db key order = [] ->
  Forall (nowhere_in_full db) its ->
  fst (reserve now req db) = db
  /\ exists strat entries,
       snd (reserve now req db)
       = mkResponse 200 (reserve_body PARTIAL order false strat entries (now + 900000))
       /\ entries <> []
       /\ Forall (reports_shortfall its) entries.
Proof.
  intros Hi Hne Ho Ho0 Hk Hk0 Hnone Hall.
  destruct its as [|it its']; [contradiction|].
  rewrite (InventoryFacts.reserve_valid now req db it its' order key Hi Ho Ho0 Hk Hk0).
  unfold reserve_transaction. rewrite Hnone.
  destruct (for_of_short key order (now + RESERVATION_TTL_MINUTES * 60 * 1000)
              (allocateWarehouseStrategy db (it :: its')) db Hnone (it :: its') [] false Hall)
    as (more & Heq & Hne' & Hm).
  rewrite Heq. cbn [bind fst snd conn hasPartial partialItems reservedItems app].
  split; [reflexivity|].
  assert (Hmore : more <> []) by (apply Hne'; discriminate).
  destruct more as [|m more']; [contradiction|].
  do 2 eexists. split; [reflexivity|]. split; [discriminate | exact Hm].
Qed.

Lemma reserve_nothing_fits_is_partial_witness :
  Forall (nowhere_in_full split_db) [mkItem None 1 4]
  /\ fst (reserve 1000 split_request split_db) = split_db
  /\ http_status (snd (reserve 1000 split_request split_db)) = 200.
Proof.
  assert (Hall : Forall (nowhere_in_full split_db) [mkItem None 1 4]).
  { constructor; [|constructor]. split; [simpl; lia|]. split; [simpl; lia|].
    intros row [<-|[<-|[]]] _; simpl; lia. }
  assert (Hnone : reservations_of_key split_db "k5" 50 = []) by reflexivity.
  destruct (reserve_nothing_fits_is_partial 1000 split_request split_db
              [mkItem None 1 4] 50 "k5" eq_refl ltac:(discriminate) eq_refl ltac:(lia)
              eq_refl ltac:(discriminate) Hnone Hall)
    as (H1 & strat & entries & H2 & _).
  split; [exact Hall|]. split; [exact H1|]. rewrite H2. reflexivity.
Defined.

End ReserveFacts.

(* ===================================================================== *)
(** * Inventory engine: the allocation strategy *)
(* ===================================================================== *)

Module EngineFacts.
Import Inventory InventoryProps.

(** ** The single-warehouse strategy *)

Lemma map_get_In {K V : Type} (eqb : K -> K -> bool) (m : list (K * V)) k v :
  Js.map_get eqb m k = Some v -> exists k', In (k', v) m /\ eqb k' k = true.
Proof.
  induction m as [|[k0 v0] m IH]; cbn; [discriminate|].
  destruct (eqb k0 k) eqn:E.
  - intros H. injection H as <-. exists k0. split; [left; reflexivity | exact E].
  - intros H. destruct (IH H) as (k' & Hin & Hk). exists k'. split; [right|]; assumption.
Qed.

Lemma map_set_Forall {K V : Type} (eqb : K -> K -> bool) (P : K * V -> Prop)
    (m : list (K * V)) k v :
  Forall P m -> P (k, v) -> Forall P (Js.map_set eqb m k v).
Proof.
  intros Hm Hkv. induction Hm as [|[k0 v0] m H0 Hrest IH]; cbn.
  - constructor; [exact Hkv | constructor].
  - destruct (eqb k0 k); constructor; assumption.
Qed.

Lemma warehouseMap_add_sound db p m wh :
  warehouseMap_sound db m ->
  In wh (inventory db) -> inv_product_id wh = p -> 0 < on_hand wh - reserved wh ->
  warehouseMap_sound db (warehouseMap_add p m wh).
Proof.
  intros Hm Hin Hp Hav. unfold warehouseMap_add.
  set (m1 := match Js.map_get String.eqb m (inv_warehouse wh) with
             | Some _ => m
             | None => Js.map_set String.eqb m (inv_warehouse wh) []
             end).
  assert (Hm1 : warehouseMap_sound db m1).
  { unfold m1. destruct (Js.map_get String.eqb m (inv_warehouse wh)); [exact Hm|].
    apply map_set_Forall; [exact Hm | constructor]. }
  destruct (Js.map_get String.eqb m1 (inv_warehouse wh)) as [pm|] eqn:Hg; [|exact Hm1].
  apply map_set_Forall; [exact Hm1|]. cbn [fst snd].
  destruct (map_get_In _ _ _ _ Hg) as (w' & Hw' & Heq). apply String.eqb_eq in Heq. subst w'.
  unfold warehouseMap_sound in Hm1. rewrite Forall_forall in Hm1.
  specialize (Hm1 _ Hw'). cbn [fst snd] in Hm1.
  apply map_set_Forall; [exact Hm1|]. cbn [fst snd]. repeat split; assumption.
Qed.

Lemma findAvailableWarehouses_rows db p q row :
  In row (findAvailableWarehouses db p q) ->
  In row (inventory db) /\ inv_product_id row = p /\ 0 < on_hand row - reserved row.
Proof.
  unfold findAvailableWarehouses. intros H.
  apply ReserveFacts.In_order_by_available_desc, filter_In in H. destruct H as [H1 H2].
  apply andb_prop in H2. destruct H2 as [H2 H3].
  apply Z.eqb_eq in H2. apply Z.ltb_lt in H3. repeat split; assumption.
Qed.

Lemma fold_warehouseMap_add_sound db p rows : forall m,
  warehouseMap_sound db m ->
  (forall row, In row rows ->
     In row (inventory db) /\ inv_product_id row = p /\ 0 < on_hand row - reserved row) ->
  warehouseMap_sound db (fold_left (warehouseMap_add p) rows m).
Proof.
  induction rows as [|r rows IH]; intros m Hm Hrows; cbn [fold_left]; [exact Hm|].
  apply IH.
  - destruct (Hrows r (or_introl eq_refl)) as (H1 & H2 & H3).
    apply warehouseMap_add_sound; assumption.
  - intros row Hin. apply Hrows. right. exact Hin.
Qed.

Lemma warehouseMap_build_sound db ids : forall m,
  warehouseMap_sound db m ->
  warehouseMap_sound db
    (fold_left (fun m productId =>
                  fold_left (warehouseMap_add productId)
                            (findAvailableWarehouses db productId 0) m) ids m).
Proof.
  induction ids as [|p ids IH]; intros m Hm; cbn [fold_left]; [exact Hm|].
  apply IH. apply fold_warehouseMap_add_sound; [exact Hm|].
  intros row. apply findAvailableWarehouses_rows.
Qed.

(** X6.  The single-warehouse strategy is chosen only for a warehouse
    that can take each item of the request: for every item the warehouse
    has a row of that product whose available stock (on_hand - reserved)
    is positive and at least the quantity of the item. *)
Theorem single_warehouse_can_take_each_item (db : DB) (its : list Item) (w : string) :
  allocateWarehouseStrategy db its = mkAllocation SINGLE_WAREHOUSE (Some w) ->
  can_take_each db w its.
Proof.
  unfold allocateWarehouseStrategy.
  destruct (findSingleWarehouseForOrder db its) as [w'|] eqn:Hf; cbn [Js.truthy_str];
    [|discriminate].
  destruct (negb (w' =? EmptyString)%string); [|discriminate].
  intros H. injection H as ->.
  unfold findSingleWarehouseForOrder in Hf. cbv zeta in Hf.
  match type of Hf with
  | match find ?f ?m with _ => _ end = _ =>
      pose proof (warehouseMap_build_sound db (Js.uniq Z.eqb (map product_id its)) []
                    (Forall_nil _)) as Hsound;
      destruct (find f m) as [[w0 pm]|] eqn:Hfind; [|discriminate]
  end.
  injection Hf as ->.
  apply find_some in Hfind. destruct Hfind as [Hin Hcan]. cbn [snd] in Hcan.
  unfold warehouseMap_sound in Hsound. rewrite Forall_forall in Hsound.
  specialize (Hsound _ Hin). cbn [fst snd] in Hsound. rewrite Forall_forall in Hsound.
  unfold can_take_each. apply Forall_forall. intros item Hitem.
  rewrite forallb_forall in Hcan. specialize (Hcan item Hitem).
  destruct (Js.map_get Z.eqb pm (product_id item)) as [inv|] eqn:Hg; [|discriminate].
  destruct (map_get_In _ _ _ _ Hg) as (p' & Hp' & Heq). apply Z.eqb_eq in Heq. subst p'.
  destruct (Hsound _ Hp') as (H1 & H2 & H3 & H4). cbn [fst snd] in *.
  exists inv. apply negb_true_iff, Z.ltb_ge in Hcan. repeat split; assumption.
Qed.

Lemma single_warehouse_can_take_each_item_witness :
  allocateWarehouseStrategy happy_stock [mkItem None 1 2; mkItem None 2 1]
  = mkAllocation SINGLE_WAREHOUSE (Some "WH1"%string)
  /\ can_take_each happy_stock "WH1" [mkItem None 1 2; mkItem None 2 1].
Proof.
  split; [reflexivity|].
  apply (single_warehouse_can_take_each_item happy_stock
           [mkItem None 1 2; mkItem None 2 1] "WH1" eq_refl).
Defined.

End EngineFacts.

(* ===================================================================== *)
(** * Inventory engine: reaper, confirm, release, ship *)
(* ===================================================================== *)

Module OperationFacts.
Import Inventory InventoryProps.

Lemma map_same {A : Type} (f : A -> A) (l : list A) :
  (forall x, In x l -> f x = x) -> map f l = l.
Proof.
  induction l as [|a l IH]; intros H; cbn [map]; [reflexivity|].
  rewrite H by (left; reflexivity). rewrite IH; [reflexivity|].
  intros x Hx. apply H. right. exact Hx.
Qed.

Lemma filter_none {A : Type} (f : A -> bool) (l : list A) :
  (forall x, In x l -> f x = false) -> filter f l = [].
Proof.
  induction l as [|a l IH]; intros H; cbn [filter]; [reflexivity|].
  rewrite H by (left; reflexivity). apply IH. intros x Hx. apply H. right. exact Hx.
Qed.

Lemma DB_eta (db : DB) : mkDB (inventory db) (reservations db) (inventory_Movements db) = db.
Proof. destruct db. reflexivity. Qed.

Lemma same_hold_refl r : same_hold r r.
Proof. repeat split. Qed.

Lemma same_hold_set_status r s : same_hold r (set_status r s).
Proof. repeat split. Qed.

(** ** The reaper *)

Lemma fold_reap_reservations l : forall db,
  reservations (fold_left reap_one l db) = reservations db.
Proof.
  induction l as [|r l IH]; intros db; cbn [fold_left]; [reflexivity|].
  rewrite IH. reflexivity.
Qed.

Lemma fold_reap_movements l : forall db,
  inventory_Movements (fold_left reap_one l db)
  = inventory_Movements db ++ map expiry_movement l.
Proof.
  induction l as [|r l IH]; intros db; cbn [fold_left map].
  - symmetry. apply app_nil_r.
  - rewrite IH. unfold reap_one, expiry_movement.
    cbn [insert_movement inventory_Movements update_release with_inventory].
    rewrite <- app_assoc. reflexivity.
Qed.

Lemma reaper_reservations now db :
  reservations (fst (reaper now db))
  = map (fun r => if existsb (Z.eqb (reservation_id r))
                            (map reservation_id (filter (overdue now) (reservations db)))
                  then set_status r EXPIRED else r)
        (reservations db).
Proof.
  unfold reaper. fold (overdue now).
  destruct (filter (overdue now) (reservations db)) as [|e rest] eqn:He.
  - cbn [fst map existsb]. symmetry. apply map_same. reflexivity.
  - cbn [fst]. rewrite fold_reap_reservations. reflexivity.
Qed.

Lemma existsb_own_id now rs r :
  In r rs -> overdue now r = true ->
  existsb (Z.eqb (reservation_id r)) (map reservation_id (filter (overdue now) rs)) = true.
Proof.
  intros Hin Ho. apply existsb_exists. exists (reservation_id r). split.
  - apply in_map, filter_In. split; assumption.
  - apply Z.eqb_refl.
Qed.

Lemma reaper_leaves_none_overdue now db :
  forall r, In r (reservations (fst (reaper now db))) -> overdue now r = false.
Proof.
  intros r. rewrite reaper_reservations. intros Hin.
  apply in_map_iff in Hin. destruct Hin as (r0 & Heq & Hin0).
  destruct (existsb _ _) eqn:Hex in Heq.
  - subst r. reflexivity.
  - subst r0. destruct (overdue now r) eqn:Ho; [|reflexivity].
    rewrite (existsb_own_id now _ r Hin0 Ho) in Hex. discriminate.
Qed.

(** X7.  After the reaper has run at time [now], no ACTIVE reservation is
    past its expiry, and the reaper run again at that time or earlier
    finds nothing: it answers expired_count 0 and writes nothing. *)
Theorem reaper_again_is_a_no_op (now earlier : Z) (db : DB) :
  earlier <= now ->
  let db1 := fst (reaper now db) in
  Forall (fun r => res_status r = ACTIVE -> now <= res_expires_at r) (reservations db1)
  /\ reaper earlier db1 = (db1, mkResponse 200 (processed_body 0 [])).
Proof.
  intros Hle db1. split.
  - apply Forall_forall. intros r Hin Hact.
    pose proof (reaper_leaves_none_overdue now db r Hin) as Ho.
    unfold overdue, is_active in Ho. rewrite Hact in Ho. cbn in Ho.
    apply Z.ltb_ge in Ho. exact Ho.
  - unfold reaper at 1. fold (overdue earlier).
    rewrite (filter_none (overdue earlier) (reservations db1)); [reflexivity|].
    intros r Hin. pose proof (reaper_leaves_none_overdue now db r Hin) as Ho.
    unfold overdue in *. destruct (is_active r); [|reflexivity]. cbn in *.
    apply Z.ltb_ge in Ho. apply Z.ltb_ge. lia.
Qed.

Lemma reaper_again_is_a_no_op_witness :
  2000000 <= 2000000
  /\ reaper 2000000 (fst (reaper 2000000 overdue_db))
     = (fst (reaper 2000000 overdue_db), mkResponse 200 (processed_body 0 [])).
Proof.
  assert (H : 2000000 <= 2000000) by lia.
  split; [exact H|].
  apply (proj2 (reaper_again_is_a_no_op 2000000 2000000 overdue_db H)).
Defined.

Lemma NoDup_map_eq {A B : Type} (f : A -> B) (l : list A) x y :
  NoDup (map f l) -> In x l -> In y l -> f x = f y -> x = y.
Proof.
  induction l as [|a l IH]; intros Hnd Hx Hy Hf; [destruct Hx|].
  cbn [map] in Hnd. inversion Hnd as [|? ? Hnotin Hnd']; subst.
  destruct Hx as [<-|Hx]; destruct Hy as [<-|Hy]; [reflexivity| | |auto].
  - exfalso. apply Hnotin. rewrite Hf. apply in_map. exact Hy.
  - exfalso. apply Hnotin. rewrite <- Hf. apply in_map. exact Hx.
Qed.

(** X8.  With reservation identifiers unique, as the primary key makes
    them, the reaper at time [now] sets to EXPIRED exactly the
    reservations that are ACTIVE with an expiry before [now] and leaves
    every other reservation as it is, CONFIRMED ones included; it appends
    one RELEASE movement per expired reservation, for its product,
    warehouse, quantity and order, and reports their number. *)
Theorem reaper_expires_exactly_the_overdue (now : Z) (db : DB) :
  NoDup (map reservation_id (reservations db)) ->
  let expired := filter (overdue now) (reservations db) in
  reservations (fst (reaper now db))
  = map (fun r => if overdue now r then set_status r EXPIRED else r) (reservations db)
  /\ inventory_Movements (fst (reaper now db))
     = inventory_Movements db ++ map expiry_movement expired
  /\ snd (reaper now db)
     = mkResponse 200 (processed_body (Z.of_nat (List.length expired))
                         (map reservation_id expired)).
Proof.
  intros Hnd expired. split; [|split].
  - rewrite reaper_reservations. apply map_ext_in. intros r Hin.
    destruct (overdue now r) eqn:Ho.
    + rewrite (existsb_own_id now _ r Hin Ho). reflexivity.
    + destruct (existsb _ _) eqn:Hex; [|reflexivity].
      apply existsb_exists in Hex. destruct Hex as (i & Hi & Heq).
      apply Z.eqb_eq in Heq. subst i.
      apply in_map_iff in Hi. destruct Hi as (r' & Hid & Hr').
      apply filter_In in Hr'. destruct Hr' as [Hr' Ho'].
      assert (r' = r) by (eapply NoDup_map_eq; eauto). subst r'.
      rewrite Ho in Ho'. discriminate.
  - unfold reaper. fold (overdue now). fold expired.
    destruct expired as [|e rest] eqn:He; cbn [fst].
    + cbn. symmetry. apply app_nil_r.
    + rewrite fold_reap_movements. reflexivity.
  - unfold reaper. fold (overdue now). fold expired.
    destruct expired as [|e rest] eqn:He; reflexivity.
Qed.

Lemma reaper_expires_exactly_the_overdue_witness :
  NoDup (map reservation_id (reservations overdue_db))
  /\ map res_status (reservations (fst (reaper 2000000 overdue_db))) = [EXPIRED; CONFIRMED].
Proof.
  assert (Hnd : NoDup (map reservation_id (reservations overdue_db))).
  { simpl. constructor; [intros [H|[]]; discriminate H|].
    constructor; [intros []|constructor]. }
  split; [exact Hnd|].
  rewrite (proj1 (reaper_expires_exactly_the_overdue 2000000 overdue_db Hnd)).
  reflexivity.
Defined.


(** ** Confirm *)

Lemma confirm_eq order ids db :
  order <> 0 ->
  confirm (Some order) ids db
  = (with_reservations db
       (map (fun r => if confirm_selects order ids r then set_status r CONFIRMED else r)
            (reservations db)),
     mkResponse 200
       (confirmed_body order
          (Z.of_nat (List.length (filter (confirm_selects order ids) (reservations db)))))).
Proof.
  intros Ho. unfold confirm. cbn [Js.truthy_num].
  destruct (order =? 0) eqn:E; [apply Z.eqb_eq in E; contradiction|]. cbn [negb].
  destruct ids as [[|i ids]|]; reflexivity.
Qed.

Lemma confirm_selects_active order ids r :
  confirm_selects order ids r = true -> is_active r = true.
Proof.
  unfold confirm_selects. destruct ids as [[|i ids]|]; intros H;
    apply andb_prop in H; destruct H as [_ H]; exact H.
Qed.

Lemma confirm_selects_after order ids r :
  confirm_selects order ids
    (if confirm_selects order ids r then set_status r CONFIRMED else r) = false.
Proof.
  destruct (confirm_selects order ids r) eqn:Hs; [|exact Hs].
  unfold confirm_selects, is_active. cbn [set_status res_status ResStatus_eqb].
  destruct ids as [[|i ids]|]; rewrite ?andb_false_r; reflexivity.
Qed.

(** X9.  Confirm touches neither the inventory rows nor the ledger and
    deletes no reservation; confirming the same order again, with the
    same reservation list if one was given, changes nothing and reports 0
    confirmed reservations. *)
Theorem confirm_again_is_a_no_op (order : Z) (ids : option (list Z)) (db : DB) :
  order <> 0 ->
  let db1 := fst (confirm (Some order) ids db) in
  inventory db1 = inventory db
  /\ inventory_Movements db1 = inventory_Movements db
  /\ Forall2 same_hold (reservations db) (reservations db1)
  /\ confirm (Some order) ids db1 = (db1, mkResponse 200 (confirmed_body order 0)).
Proof.
  intros Ho db1. unfold db1. rewrite (confirm_eq order ids db Ho). cbn [fst].
  split; [reflexivity|]. split; [reflexivity|]. split.
  - cbn [reservations with_reservations].
    induction (reservations db) as [|r l IH]; cbn [map]; constructor; [|exact IH].
    destruct (confirm_selects order ids r); [apply same_hold_set_status | apply same_hold_refl].
  - rewrite confirm_eq by exact Ho. cbn [reservations with_reservations inventory
                                          inventory_Movements].
    rewrite map_map.
    rewrite (filter_none (confirm_selects order ids)).
    + f_equal. unfold with_reservations. cbn. f_equal.
      apply map_ext. intros r. rewrite confirm_selects_after. reflexivity.
    + intros x Hx. apply in_map_iff in Hx. destruct Hx as (r & <- & _).
      apply confirm_selects_after.
Qed.

Lemma confirm_again_is_a_no_op_witness :
  42 <> 0
  /\ confirm (Some 42) None (fst (confirm (Some 42) None held_db))
     = (fst (confirm (Some 42) None held_db), mkResponse 200 (confirmed_body 42 0)).
Proof.
  assert (H : 42 <> 0) by lia.
  split; [exact H|].
  apply (proj2 (proj2 (proj2 (confirm_again_is_a_no_op 42 None held_db H)))).
Defined.

(** ** Release *)

Lemma release_eq order db :
  order <> 0 ->
  release (Some order) db
  = (fold_left (release_one order)
       (filter (fun r => (res_order_id r =? order) && ResStatus_eqb (res_status r) RELEASED)
               (map (mark_released order) (reservations db)))
       (with_reservations db (map (mark_released order) (reservations db))),
     mkResponse 200
       (released_body order
          (Z.of_nat (List.length (filter (fun r => (res_order_id r =? order) && is_active r)
                                         (reservations db)))))).
Proof.
  intros Ho. unfold release. cbn [Js.truthy_num].
  destruct (order =? 0) eqn:E; [apply Z.eqb_eq in E; contradiction|]. reflexivity.
Qed.

Lemma reserved_shrinks_refl l : reserved_shrinks l l.
Proof.
  unfold reserved_shrinks. induction l; constructor; auto.
  split; [repeat split | lia].
Qed.

Lemma reserved_shrinks_trans l1 l2 l3 :
  reserved_shrinks l1 l2 -> reserved_shrinks l2 l3 -> reserved_shrinks l1 l3.
Proof.
  unfold reserved_shrinks. intros H. revert l3.
  induction H as [|a b l1 l2 [Hs Hr] _ IH]; intros l3 H3; inversion H3; subst;
    constructor; auto.
  destruct H1 as [Hs' Hr']. destruct Hs as (A1 & A2 & A3 & A4).
  destruct Hs' as (B1 & B2 & B3 & B4).
  split; [repeat split; congruence | lia].
Qed.

Lemma update_release_shrinks db q p w :
  0 <= q -> rows_ok db ->
  reserved_shrinks (inventory db) (inventory (update_release db q p w)).
Proof.
  intros Hq Hok. unfold reserved_shrinks, rows_ok in *.
  cbn [update_release with_inventory inventory].
  induction Hok as [|r l [Hr0 Hr1] _ IH]; cbn [map]; constructor; [|exact IH].
  destruct (_ && _); (split; [repeat split|]);
    unfold set_reserved, GREATEST_sub; cbn [reserved]; lia.
Qed.

Lemma fold_release_shrinks (f : DB -> Reservation -> DB) :
  (forall db r, 0 < res_quantity r -> db_ok db ->
                db_ok (f db r) /\ reserved_shrinks (inventory db) (inventory (f db r))) ->
  forall l db, Forall (fun r => 0 < res_quantity r) l -> db_ok db ->
  reserved_shrinks (inventory db) (inventory (fold_left f l db)).
Proof.
  intros Hf l. induction l as [|r l IH]; intros db Hl Hdb; cbn [fold_left].
  - apply reserved_shrinks_refl.
  - inversion Hl; subst. destruct (Hf db r ltac:(assumption) Hdb) as [Hdb' Hs].
    eapply reserved_shrinks_trans; [exact Hs|]. apply IH; assumption.
Qed.

Lemma mark_released_quantity order l :
  Forall (fun r => 0 < res_quantity r) l ->
  Forall (fun r => 0 < res_quantity r) (map (mark_released order) l).
Proof.
  induction 1 as [|r l Hr _ IH]; cbn [map]; constructor; [|exact IH].
  unfold mark_released. destruct (_ && _); exact Hr.
Qed.

(** X10.  A release of an order turns the ACTIVE reservations of that
    order into RELEASED ones and changes no other reservation and no
    other field: afterwards the order has no ACTIVE reservation.  It
    keeps every [on_hand], and on rows with 0 <= reserved <= on_hand and
    reservations of positive quantity it raises no [reserved] counter. *)
Theorem release_frame (order : Z) (db : DB) :
  order <> 0 -> rows_ok db -> reservations_ok db ->
  let db1 := fst (release (Some order) db) in
  Forall2 (released_or_same order) (reservations db) (reservations db1)
  /\ Forall (fun r => res_order_id r = order -> res_status r <> ACTIVE) (reservations db1)
  /\ reserved_shrinks (inventory db) (inventory db1).
Proof.
  intros Ho Hrows Hok db1. unfold db1. rewrite (release_eq order db Ho). cbn [fst].
  rewrite InventoryFacts.fold_release_reservations.
  cbn [reservations with_reservations]. split; [|split].
  - induction (reservations db) as [|r l IH]; cbn [map]; constructor; [|exact IH].
    unfold released_or_same, mark_released.
    destruct (res_order_id r =? order) eqn:E; cbn [andb].
    + unfold is_active. destruct (res_status r) eqn:Hs; cbn.
      * split; [apply same_hold_set_status|]. right. apply Z.eqb_eq in E. auto.
      * split; [apply same_hold_refl | left; congruence].
      * split; [apply same_hold_refl | left; congruence].
      * split; [apply same_hold_refl | left; congruence].
    + split; [apply same_hold_refl | left; reflexivity].
  - apply Forall_forall. intros r' Hin Hor.
    apply in_map_iff in Hin. destruct Hin as (r & <- & _).
    unfold mark_released in *.
    destruct (res_order_id r =? order) eqn:E; cbn [andb] in *.
    + unfold is_active. destruct (res_status r) eqn:Hs; cbn; rewrite ?Hs; discriminate.
    + apply Z.eqb_neq in E. contradiction.
  - change (inventory db)
      with (inventory (with_reservations db (map (mark_released order) (reservations db))))
      at 1.
    apply (fold_release_shrinks (release_one order)).
    + intros d r Hr Hd. unfold release_one. split.
      * apply InventoryInvariant.insert_movement_ok,
          InventoryInvariant.update_release_ok; [lia | exact Hd].
      * cbn [insert_movement inventory].
        apply update_release_shrinks; [lia | exact (proj1 Hd)].
    + apply InventoryInvariant.Forall_filter. apply mark_released_quantity. exact Hok.
    + split; [exact Hrows|]. apply mark_released_quantity. exact Hok.
Qed.

Lemma release_frame_witness :
  7 <> 0 /\ rows_ok release_db /\ reservations_ok release_db
  /\ map res_status (reservations (fst (release (Some 7) release_db))) = [RELEASED; ACTIVE]
  /\ reserved_shrinks (inventory release_db) (inventory (fst (release (Some 7) release_db))).
Proof.
  assert (H : 7 <> 0) by lia.
  assert (Hok : reservations_ok release_db)
    by (unfold reservations_ok; simpl; repeat constructor).
  assert (Hrows : rows_ok release_db)
    by (unfold rows_ok, row_ok; simpl; repeat constructor; simpl; lia).
  split; [exact H|]. split; [exact Hrows|]. split; [exact Hok|]. split; [reflexivity|].
  apply (proj2 (proj2 (release_frame 7 release_db H Hrows Hok))).
Defined.

(** X11.  A release of an order that has no ACTIVE and no RELEASED
    reservation (none at all, or only CONFIRMED and EXPIRED ones) writes
    nothing and reports released_count 0. *)
Theorem release_without_holds_is_a_no_op (order : Z) (db : DB) :
  order <> 0 ->
  Forall (fun r => res_order_id r = order ->
                   res_status r <> ACTIVE /\ res_status r <> RELEASED) (reservations db) ->
  release (Some order) db = (db, mkResponse 200 (released_body order 0)).
Proof.
  intros Ho Hall. rewrite (release_eq order db Ho).
  rewrite Forall_forall in Hall.
  assert (Hact : forall r, In r (reservations db) ->
                           (res_order_id r =? order) && is_active r = false).
  { intros r Hin. destruct (res_order_id r =? order) eqn:E; [|reflexivity].
    apply Z.eqb_eq in E. destruct (Hall r Hin E) as [H1 _].
    unfold is_active. destruct (res_status r); try reflexivity. contradiction. }
  assert (Hmap : map (mark_released order) (reservations db) = reservations db).
  { apply map_same. intros r Hin. unfold mark_released. rewrite (Hact r Hin). reflexivity. }
  rewrite Hmap.
  rewrite (filter_none (fun r => (res_order_id r =? order) && is_active r)) by exact Hact.
  rewrite filter_none.
  - cbn [fold_left List.length]. unfold with_reservations. rewrite DB_eta. reflexivity.
  - intros r Hin. destruct (res_order_id r =? order) eqn:E; [|reflexivity].
    apply Z.eqb_eq in E. destruct (Hall r Hin E) as [_ H2].
    destruct (res_status r); try reflexivity. contradiction.
Qed.

Lemma release_without_holds_is_a_no_op_witness :
  9 <> 0
  /\ release (Some 9) release_db = (release_db, mkResponse 200 (released_body 9 0)).
Proof.
  assert (H : 9 <> 0) by lia.
  split; [exact H|].
  apply (release_without_holds_is_a_no_op 9 release_db H).
  simpl. constructor; [intros H'; discriminate H'|].
  constructor; [intros H'; discriminate H' | constructor].
Defined.


(** ** Ship *)

Lemma stock_shrinks_refl l : stock_shrinks l l.
Proof.
  unfold stock_shrinks. induction l; constructor; auto.
  repeat split; lia.
Qed.

Lemma stock_shrinks_trans l1 l2 l3 :
  stock_shrinks l1 l2 -> stock_shrinks l2 l3 -> stock_shrinks l1 l3.
Proof.
  unfold stock_shrinks. intros H. revert l3.
  induction H as [|a b l1 l2 (A1 & A2 & A3 & A4 & A5) _ IH]; intros l3 H3;
    inversion H3; subst; constructor; auto.
  destruct H1 as (B1 & B2 & B3 & B4 & B5). repeat split; try congruence; lia.
Qed.

Lemma update_ship_shrinks db q p w :
  0 <= q -> rows_ok db -> stock_shrinks (inventory db) (inventory (update_ship db q p w)).
Proof.
  intros Hq Hok. unfold stock_shrinks, rows_ok in *.
  cbn [update_ship with_inventory inventory].
  induction Hok as [|r l [Hr0 Hr1] _ IH]; cbn [map]; constructor; [|exact IH].
  destruct (_ && _); repeat split; unfold GREATEST_sub;
    cbn [on_hand reserved inventory_id inv_product_id inv_warehouse]; lia.
Qed.

(** What one iteration of the ship loop leaves alone and what it adds. *)
Lemma ship_item_frame order db item db' :
  ship_item order db item = Normal db' ->
  reservations db' = reservations db
  /\ (exists m, inventory_Movements db' = inventory_Movements db ++ [m]
                /\ movement_type m = SHIP /\ reference_order_id m = order
                /\ mov_product_id m = ship_product_id item
                /\ mov_quantity m = ship_qty item)
  /\ ship_qty item <> 0 /\ ship_product_id item <> 0
  /\ exists w, ship_warehouse item = Some w
               /\ inventory db' = inventory (update_ship db (ship_qty item)
                                               (ship_product_id item) w).
Proof.
  unfold ship_item.
  destruct (ship_warehouse item) as [w|]; [|discriminate].
  destruct (ship_product_id item =? 0) eqn:E1; [discriminate|].
  destruct (ship_qty item =? 0) eqn:E2; [discriminate|].
  cbn [orb]. destruct (negb (Js.truthy_str (Some w))); [discriminate|].
  intros H. injection H as <-. apply Z.eqb_neq in E1, E2.
  split; [reflexivity|]. split.
  - eexists. split; [reflexivity|]. repeat split.
  - split; [exact E2|]. split; [exact E1|]. exists w. split; reflexivity.
Qed.

Lemma ship_loop_frame order : forall its db db',
  for_of (ship_item order) its db = Normal db' ->
  reservations db' = reservations db
  /\ exists entries,
       inventory_Movements db' = inventory_Movements db ++ entries
       /\ List.length entries = List.length its
       /\ Forall (fun m => movement_type m = SHIP /\ reference_order_id m = order) entries.
Proof.
  induction its as [|it its IH]; intros db db'; cbn [for_of].
  - intros H. injection H as <-. split; [reflexivity|].
    exists []. rewrite app_nil_r. repeat split. constructor.
  - destruct (ship_item order db it) as [db1|e|r] eqn:Hi; cbn [bind]; try discriminate.
    intros Hf. apply ship_item_frame in Hi.
    destruct Hi as (Hr1 & (m & Hm & Ht & Hor & _) & _).
    destruct (IH _ _ Hf) as (Hr2 & entries & He & Hlen & Hall).
    split; [congruence|]. exists (m :: entries). rewrite He, Hm, <- app_assoc.
    split; [reflexivity|]. split; [cbn; lia|]. constructor; [split; assumption | exact Hall].
Qed.

Lemma ship_cases its o db :
  (fst (ship its o db) = db /\ http_status (snd (ship its o db)) = 400)
  \/ exists l order db',
       its = Some l /\ o = Some order /\ order <> 0
       /\ for_of (ship_item order) l db = Normal db'
       /\ ship its o db = (db', mkResponse 200 (shipped_body order)).
Proof.
  unfold ship.
  destruct its as [[|it l]|]; [left; split; reflexivity| |left; split; reflexivity].
  destruct o as [order|]; [|left; split; reflexivity].
  cbn [Js.truthy_num]. destruct (order =? 0) eqn:E; cbn [negb]; [left; split; reflexivity|].
  destruct (for_of (ship_item order) (it :: l) db) as [db'|e|r] eqn:Hf.
  - right. exists (it :: l), order, db'. apply Z.eqb_neq in E. repeat split; assumption.
  - left. split; reflexivity.
  - exfalso. revert Hf. generalize (it :: l) db. clear.
    intros l. induction l as [|x l IH]; intros db; cbn [for_of]; [discriminate|].
    unfold ship_item at 1. destruct (ship_warehouse x); [|discriminate].
    destruct (_ || _); [discriminate|]. cbn [bind]. apply IH.
Qed.

(** X12.  A ship request never touches the reservations table; one that
    is not answered 200 (no items, no order, or an item without product,
    quantity or warehouse, at any position) writes nothing at all; one
    that is answered 200 appends exactly one SHIP movement per item, all
    for the order of the request. *)
Theorem ship_frame (its : option (list ShipItem)) (o : option Z) (db : DB) :
  let db' := fst (ship its o db) in
  reservations db' = reservations db
  /\ (http_status (snd (ship its o db)) <> 200 -> db' = db)
  /\ (http_status (snd (ship its o db)) = 200 ->
      exists l order entries,
        its = Some l /\ o = Some order
        /\ inventory_Movements db' = inventory_Movements db ++ entries
        /\ List.length entries = List.length l
        /\ Forall (fun m => movement_type m = SHIP /\ reference_order_id m = order) entries).
Proof.
  cbv zeta.
  destruct (ship_cases its o db) as [[H1 H2]|(l & order & db' & -> & -> & Ho & Hf & H)].
  - rewrite H1, H2. split; [reflexivity|]. split; [reflexivity | discriminate].
  - rewrite H. cbn [fst snd http_status].
    destruct (ship_loop_frame order l db db' Hf) as (Hr & entries & He & Hlen & Hall).
    split; [exact Hr|]. split; [intros Hc; contradiction|].
    intros _. exists l, order, entries. repeat split; assumption.
Qed.

Lemma update_ship_rows_ok db q p w : rows_ok db -> rows_ok (update_ship db q p w).
Proof.
  unfold rows_ok. cbn [update_ship with_inventory inventory].
  induction 1 as [|r l [Hr1 Hr2] _ IH]; cbn [map]; constructor; [|exact IH].
  destruct ((inv_product_id r =? p) && (inv_warehouse r =? w)%string).
  - unfold row_ok, GREATEST_sub. cbn [on_hand reserved]. lia.
  - split; assumption.
Qed.

Lemma ship_loop_shrinks order : forall its db db',
  Forall (fun it => 0 <= ship_qty it) its -> rows_ok db ->
  for_of (ship_item order) its db = Normal db' ->
  stock_shrinks (inventory db) (inventory db').
Proof.
  induction its as [|it its IH]; intros db db' Hall Hdb; cbn [for_of].
  - intros H. injection H as <-. apply stock_shrinks_refl.
  - inversion Hall as [|? ? Hq Hrest]; subst.
    destruct (ship_item order db it) as [db1|e|r] eqn:Hi; cbn [bind]; try discriminate.
    intros Hf.
    apply ship_item_frame in Hi. destruct Hi as (_ & _ & _ & _ & w & _ & Hinv).
    assert (Hok1 : rows_ok db1).
    { unfold rows_ok. rewrite Hinv. apply update_ship_rows_ok. exact Hdb. }
    eapply stock_shrinks_trans; [|eapply IH; eassumption].
    rewrite Hinv. apply update_ship_shrinks; assumption.
Qed.

(** X13.  A ship request whose quantities are not negative, on rows with
    0 <= reserved <= on_hand, keeps every inventory row and raises
    neither its [on_hand] nor its [reserved]. *)
Theorem ship_never_raises_stock (its : list ShipItem) (o : option Z) (db : DB) :
  Forall (fun it => 0 <= ship_qty it) its ->
  rows_ok db ->
  stock_shrinks (inventory db) (inventory (fst (ship (Some its) o db))).
Proof.
  intros Hall Hrows.
  destruct (ship_cases (Some its) o db) as [[H1 _]|(l & order & db' & Hl & -> & Ho & Hf & H)].
  - rewrite H1. apply stock_shrinks_refl.
  - injection Hl as <-. rewrite H. cbn [fst].
    eapply ship_loop_shrinks; [exact Hall | exact Hrows | exact Hf].
Qed.

Lemma ship_never_raises_stock_witness :
  Forall (fun it => 0 <= ship_qty it) ship_items
  /\ rows_ok held_db
  /\ stock_shrinks (inventory held_db) (inventory (fst (ship (Some ship_items) (Some 42) held_db)))
  /\ map on_hand (inventory (fst (ship (Some ship_items) (Some 42) held_db))) = [8]
  /\ map reserved (inventory (fst (ship (Some ship_items) (Some 42) held_db))) = [0].
Proof.
  assert (H1 : Forall (fun it => 0 <= ship_qty it) ship_items)
    by (unfold ship_items; constructor; [simpl; lia | constructor]).
  assert (H2 : rows_ok held_db)
    by (unfold rows_ok, row_ok; simpl; repeat constructor; simpl; lia).
  split; [exact H1|]. split; [exact H2|].
  split; [apply (ship_never_raises_stock ship_items (Some 42) held_db H1 H2)|].
  split; reflexivity.
Defined.

(** ** Every operation *)

Lemma Forall2_same_hold_map (f : Reservation -> Reservation) l :
  (forall r, same_hold r (f r)) -> Forall2 same_hold l (map f l).
Proof. intros H. induction l; cbn [map]; constructor; auto. Qed.

Lemma Forall2_same_hold_refl l : Forall2 same_hold l l.
Proof. induction l; constructor; auto. apply same_hold_refl. Qed.

Lemma kept_unchanged (db db' : DB) :
  db' = db ->
  (exists entries, inventory_Movements db' = inventory_Movements db ++ entries)
  /\ holds_kept (reservations db) (reservations db').
Proof.
  intros ->. split; [exists []; symmetry; apply app_nil_r|].
  exists (reservations db), []. rewrite app_nil_r.
  split; [reflexivity | apply Forall2_same_hold_refl].
Qed.

(** X14.  No operation of the engine (reserve, confirm, release, ship,
    reaper) changes or deletes a ledger entry or deletes a reservation:
    the ledger after an operation is the ledger before with entries
    appended, and the reservations table after it is the table before,
    changed in status at most, with reservations appended. *)
Theorem ledger_and_reservations_append_only (op : Operation) (db : DB) :
  (exists entries,
     inventory_Movements (fst (step op db)) = inventory_Movements db ++ entries)
  /\ holds_kept (reservations db) (reservations (fst (step op db))).
Proof.
  destruct op as [now req|o ids|o|its o|now]; cbn [step].
  - destruct (ReserveFacts.reserve_frame_holds now req db)
      as (_ & new & entries & Hn & Hl & _).
    split; [exists entries; exact Hl|].
    exists (reservations db), new. split; [exact Hn | apply Forall2_same_hold_refl].
  - destruct o as [order|]; [|apply kept_unchanged; reflexivity].
    destruct (Z.eq_dec order 0) as [->|Ho]; [apply kept_unchanged; reflexivity|].
    rewrite (confirm_eq order ids db Ho). cbn [fst].
    split; [exists []; symmetry; apply app_nil_r|].
    eexists _, []. rewrite app_nil_r. split; [reflexivity|].
    apply Forall2_same_hold_map. intros r.
    destruct (confirm_selects order ids r); [apply same_hold_set_status | apply same_hold_refl].
  - destruct o as [order|]; [|apply kept_unchanged; reflexivity].
    destruct (Z.eq_dec order 0) as [->|Ho]; [apply kept_unchanged; reflexivity|].
    split.
    + rewrite (InventoryFacts.release_movements order db Ho). eexists. reflexivity.
    + rewrite (release_eq order db Ho). cbn [fst].
      rewrite InventoryFacts.fold_release_reservations. cbn [reservations with_reservations].
      eexists _, []. rewrite app_nil_r. split; [reflexivity|].
      apply Forall2_same_hold_map. intros r. unfold mark_released.
      destruct (_ && _); [apply same_hold_set_status | apply same_hold_refl].
  - destruct (ship_cases its o db) as [[H1 _]|(l & order & db' & -> & -> & Ho & Hf & H)].
    + apply kept_unchanged. exact H1.
    + rewrite H. cbn [fst].
      destruct (ship_loop_frame order l db db' Hf) as (Hr & entries & He & _).
      split; [exists entries; exact He|].
      exists (reservations db), []. rewrite app_nil_r, Hr.
      split; [reflexivity | apply Forall2_same_hold_refl].
  - split.
    + unfold reaper. destruct (filter _ (reservations db)) as [|e rest];
        [exists []; symmetry; apply app_nil_r|].
      cbn [fst]. rewrite fold_reap_movements. eexists. reflexivity.
    + rewrite reaper_reservations. eexists _, []. rewrite app_nil_r.
      split; [reflexivity|]. apply Forall2_same_hold_map. intros r.
      destruct (existsb _ _); [apply same_hold_set_status | apply same_hold_refl].
Qed.

End OperationFacts.

(* ===================================================================== *)
(** * The saga: outcomes and outbound calls *)
(* ===================================================================== *)

Module SagaOutcomes.
Import Js Http OrderService SagaFixtures SagaProps.

Section Outcomes.

Variable generateTotalsSignature : Totals.OrderTotals -> list Totals.PricedItem -> string.

Local Abbreviation createOrderSaga := (createOrderSaga generateTotalsSignature).
Local Abbreviation create_pending_order := (create_pending_order generateTotalsSignature).

Lemma price_and_details_gets env od :
  forallb is_GET (snd (price_and_details env od)) = true.
Proof.
  unfold price_and_details.
  destruct (catalog_prices env _) as [s [pm|]|]; cbn [snd];
    repeat (destruct (negb _)); cbn [snd forallb is_GET andb]; try reflexivity.
  induction (map productId (items od)); cbn; auto.
Qed.

Lemma pending_order_id od items db :
  order_id (snd (create_pending_order od items db)) = fresh_order_id db.
Proof. reflexivity. Qed.

Lemma pending_order_db od items db :
  fst (create_pending_order od items db) = db ++ [snd (create_pending_order od items db)].
Proof. reflexivity. Qed.

(** The charge and the update, on the table that ends with the order. *)
Lemma charge_and_finalize_cases cfg env od db order0 :
  order_id order0 = fresh_order_id db ->
  exists r db2 ps,
    charge_and_finalize cfg env od order0 (db ++ [order0]) = (r, db2, ps)
    /\ (ps = [] \/ ps = [POST_payments (payment_call od order0)])
    /\ match r with
       | inl e => db2 = db ++ [order0]
       | inr o => exists pid, o = updateData pid order0 /\ db2 = db ++ [o]
                              /\ ps = [POST_payments (payment_call od order0)]
       end.
Proof.
  intros Hid. unfold charge_and_finalize.
  destruct (negb _); [eexists _, _, _; split; [reflexivity|]; split; [left|]; reflexivity|].
  destruct (payment_charge env _) as [s data|];
    [|eexists _, _, _; split; [reflexivity|]; split; [right|]; reflexivity].
  destruct (negb _); [eexists _, _, _; split; [reflexivity|]; split; [right|]; reflexivity|].
  destruct (rejected_status data);
    [eexists _, _, _; split; [reflexivity|]; split; [right|]; reflexivity|].
  destruct (paymentId_of data) as [pid|];
    [|eexists _, _, _; split; [reflexivity|]; split; [right|]; reflexivity].
  rewrite (SagaFacts.Order_update_new_row db order0 (updateData pid) Hid eq_refl).
  eexists _, _, _. split; [reflexivity|]. split; [right; reflexivity|].
  exists pid. repeat split.
Qed.

(** Steps 3 to 5 on the table that ends with the order: the calls are
    the reserve call, if the inventory URL is set, followed by the
    payment call, if the reserve call was answered 2xx and the payment
    URL is set; the table changes only when the order is returned. *)
Lemma reserve_charge_finalize_cases cfg env od db order0 items :
  order_id order0 = fresh_order_id db ->
  exists r db2 rs ps,
    reserve_charge_finalize cfg env od order0 items (db ++ [order0]) = (r, db2, rs ++ ps)
    /\ (rs = [] \/ rs = [POST_inventory_reserve (reserve_call order0 items)])
    /\ (ps = []
        \/ (ps = [POST_payments (payment_call od order0)]
            /\ rs = [POST_inventory_reserve (reserve_call order0 items)]
            /\ reserve_resolved cfg env order0 items))
    /\ match r with
       | inl (e, b) =>
           db2 = db ++ [order0]
           /\ (b = true -> rs = [POST_inventory_reserve (reserve_call order0 items)]
                           /\ reserve_resolved cfg env order0 items)
           /\ (b = false -> ps = [])
       | inr o =>
           exists pid, o = updateData pid order0 /\ db2 = db ++ [o]
                       /\ rs = [POST_inventory_reserve (reserve_call order0 items)]
                       /\ ps = [POST_payments (payment_call od order0)]
       end.
Proof.
  intros Hid. unfold reserve_charge_finalize.
  destruct (negb (truthy_str (INVENTORY_SERVICE_URL cfg))) eqn:Hurl.
  { exists (inl (env_not_set "INVENTORY_SERVICE_URL", false)), (db ++ [order0]), [], [].
    split; [reflexivity|]. split; [left; reflexivity|]. split; [left; reflexivity|].
    split; [reflexivity|]. split; [discriminate | reflexivity]. }
  apply negb_false_iff in Hurl.
  destruct (inventory_reserve env _) as [s data|] eqn:Hans.
  2:{ eexists _, _, [_], []. split; [reflexivity|]. split; [right; reflexivity|].
      split; [left; reflexivity|]. split; [reflexivity|]. split; [discriminate | reflexivity]. }
  destruct (negb (resolved s)) eqn:Hres.
  { eexists _, _, [_], []. split; [reflexivity|]. split; [right; reflexivity|].
    split; [left; reflexivity|]. split; [reflexivity|]. split; [discriminate | reflexivity]. }
  apply negb_false_iff in Hres.
  assert (Hrr : reserve_resolved cfg env order0 items)
    by (split; [exact Hurl | exists s, data; split; assumption]).
  destruct (charge_and_finalize_cases cfg env od db order0 Hid)
    as (r & db2 & ps & Heq & Hps & Hr).
  rewrite Heq. destruct r as [e|o].
  - exists (inl (e, true)), db2, [POST_inventory_reserve (reserve_call order0 items)], ps.
    split; [reflexivity|]. split; [right; reflexivity|].
    split; [destruct Hps as [->| ->];
             [left; reflexivity | right; split; [reflexivity | split; [reflexivity | exact Hrr]]]|].
    split; [exact Hr|]. split; [intros _; split; [reflexivity | exact Hrr] | discriminate].
  - destruct Hr as (pid & -> & -> & ->).
    eexists (inr _), _, [POST_inventory_reserve (reserve_call order0 items)], [_].
    split; [reflexivity|]. split; [right; reflexivity|].
    split; [right; split; [reflexivity | split; [reflexivity | exact Hrr]]|].
    exists pid. repeat split.
Qed.

(** The compensation of the order a run created. *)
Lemma compensateOrder_new_row cfg env order0 b db :
  order_id order0 = fresh_order_id db ->
  compensateOrder cfg env order0 b (db ++ [order0])
  = (db ++ [cancelData order0],
     if b then
       match order_items order0 with
       | _ :: _ =>
           if negb (truthy_str (INVENTORY_SERVICE_URL cfg)) then []
           else [POST_inventory_release (release_call order0 (cancelData order0))]
       | [] => []
       end
     else []).
Proof.
  intros Hid. unfold compensateOrder.
  pose proof (SagaFacts.Order_update_new_row db order0 cancelData Hid eq_refl) as Hu.
  assert (Hf : Order_findUnique (fst (Order_update (db ++ [order0]) (order_id order0) cancelData))
                 (order_id order0) = Some (cancelData order0)).
  { unfold Order_update in *. cbn [fst]. injection Hu as Hm Hfind. rewrite Hm in Hfind |- *.
    exact Hfind. }
  cbv zeta. rewrite Hf, Hu. cbn [fst].
  destruct b; [|reflexivity].
  cbn [cancelData order_items].
  destruct (order_items order0); [reflexivity|].
  destruct (negb _); reflexivity.
Qed.

(** Every run of the saga, by its result. *)
Lemma createOrderSaga_cases cfg env od db :
  exists res db' gets rs ps qs,
    createOrderSaga cfg env od db = (res, db', gets ++ rs ++ ps ++ qs)
    /\ forallb is_GET gets = true
    /\ match res with
       | throws_pricing_verification_failed e =>
           db' = db /\ rs = [] /\ ps = [] /\ qs = []
       | throws_order_processing_failed e =>
           exists items,
             let order0 := snd (create_pending_order od items db) in
             fst (price_and_details env od) = inr items
             /\ db' = db ++ [cancelData order0]
             /\ (rs = [] \/ rs = [POST_inventory_reserve (reserve_call order0 items)])
             /\ (ps = []
                 \/ (ps = [POST_payments (payment_call od order0)]
                     /\ rs = [POST_inventory_reserve (reserve_call order0 items)]
                     /\ reserve_resolved cfg env order0 items))
             /\ (qs = []
                 \/ (qs = [POST_inventory_release (release_call order0 (cancelData order0))]
                     /\ rs = [POST_inventory_reserve (reserve_call order0 items)]
                     /\ reserve_resolved cfg env order0 items))
             /\ (ps <> [] -> items <> [] -> qs <> [])
       | returns order totals =>
           exists items pid,
             let order0 := snd (create_pending_order od items db) in
             fst (price_and_details env od) = inr items
             /\ order = updateData pid order0
             /\ db' = db ++ [order]
             /\ rs = [POST_inventory_reserve (reserve_call order0 items)]
             /\ ps = [POST_payments (payment_call od order0)]
             /\ qs = []
             /\ reserve_resolved cfg env order0 items
       end.
Proof.
  unfold OrderService.createOrderSaga.
  destruct (negb (truthy_str (CATALOG_SERVICE_URL cfg))).
  { eexists _, _, [], [], [], []. split; [reflexivity|]. split; [reflexivity|].
    repeat split. }
  pose proof (price_and_details_gets env od) as Hg.
  destruct (price_and_details env od) as [[e|items] gets] eqn:Hp; cbn [snd] in Hg.
  { eexists _, _, gets, [], [], []. rewrite !app_nil_r. split; [reflexivity|].
    split; [exact Hg|]. repeat split. }
  pose proof (pending_order_id od items db) as Hid.
  pose proof (pending_order_db od items db) as Hdb.
  destruct (OrderService.create_pending_order generateTotalsSignature od items db)
    as [db1 order0] eqn:Hc.
  cbn [fst snd] in Hid, Hdb. subst db1.
  destruct (reserve_charge_finalize_cases cfg env od db order0 items Hid)
    as (r & db2 & rs & ps & Heq & Hrs & Hps & Hr).
  rewrite Heq. destruct r as [[e b]|o].
  - destruct Hr as (-> & Hb1 & Hb0).
    rewrite (compensateOrder_new_row cfg env order0 b db Hid).
    eexists _, _, gets, rs, ps, _. split; [rewrite <- app_assoc; reflexivity|].
    split; [exact Hg|]. exists items. cbv zeta. rewrite Hc. cbn [fst snd].
    split; [reflexivity|]. split; [reflexivity|].
    split; [exact Hrs|]. split; [exact Hps|]. split.
    + destruct b; [|left; reflexivity].
      destruct (order_items order0) eqn:Hoi; [left; reflexivity|].
      destruct (Hb1 eq_refl) as [Hrs' Hrr]. destruct Hrr as [Hurl Hans].
      rewrite Hurl. cbn [negb]. right. split; [reflexivity|].
      split; [exact Hrs' | split; assumption].
    + intros Hps' Hitems. destruct b; [|elim Hps'; apply Hb0; reflexivity].
      destruct Hps as [->|(_ & _ & Hurl & _)]; [elim Hps'; reflexivity|].
      rewrite Hurl. cbn [negb].
      assert (Hoi : order_items order0 <> []).
      { unfold OrderService.create_pending_order, Order_create in Hc.
        injection Hc as _ <-. cbn [order_items].
        destruct items; [elim Hitems; reflexivity | discriminate]. }
      destruct (order_items order0); [elim Hoi; reflexivity | discriminate].
  - destruct Hr as (pid & -> & -> & -> & ->).
    eexists _, _, gets, _, _, []. split; [rewrite app_nil_r; reflexivity|].
    split; [exact Hg|]. exists items, pid. cbv zeta. rewrite Hc. cbn [fst snd].
    repeat split; try reflexivity.
    all: destruct Hps as [Hps|(_ & _ & Hrr)]; [discriminate Hps | apply Hrr].
Qed.


(** ** Step 1 *)

Lemma map_throwing_Forall2 {A B E : Type} (f : A -> E + B) (R : A -> B -> Prop) :
  (forall a b, f a = inr b -> R a b) ->
  forall l ys, map_throwing f l = inr ys -> Forall2 R l ys.
Proof.
  intros Hf. induction l as [|a l IH]; intros ys; cbn [map_throwing].
  - intros H. injection H as <-. constructor.
  - destruct (f a) as [e|b] eqn:Hb; [discriminate|].
    destruct (map_throwing f l) as [e|bs]; [discriminate|].
    intros H. injection H as <-. constructor; [apply Hf; exact Hb | apply IH; reflexivity].
Qed.

Lemma price_item_inr priceMap detailsMap item p :
  price_item priceMap detailsMap item = inr p ->
  Totals.product_id p = productId item
  /\ Totals.quantity p = quantity item
  /\ map_get Z.eqb priceMap (productId item) = Some (Totals.price p)
  /\ Totals.sku p <> EmptyString
  /\ Totals.product_name p <> EmptyString.
Proof.
  unfold price_item.
  destruct (map_get Z.eqb priceMap (productId item)) as [price|]; [|discriminate].
  cbv zeta.
  destruct (or_null (or_str (or_str (sku item) _) None)) as [s|] eqn:Hs; [|discriminate].
  destruct (or_null (detail_product_name _)) as [n|] eqn:Hn; [|discriminate].
  destruct (negb (truthy_str (Some s))) eqn:Ts; [discriminate|].
  destruct (negb (truthy_str (Some n))) eqn:Tn; [discriminate|].
  intros H. injection H as <-. cbn.
  repeat split.
  - intros ->. discriminate Ts.
  - intros ->. discriminate Tn.
Qed.

(** X15.  When step 1 of the saga yields priced items, the catalog
    answered the price request with status 200, and the priced items are
    the positions of the request, one for one and in order, each with
    the product and quantity of the request, the price the catalog
    answered for the product, and a non-empty SKU and product name; the
    calls made are the price request for the products of the request
    followed by one product request per position. *)
Theorem priced_items_follow_the_catalog (env : Env) (od : OrderData)
    (pricedItems : list Totals.PricedItem) (calls : list Call) :
  price_and_details env od = (inr pricedItems, calls) ->
  exists priceMap,
    catalog_prices env (map productId (items od)) = answered 200 (Some priceMap)
    /\ Forall2 (fun item p =>
                  Totals.product_id p = productId item
                  /\ Totals.quantity p = quantity item
                  /\ map_get Z.eqb priceMap (productId item) = Some (Totals.price p)
                  /\ Totals.sku p <> EmptyString
                  /\ Totals.product_name p <> EmptyString)
               (items od) pricedItems
    /\ calls = GET_prices (map productId (items od))
               :: map GET_product (map productId (items od)).
Proof.
  unfold price_and_details. cbv zeta.
  destruct (catalog_prices env _) as [s [pm|]|]; try discriminate.
  2:{ destruct (negb _); discriminate. }
  destruct (negb (resolved s)); [discriminate|].
  destruct (s =? 200) eqn:Es; cbn [negb]; [|discriminate].
  apply Z.eqb_eq in Es. subst s.
  intros H. injection H as Hm <-.
  exists pm. split; [reflexivity|]. split; [|reflexivity].
  eapply map_throwing_Forall2; [|exact Hm].
  intros a b. apply price_item_inr.
Qed.

Lemma priced_items_follow_the_catalog_witness :
  exists priceMap,
    catalog_prices live_env (map productId (items happy_order)) = answered 200 (Some priceMap)
    /\ Forall2 (fun item p =>
                  Totals.product_id p = productId item
                  /\ Totals.quantity p = quantity item
                  /\ map_get Z.eqb priceMap (productId item) = Some (Totals.price p)
                  /\ Totals.sku p <> EmptyString
                  /\ Totals.product_name p <> EmptyString)
               (items happy_order) Totals.happy_items
    /\ snd (price_and_details live_env happy_order)
       = GET_prices [1; 2] :: map GET_product [1; 2].
Proof.
  destruct (priced_items_follow_the_catalog live_env happy_order Totals.happy_items
              (GET_prices [1; 2] :: map GET_product [1; 2]) eq_refl)
    as (pm & H1 & H2 & H3).
  exists pm. split; [exact H1|]. split; [exact H2|]. reflexivity.
Defined.

(** ** Results and the orders table *)

(** X16.  A run that ends in a pricing failure leaves the orders table
    as it was and has called the catalog service only. *)
Theorem pricing_failure_creates_no_order (cfg : Config) (env : Env) (od : OrderData)
    (db db' : list Order) (e : SagaError) (calls : list Call) :
  createOrderSaga cfg env od db = (throws_pricing_verification_failed e, db', calls) ->
  db' = db /\ forallb is_GET calls = true.
Proof.
  destruct (createOrderSaga_cases cfg env od db)
    as (res & db1 & gets & rs & ps & qs & Heq & Hg & Hres).
  rewrite Heq. intros H. injection H as -> -> <-.
  destruct Hres as (-> & -> & -> & ->). rewrite !app_nil_r. split; [reflexivity | exact Hg].
Qed.

(** X17.  A run that ends in a processing failure leaves the orders
    table with exactly one row more: the order of step 2 with status
    CANCELLED, payment status still pending and no payment id; no older
    row is changed. *)
Theorem processing_failure_cancels_the_order (cfg : Config) (env : Env) (od : OrderData)
    (db db' : list Order) (e : SagaError) (calls : list Call) :
  createOrderSaga cfg env od db = (throws_order_processing_failed e, db', calls) ->
  exists pricedItems cancelled,
    fst (price_and_details env od) = inr pricedItems
    /\ db' = db ++ [cancelled]
    /\ cancelled = cancelData (snd (create_pending_order od pricedItems db))
    /\ order_id cancelled = fresh_order_id db
    /\ order_status cancelled = CANCELLED
    /\ payment_status cancelled = PAY_PENDING
    /\ payment_id cancelled = None
    /\ customer_id cancelled = userId od
    /\ order_total cancelled = Totals.total (Totals.saga_totals pricedItems).
Proof.
  destruct (createOrderSaga_cases cfg env od db)
    as (res & db1 & gets & rs & ps & qs & Heq & Hg & Hres).
  rewrite Heq. intros H. injection H as -> -> <-.
  destruct Hres as (items & Hp & -> & _).
  exists items, (cancelData (snd (create_pending_order od items db))).
  repeat split. exact Hp.
Qed.

(** ** The outbound calls *)

Lemma payment_in_calls (p : PaymentCall) gets rs ps qs :
  forallb is_GET gets = true ->
  (rs = [] \/ exists r, rs = [POST_inventory_reserve r]) ->
  (qs = [] \/ exists q, qs = [POST_inventory_release q]) ->
  In (POST_payments p) (gets ++ rs ++ ps ++ qs) -> In (POST_payments p) ps.
Proof.
  intros Hg Hrs Hqs Hin.
  apply in_app_or in Hin. destruct Hin as [Hin|Hin].
  { rewrite forallb_forall in Hg. apply Hg in Hin. discriminate Hin. }
  apply in_app_or in Hin. destruct Hin as [Hin|Hin].
  { destruct Hrs as [->|[r ->]]; [destruct Hin|].
    destruct Hin as [Hin|[]]. discriminate Hin. }
  apply in_app_or in Hin. destruct Hin as [Hin|Hin]; [exact Hin|].
  destruct Hqs as [->|[q ->]]; [destruct Hin|].
  destruct Hin as [Hin|[]]. discriminate Hin.
Qed.

Lemma reserve_resolved_answer cfg env order items :
  reserve_resolved cfg env order items ->
  exists s data,
    inventory_reserve env (reserve_call order items) = answered s data
    /\ resolved s = true.
Proof. intros [_ H]. exact H. Qed.

(** X18.  The outbound calls of every run, in order: calls to the
    catalog service, then at most one reserve call, then at most one
    payment call, then at most one release call.  A payment call is made
    only after the reserve call was answered with a 2xx status; a release
    call is made only after such an answer and only by a run that does
    not return an order; a run that returns an order has made the
    reserve and the payment call and no release call. *)
Theorem saga_calls_in_order (cfg : Config) (env : Env) (od : OrderData) (db : list Order) :
  exists gets rs ps qs,
    snd (createOrderSaga cfg env od db) = gets ++ rs ++ ps ++ qs
    /\ forallb is_GET gets = true
    /\ (rs = [] \/ exists r, rs = [POST_inventory_reserve r])
    /\ (ps = []
        \/ exists p r s data,
             ps = [POST_payments p] /\ rs = [POST_inventory_reserve r]
             /\ inventory_reserve env r = answered s data /\ resolved s = true)
    /\ (qs = []
        \/ exists q r s data,
             qs = [POST_inventory_release q] /\ rs = [POST_inventory_reserve r]
             /\ inventory_reserve env r = answered s data /\ resolved s = true
             /\ forall o t, fst (fst (createOrderSaga cfg env od db)) <> returns o t)
    /\ (forall o t, fst (fst (createOrderSaga cfg env od db)) = returns o t ->
        rs <> [] /\ ps <> [] /\ qs = []).
Proof.
  destruct (createOrderSaga_cases cfg env od db)
    as (res & db1 & gets & rs & ps & qs & Heq & Hg & Hres).
  exists gets, rs, ps, qs. rewrite Heq. cbn [fst snd].
  split; [reflexivity|]. split; [exact Hg|].
  destruct res as [o t|e|e].
  - destruct Hres as (items & pid & _ & _ & _ & -> & -> & -> & Hrr).
    destruct (reserve_resolved_answer _ _ _ _ Hrr) as (s & data & Hans & Hs).
    split; [right; eexists; reflexivity|].
    split; [right; eexists _, _, s, data; repeat split; assumption|].
    split; [left; reflexivity|].
    intros _ _ _. repeat split; discriminate.
  - destruct Hres as (_ & -> & -> & ->).
    split; [left; reflexivity|]. split; [left; reflexivity|]. split; [left; reflexivity|].
    intros o t H. discriminate H.
  - destruct Hres as (items & _ & _ & Hrs & Hps & Hqs & _).
    split; [destruct Hrs as [->| ->]; [left; reflexivity | right; eexists; reflexivity]|].
    split.
    { destruct Hps as [->|(-> & -> & Hrr)]; [left; reflexivity|].
      destruct (reserve_resolved_answer _ _ _ _ Hrr) as (s & data & Hans & Hs).
      right. eexists _, _, s, data. repeat split; assumption. }
    split.
    { destruct Hqs as [->|(-> & -> & Hrr)]; [left; reflexivity|].
      destruct (reserve_resolved_answer _ _ _ _ Hrr) as (s & data & Hans & Hs).
      right. eexists _, _, s, data. repeat split; try assumption.
      intros o t H. discriminate H. }
    intros o t H. discriminate H.
Qed.

(** Every payment call of a run is the payment call for the order of
    step 2. *)
Lemma payment_call_of_run cfg env od db p :
  In (POST_payments p) (snd (createOrderSaga cfg env od db)) ->
  exists items,
    let order0 := snd (create_pending_order od items db) in
    fst (price_and_details env od) = inr items
    /\ p = payment_call od order0
    /\ reserve_resolved cfg env order0 items
    /\ exists o, In o (snd (fst (createOrderSaga cfg env od db)))
                 /\ order_id o = order_id order0 /\ order_total o = order_total order0.
Proof.
  destruct (createOrderSaga_cases cfg env od db)
    as (res & db1 & gets & rs & ps & qs & Heq & Hg & Hres).
  rewrite Heq. cbn [fst snd]. intros Hin.
  destruct res as [o t|e|e].
  - destruct Hres as (items & pid & Hp & -> & -> & -> & -> & -> & Hrr).
    apply payment_in_calls in Hin;
      [|exact Hg | right; eexists; reflexivity | left; reflexivity].
    destruct Hin as [Hin|[]]. injection Hin as <-.
    exists items. cbv zeta. split; [exact Hp|]. split; [reflexivity|]. split; [exact Hrr|].
    eexists. split; [apply in_or_app; right; left; reflexivity|]. split; reflexivity.
  - destruct Hres as (-> & -> & -> & ->). rewrite !app_nil_r in Hin.
    rewrite forallb_forall in Hg. apply Hg in Hin. discriminate Hin.
  - destruct Hres as (items & Hp & -> & Hrs & Hps & Hqs & _).
    apply payment_in_calls in Hin; [|exact Hg | |].
    + destruct Hps as [->|(-> & _ & Hrr)]; [destruct Hin|].
      destruct Hin as [Hin|[]]. injection Hin as <-.
      exists items. cbv zeta. split; [exact Hp|]. split; [reflexivity|]. split; [exact Hrr|].
      eexists. split; [apply in_or_app; right; left; reflexivity|]. split; reflexivity.
    + destruct Hrs as [->| ->]; [left; reflexivity | right; eexists; reflexivity].
    + destruct Hqs as [->|(-> & _)]; [left; reflexivity | right; eexists; reflexivity].
Qed.

(** X19.  Every payment call of a run charges the order of step 2: its
    order id is the id of the new order, its amount is the total the
    totals calculator gives for the priced items, which is the
    [order_total] of the order's row in the table after the run; its
    Idempotency-Key is the client's key when the request has a non-empty
    one and [order-<id>] when it has none; its method is DEBIT CARD when
    the request names none. *)
Theorem payment_charges_the_order_total (cfg : Config) (env : Env) (od : OrderData)
    (db : list Order) (p : PaymentCall) :
  In (POST_payments p) (snd (createOrderSaga cfg env od db)) ->
  exists pricedItems,
    fst (price_and_details env od) = inr pricedItems
    /\ pay_orderId p = fresh_order_id db
    /\ amount p = Totals.total (Totals.saga_totals pricedItems)
    /\ (exists o, In o (snd (fst (createOrderSaga cfg env od db)))
                  /\ order_id o = pay_orderId p /\ order_total o = amount p)
    /\ (forall k, idempotencyKey od = Some k -> k <> EmptyString ->
                  pay_Idempotency_Key p = client_key k)
    /\ (idempotencyKey od = None ->
        pay_Idempotency_Key p = order_key (fresh_order_id db))
    /\ (paymentMethod od = None -> method p = "DEBIT CARD"%string).
Proof.
  intros Hin. destruct (payment_call_of_run cfg env od db p Hin)
    as (items & Hp & -> & _ & o & Ho & Hid & Htot).
  exists items. split; [exact Hp|]. split; [reflexivity|]. split; [reflexivity|].
  split; [exists o; repeat split; assumption|].
  split; [|split].
  - intros k Hk Hk0. cbn [payment_call pay_Idempotency_Key]. rewrite Hk.
    cbn [truthy_str].
    destruct (k =? EmptyString)%string eqn:E; [apply String.eqb_eq in E; contradiction|].
    reflexivity.
  - intros Hk. cbn [payment_call pay_Idempotency_Key]. rewrite Hk. reflexivity.
  - intros Hm. cbn [payment_call method]. rewrite Hm. reflexivity.
Qed.

Lemma priced_items_of_request env od items :
  fst (price_and_details env od) = inr items ->
  Forall2 (fun item p => Totals.product_id p = productId item
                         /\ Totals.quantity p = quantity item)
          (OrderService.items od) items.
Proof.
  unfold price_and_details. cbv zeta.
  destruct (catalog_prices env _) as [s [pm|]|]; try discriminate.
  2:{ destruct (negb _); discriminate. }
  destruct (negb (resolved s)); [discriminate|].
  destruct (negb (s =? 200)); [discriminate|].
  cbn [fst]. apply map_throwing_Forall2.
  intros a b H. apply price_item_inr in H. destruct H as (H1 & H2 & _). split; assumption.
Qed.

Lemma release_call_of_request od items db :
  Forall2 (fun item p => Totals.product_id p = productId item
                         /\ Totals.quantity p = quantity item)
          (OrderService.items od) items ->
  let order0 := snd (create_pending_order od items db) in
  release_call order0 (cancelData order0) = release_of od (fresh_order_id db).
Proof.
  intros H. cbv zeta. unfold release_call, release_of. cbn. f_equal. f_equal.
  induction H as [|a b l l' [H1 H2] _ IH]; cbn [map]; [reflexivity|].
  rewrite IH. cbn. rewrite H1, H2. reflexivity.
Qed.

(** X20.  When a run that made a payment call fails, for a request with
    at least one position, the call after the payment call, and the last
    of the run, is a release call for the new order that lists the
    products and quantities of the request. *)
Theorem failed_payment_releases_what_was_ordered (cfg : Config) (env : Env)
    (od : OrderData) (db db' : list Order) (e : SagaError) (calls : list Call)
    (p : PaymentCall) :
  createOrderSaga cfg env od db = (throws_order_processing_failed e, db', calls) ->
  In (POST_payments p) calls ->
  items od <> [] ->
  exists front,
    calls = front ++ [POST_payments p;
                      POST_inventory_release (release_of od (fresh_order_id db))].
Proof.
  intros Hrun Hin Hitems.
  destruct (createOrderSaga_cases cfg env od db)
    as (res & db1 & gets & rs & ps & qs & Heq & Hg & Hres).
  rewrite Heq in Hrun. injection Hrun as -> -> <-.
  destruct Hres as (items & Hp & _ & Hrs & Hps & Hqs & Hrel).
  pose proof (priced_items_of_request env od items Hp) as H2.
  apply payment_in_calls in Hin; [|exact Hg | |].
  2:{ destruct Hrs as [->| ->]; [left; reflexivity | right; eexists; reflexivity]. }
  2:{ destruct Hqs as [->|(-> & _)]; [left; reflexivity | right; eexists; reflexivity]. }
  destruct Hps as [->|(-> & _ & _)]; [destruct Hin|].
  destruct Hin as [Hin|[]]. injection Hin as <-.
  assert (Hne : items <> []).
  { intros ->. inversion H2 as [Hnil|]. apply Hitems. symmetry. exact Hnil. }
  destruct Hqs as [->|(-> & _ & _)]; [elim (Hrel ltac:(discriminate) Hne); reflexivity|].
  rewrite (release_call_of_request od items db H2).
  exists (gets ++ rs). rewrite <- app_assoc. reflexivity.
Qed.

(** X21.  Against the inventory service of this repository (the reserve
    handler, at any time and on any database) no run returns an order:
    the reserve call of the saga is answered 400, so no payment call and
    no release call is made, and the order, if one was created, is left
    CANCELLED. *)
Theorem no_order_is_approved_by_the_inventory_service (cfg : Config) (env : Env)
    (od : OrderData) (db : list Order) (now : Z) (idb : Inventory.DB) :
  (forall req, inventory_reserve env req = inventory_service now idb req) ->
  (forall o t, fst (fst (createOrderSaga cfg env od db)) <> returns o t)
  /\ (forall c, In c (snd (createOrderSaga cfg env od db)) ->
                is_GET c = true \/ exists r, c = POST_inventory_reserve r)
  /\ (snd (fst (createOrderSaga cfg env od db)) = db
      \/ exists cancelled,
           snd (fst (createOrderSaga cfg env od db)) = db ++ [cancelled]
           /\ order_status cancelled = CANCELLED).
Proof.
  intros Henv.
  assert (Hno : forall order items, ~ reserve_resolved cfg env order items).
  { intros order items [_ (s & data & Hans & Hs)].
    rewrite Henv in Hans. unfold inventory_service in Hans.
    destruct (SagaFacts.reserve_call_rejected order items) as [_ Hrej].
    destruct (Hrej now idb) as [_ H400].
    cbv zeta in Hans. injection Hans as <- _. rewrite H400 in Hs. discriminate Hs. }
  destruct (createOrderSaga_cases cfg env od db)
    as (res & db1 & gets & rs & ps & qs & Heq & Hg & Hres).
  rewrite Heq. cbn [fst snd].
  destruct res as [o t|e|e].
  - destruct Hres as (items & pid & _ & _ & _ & _ & _ & _ & Hrr).
    elim (Hno _ _ Hrr).
  - destruct Hres as (-> & -> & -> & ->). rewrite !app_nil_r.
    split; [intros o t H; discriminate H|].
    split; [|left; reflexivity].
    intros c Hc. left. rewrite forallb_forall in Hg. apply Hg. exact Hc.
  - destruct Hres as (items & _ & -> & Hrs & Hps & Hqs & _).
    split; [intros o t H; discriminate H|].
    destruct Hps as [->|(_ & _ & Hrr)]; [|elim (Hno _ _ Hrr)].
    destruct Hqs as [->|(_ & _ & Hrr)]; [|elim (Hno _ _ Hrr)].
    rewrite !app_nil_r. split.
    + intros c Hc. apply in_app_or in Hc. destruct Hc as [Hc|Hc].
      * left. rewrite forallb_forall in Hg. apply Hg. exact Hc.
      * destruct Hrs as [->| ->]; [destruct Hc|].
        destruct Hc as [<-|[]]. right. eexists. reflexivity.
    + right. eexists. split; reflexivity.
Qed.

End Outcomes.

Lemma processing_failure_cancels_the_order_witness :
  exists e db' calls cancelled,
    OrderService.createOrderSaga (fun _ _ => "sig"%string) happy_cfg declined_env
      happy_order [] = (throws_order_processing_failed e, db', calls)
    /\ db' = [cancelled]
    /\ order_status cancelled = CANCELLED
    /\ payment_status cancelled = PAY_PENDING.
Proof.
  eexists _, _, _, _. split; [vm_compute; reflexivity|].
  destruct (processing_failure_cancels_the_order (fun _ _ => "sig"%string)
              happy_cfg declined_env happy_order [] _ _ _ eq_refl)
    as (items & cancelled & _ & Hdb & Hc & _ & Hs & Hp & _).
  injection Hdb as <-. split; [reflexivity|]. split; [exact Hs | exact Hp].
Defined.

Lemma pricing_failure_creates_no_order_witness :
  exists e calls,
    OrderService.createOrderSaga (fun _ _ => "sig"%string) happy_cfg catalog_down_env
      happy_order [] = (throws_pricing_verification_failed e, [], calls)
    /\ forallb is_GET calls = true.
Proof.
  eexists _, _. split; [vm_compute; reflexivity|].
  apply (pricing_failure_creates_no_order (fun _ _ => "sig"%string)
           happy_cfg catalog_down_env happy_order [] [] _ _ eq_refl).
Defined.

Lemma payment_charges_the_order_total_witness :
  exists p,
    In (POST_payments p)
       (snd (OrderService.createOrderSaga (fun _ _ => "sig"%string) happy_cfg reserved_env
               happy_order []))
    /\ pay_orderId p = 1
    /\ (amount p == 475 # 10)%Q
    /\ pay_Idempotency_Key p = client_key "k1"
    /\ method p = "DEBIT CARD"%string.
Proof.
  eexists. split; [vm_compute; right; right; right; right; left; reflexivity|].
  destruct (payment_charges_the_order_total (fun _ _ => "sig"%string) happy_cfg
              reserved_env happy_order [] _
              ltac:(vm_compute; right; right; right; right; left; reflexivity))
    as (items & _ & H1 & _ & _ & H4 & _ & H6).
  split; [exact H1|]. split; [vm_compute; reflexivity|].
  split; [apply (H4 "k1"%string eq_refl); discriminate | apply H6; reflexivity].
Defined.

Lemma failed_payment_releases_what_was_ordered_witness :
  exists e db' front p,
    OrderService.createOrderSaga (fun _ _ => "sig"%string) happy_cfg declined_env
      happy_order []
    = (throws_order_processing_failed e, db',
       front ++ [POST_payments p; POST_inventory_release (release_of happy_order 1)]).
Proof.
  assert (Hrun : exists e db' calls p,
             OrderService.createOrderSaga (fun _ _ => "sig"%string) happy_cfg declined_env
               happy_order [] = (throws_order_processing_failed e, db', calls)
             /\ In (POST_payments p) calls).
  { eexists _, _, _, _. split; [vm_compute; reflexivity|].
    right; right; right; right; left; reflexivity. }
  destruct Hrun as (e & db' & calls & p & Hrun & Hin).
  destruct (failed_payment_releases_what_was_ordered (fun _ _ => "sig"%string)
              happy_cfg declined_env happy_order [] db' e calls p Hrun Hin
              ltac:(discriminate)) as (front & Hc).
  exists e, db', front, p. rewrite Hrun, Hc. reflexivity.
Defined.

Lemma no_order_is_approved_by_the_inventory_service_witness :
  (forall o t,
     fst (fst (OrderService.createOrderSaga (fun _ _ => "sig"%string) happy_cfg live_env
                 happy_order [])) <> returns o t)
  /\ exists cancelled,
       snd (fst (OrderService.createOrderSaga (fun _ _ => "sig"%string) happy_cfg live_env
                   happy_order [])) = [cancelled]
       /\ order_status cancelled = CANCELLED.
Proof.
  destruct (no_order_is_approved_by_the_inventory_service (fun _ _ => "sig"%string)
              happy_cfg live_env happy_order [] 1000 happy_inventory
              (fun req => eq_refl)) as (H1 & _ & H3).
  split; [exact H1|].
  eexists. split; vm_compute; reflexivity.
Defined.

End SagaOutcomes.

(* ===================================================================== *)
(** * The route POST /v1/orders *)
(* ===================================================================== *)

Module RouteFacts.
Import Js OrderController RouteProps.

Section Route.

Variable generateTotalsSignature : Totals.OrderTotals -> list Totals.PricedItem -> string.
Variable request_hash_of : Json -> string.

Local Abbreviation POST_orders := (POST_orders generateTotalsSignature request_hash_of).
Local Abbreviation createOrder := (createOrder generateTotalsSignature).
Local Abbreviation pending_record := (pending_record request_hash_of).
Local Abbreviation finalized_record := (finalized_record request_hash_of).

(** ** The middleware *)

Lemma truthy_nonempty (k : string) : k <> EmptyString -> truthy_str (Some k) = true.
Proof.
  intros Hk. cbn [truthy_str].
  destruct (k =? EmptyString)%string eqn:E; [apply String.eqb_eq in E; contradiction|].
  reflexivity.
Qed.

Lemma checkIdempotency_fresh get path body store k :
  Idempotency.detected_key get = Some k -> k <> EmptyString ->
  Idempotency.findUnique store k = None ->
  Idempotency.checkIdempotency request_hash_of get path body store
  = (store ++ [Idempotency.mkRecord k path (request_hash_of body) None None],
     Idempotency.next k).
Proof.
  intros Hk Hk0 Hr. unfold Idempotency.checkIdempotency. cbv zeta. rewrite Hk.
  rewrite (truthy_nonempty k Hk0). cbn [negb]. rewrite Hr. reflexivity.
Qed.

(** The middleware answers without writing, or it appends the pending
    record of a key that had none and calls [next]. *)
Lemma checkIdempotency_cases get path body store :
  (exists s b,
     Idempotency.checkIdempotency request_hash_of get path body store
     = (store, Idempotency.respond s b)
     /\ (s = 400 \/ s = 409 \/ 200 <= s < 400))
  \/ (exists k,
        Idempotency.detected_key get = Some k /\ k <> EmptyString
        /\ Idempotency.findUnique store k = None
        /\ Idempotency.checkIdempotency request_hash_of get path body store
           = (store ++ [Idempotency.mkRecord k path (request_hash_of body) None None],
              Idempotency.next k)).
Proof.
  destruct (Idempotency.detected_key get) as [k|] eqn:Hk.
  2:{ left. unfold Idempotency.checkIdempotency. cbv zeta. rewrite Hk.
      eexists _, _. split; [reflexivity|]. left. reflexivity. }
  destruct (string_dec k EmptyString) as [->|Hk0].
  { left. unfold Idempotency.checkIdempotency. cbv zeta. rewrite Hk.
    eexists _, _. split; [reflexivity|]. left. reflexivity. }
  destruct (Idempotency.findUnique store k) as [r|] eqn:Hr.
  - left. rewrite (IdempotencyFacts.checkIdempotency_existing request_hash_of
                     get path body store k r Hk Hk0 Hr).
    destruct (Idempotency.response_code r) as [code|].
    + destruct ((200 <=? code) && (code <? 400)) eqn:E.
      * eexists _, _. split; [reflexivity|]. right. right.
        apply andb_prop in E. destruct E as [E1 E2].
        apply Z.leb_le in E1. apply Z.ltb_lt in E2. lia.
      * eexists _, _. split; [reflexivity|]. right. left. reflexivity.
    + eexists _, _. split; [reflexivity|]. right. left. reflexivity.
  - right. exists k. split; [first [exact Hk | reflexivity]|]. split; [exact Hk0|].
    split; [first [exact Hr | reflexivity]|].
    apply checkIdempotency_fresh; assumption.
Qed.

Lemma findUnique_none_map {J : Type} (store : list (Idempotency.IdempotencyRecord J))
    (k : string) (f : Idempotency.IdempotencyRecord J -> Idempotency.IdempotencyRecord J) :
  Idempotency.findUnique store k = None ->
  map (fun r => if (Idempotency.key r =? k)%string then f r else r) store = store.
Proof.
  unfold Idempotency.findUnique.
  induction store as [|r store IH]; cbn [find map]; [reflexivity|].
  destruct (Idempotency.key r =? k)%string; [discriminate|].
  intros H. rewrite (IH H). reflexivity.
Qed.

Lemma findUnique_app_fresh {J : Type} (store : list (Idempotency.IdempotencyRecord J))
    (k : string) (r : Idempotency.IdempotencyRecord J) :
  Idempotency.findUnique store k = None -> Idempotency.key r = k ->
  Idempotency.findUnique (store ++ [r]) k = Some r.
Proof.
  unfold Idempotency.findUnique.
  induction store as [|x store IH]; cbn [find app].
  - intros _ ->. rewrite String.eqb_refl. reflexivity.
  - destruct (Idempotency.key x =? k)%string; [discriminate|]. exact IH.
Qed.

(** [finalizeIdempotency] on the store the middleware left. *)
Lemma finalizeIdempotency_fresh store k req code body :
  k <> EmptyString -> Idempotency.findUnique store k = None ->
  Idempotency.finalizeIdempotency (Some k) code body (store ++ [pending_record k req])
  = store ++ [finalized_record k req code body].
Proof.
  intros Hk0 Hr. unfold Idempotency.finalizeIdempotency.
  rewrite (truthy_nonempty k Hk0). cbn [negb].
  rewrite map_app, (findUnique_none_map store k _ Hr). cbn [map].
  unfold RouteProps.pending_record at 1. cbn [Idempotency.key].
  rewrite String.eqb_refl. reflexivity.
Qed.

(** ** The controller *)

Lemma createOrder_invalid cfg env key req w :
  valid_body req = false ->
  createOrder cfg env key req w = (w, by_controller 400 INVALID_REQUEST, []).
Proof.
  unfold valid_body, OrderController.createOrder. cbv zeta.
  destruct (body_userId req) as [u|]; [|reflexivity].
  destruct (body_items req) as [[|it its]|]; try reflexivity.
  rewrite andb_true_r. intros ->. reflexivity.
Qed.

Lemma createOrder_valid cfg env k req w :
  k <> EmptyString -> valid_body req = true ->
  exists userId items,
    body_userId req = Some userId /\ body_items req = Some items /\ items <> []
    /\ createOrder cfg env (Some k) req w
       = match OrderService.createOrderSaga generateTotalsSignature cfg env
                 (OrderService.mkOrderData userId items (Some k) None) (orders w) with
         | (OrderService.returns approvedOrder totals, db, calls) =>
             (mkWorld (Idempotency.finalizeIdempotency (Some k) 201
                         (order_json approvedOrder totals) (idempotency_keys w)) db,
              by_controller 201 (order_json approvedOrder totals), calls)
         | (error, db, calls) =>
             (mkWorld (Idempotency.finalizeIdempotency (Some k) 500
                         (ORDER_CREATION_FAILED error None) (idempotency_keys w)) db,
              by_controller 500 (ORDER_CREATION_FAILED error None), calls)
         end.
Proof.
  intros Hk0. unfold valid_body, OrderController.createOrder. cbv zeta.
  destruct (body_userId req) as [u|]; [|discriminate].
  destruct (body_items req) as [[|it its]|]; try (rewrite andb_false_r; discriminate).
  rewrite andb_true_r. intros ->. cbn [negb].
  exists u, (it :: its). split; [reflexivity|]. split; [reflexivity|].
  split; [discriminate|].
  assert (Hor : forall a b, or_str (or_str (Some k) a) b = Some k).
  { intros a b. unfold or_str. rewrite (truthy_nonempty k Hk0).
    rewrite (truthy_nonempty k Hk0). reflexivity. }
  rewrite Hor.
  destruct (OrderService.createOrderSaga _ _ _ _ _) as [[[o t|e|e] db] calls]; reflexivity.
Qed.

(** The route on a request whose key has no record. *)
Lemma POST_orders_fresh cfg env req w k :
  key_of req = Some k -> k <> EmptyString ->
  Idempotency.findUnique (idempotency_keys w) k = None ->
  POST_orders cfg env req w
  = createOrder cfg env (Some k) req
      (mkWorld (idempotency_keys w ++ [pending_record k req]) (orders w)).
Proof.
  intros Hk Hk0 Hr. unfold OrderController.POST_orders.
  rewrite (checkIdempotency_fresh _ _ _ _ k Hk Hk0 Hr). reflexivity.
Qed.

(** The route on a request whose key has a record. *)
Lemma POST_orders_existing cfg env req w k r :
  key_of req = Some k -> k <> EmptyString ->
  Idempotency.findUnique (idempotency_keys w) k = Some r ->
  POST_orders cfg env req w
  = (w,
     match Idempotency.response_code r with
     | Some code =>
         if (200 <=? code) && (code <? 400)
         then by_middleware code (Idempotency.cached (Idempotency.response_body r))
         else by_middleware 409
                (Idempotency.CONFLICT k (Idempotency.FAILED_ code)
                   (Idempotency.resource_path r))
     | None =>
         by_middleware 409
           (Idempotency.CONFLICT k Idempotency.IN_PROGRESS (Idempotency.resource_path r))
     end, []).
Proof.
  intros Hk Hk0 Hr. unfold OrderController.POST_orders.
  rewrite (IdempotencyFacts.checkIdempotency_existing request_hash_of _ _ _ _ k r Hk Hk0 Hr).
  destruct (Idempotency.response_code r) as [code|];
    [destruct ((200 <=? code) && (code <? 400))|];
    rewrite IdempotencyFacts.World_eta; reflexivity.
Qed.

(** X22.  When the middleware answers a POST /v1/orders request itself,
    the status is 400, 409 or one from 200 to 399, no outbound call is
    made and neither the idempotency records nor the orders change. *)
Theorem middleware_answer_changes_nothing cfg env req w w' s b calls :
  POST_orders cfg env req w = (w', by_middleware s b, calls) ->
  w' = w /\ calls = [] /\ (s = 400 \/ s = 409 \/ 200 <= s < 400).
Proof.
  unfold OrderController.POST_orders.
  destruct (checkIdempotency_cases (fun name => prop name (headers req)) (baseUrl_path req)
              (request_json (body_userId req) (body_items req)) (idempotency_keys w))
    as [(s0 & b0 & Heq & Hs)|(k & Hk & Hk0 & Hr & Heq)]; rewrite Heq.
  - rewrite IdempotencyFacts.World_eta. intros H. injection H as <- <- <- <-.
    repeat split. exact Hs.
  - destruct (valid_body req) eqn:Hv.
    + destruct (createOrder_valid cfg env k req
                  (mkWorld (idempotency_keys w ++ [pending_record k req]) (orders w))
                  Hk0 Hv) as (u & its & _ & _ & _ & Hc).
      unfold RouteProps.pending_record in Hc. rewrite Hc.
      destruct (OrderService.createOrderSaga _ _ _ _ _) as [[[o t|e|e] db] cs];
        discriminate.
    + unfold RouteProps.pending_record.
      rewrite (createOrder_invalid cfg env (Some k) req _ Hv). discriminate.
Qed.

(** X23.  A request with a valid body whose key has no record is answered
    by the controller with 201 or 500, and the record of the key is
    appended, finalized with that status and body.  Every later request
    with the key, whatever its body and whatever the services would
    answer, is then answered by the middleware with no outbound call and
    no change: the stored 201 and body are replayed, and after a 500 the
    answer is 409 CONFLICT with existing status FAILED_500. *)
Theorem fresh_key_is_finalized_and_replayed cfg env req w k :
  key_of req = Some k -> k <> EmptyString ->
  Idempotency.findUnique (idempotency_keys w) k = None ->
  valid_body req = true ->
  exists s b w1 calls,
    POST_orders cfg env req w = (w1, by_controller s b, calls)
    /\ (s = 201 \/ s = 500)
    /\ idempotency_keys w1 = idempotency_keys w ++ [finalized_record k req s b]
    /\ forall cfg' env' req',
         key_of req' = Some k ->
         POST_orders cfg' env' req' w1
         = (w1,
            if s =? 201 then by_middleware 201 (Idempotency.cached (Some b))
            else by_middleware 409
                   (Idempotency.CONFLICT k (Idempotency.FAILED_ 500) (baseUrl_path req)),
            []).
Proof.
  intros Hk Hk0 Hr Hv.
  rewrite (POST_orders_fresh cfg env req w k Hk Hk0 Hr).
  destruct (createOrder_valid cfg env k req
              (mkWorld (idempotency_keys w ++ [pending_record k req]) (orders w))
              Hk0 Hv) as (u & its & _ & _ & _ & Hc).
  rewrite Hc. cbn [orders idempotency_keys].
  destruct (OrderService.createOrderSaga _ _ _ _ _) as [[res db] cs].
  assert (Hretry : forall s b cfg' env' req',
             (s = 201 \/ s = 500) -> key_of req' = Some k ->
             POST_orders cfg' env' req'
               (mkWorld (idempotency_keys w ++ [finalized_record k req s b]) db)
             = (mkWorld (idempotency_keys w ++ [finalized_record k req s b]) db,
                if s =? 201 then by_middleware 201 (Idempotency.cached (Some b))
                else by_middleware 409
                       (Idempotency.CONFLICT k (Idempotency.FAILED_ 500) (baseUrl_path req)),
                [])).
  { intros s b cfg' env' req' Hs Hk'.
    rewrite (POST_orders_existing cfg' env' req'
               (mkWorld (idempotency_keys w ++ [finalized_record k req s b]) db)
               k (finalized_record k req s b) Hk' Hk0
               (findUnique_app_fresh _ k (finalized_record k req s b) Hr eq_refl)).
    destruct Hs as [-> | ->]; reflexivity. }
  destruct res as [o t|e|e]; rewrite (finalizeIdempotency_fresh _ k req _ _ Hk0 Hr);
    eexists _, _, _, _; (split; [reflexivity|]);
    (split; [first [left; reflexivity | right; reflexivity]|]);
    (split; [reflexivity|]);
    intros cfg' env' req' Hk'; apply Hretry;
      first [left; reflexivity | right; reflexivity | exact Hk'].
Qed.

(** X24.  A request whose key has no record and whose body has no user id
    or no items is answered 400 INVALID_REQUEST by the controller after
    the middleware has stored the pending record, which is never
    finalized: every later request with the key, a corrected one
    included, is answered 409 CONFLICT with existing status IN_PROGRESS
    and runs nothing. *)
Theorem invalid_body_leaves_the_key_pending cfg env req w k :
  key_of req = Some k -> k <> EmptyString ->
  Idempotency.findUnique (idempotency_keys w) k = None ->
  valid_body req = false ->
  let w1 := mkWorld (idempotency_keys w ++ [pending_record k req]) (orders w) in
  POST_orders cfg env req w = (w1, by_controller 400 INVALID_REQUEST, [])
  /\ forall cfg' env' req',
       key_of req' = Some k ->
       POST_orders cfg' env' req' w1
       = (w1,
          by_middleware 409
            (Idempotency.CONFLICT k Idempotency.IN_PROGRESS (baseUrl_path req)),
          []).
Proof.
  intros Hk Hk0 Hr Hv. cbv zeta. split.
  - rewrite (POST_orders_fresh cfg env req w k Hk Hk0 Hr).
    apply createOrder_invalid. exact Hv.
  - intros cfg' env' req' Hk'.
    rewrite (POST_orders_existing cfg' env' req'
               (mkWorld (idempotency_keys w ++ [pending_record k req]) (orders w))
               k (pending_record k req) Hk' Hk0
               (findUnique_app_fresh _ k (pending_record k req) Hr eq_refl)).
    reflexivity.
Qed.

(** X25.  A POST /v1/orders request changes no idempotency record of
    another key and no older order and deletes nothing: after it the
    records are the records before with at most one appended, and the
    orders are the orders before with at most one appended; the order
    appended has payment status SUCCESS and order status PENDING when
    the answer is 201 and order status CANCELLED otherwise. *)
Theorem POST_orders_appends_only cfg env req w :
  exists recs ords,
    idempotency_keys (fst (fst (POST_orders cfg env req w))) = idempotency_keys w ++ recs
    /\ (List.length recs <= 1)%nat
    /\ orders (fst (fst (POST_orders cfg env req w))) = orders w ++ ords
    /\ (List.length ords <= 1)%nat
    /\ Forall (fun o =>
                 match snd (fst (POST_orders cfg env req w)) with
                 | by_controller 201 _ =>
                     OrderService.payment_status o = OrderService.SUCCESS
                     /\ OrderService.order_status o = OrderService.PENDING
                 | _ => OrderService.order_status o = OrderService.CANCELLED
                 end) ords.
Proof.
  unfold OrderController.POST_orders.
  destruct (checkIdempotency_cases (fun name => prop name (headers req)) (baseUrl_path req)
              (request_json (body_userId req) (body_items req)) (idempotency_keys w))
    as [(s0 & b0 & Heq & Hs)|(k & Hk & Hk0 & Hr & Heq)]; rewrite Heq.
  { exists [], []. cbn [fst snd idempotency_keys orders]. rewrite !app_nil_r.
    repeat split; try constructor; constructor. }
  destruct (valid_body req) eqn:Hv.
  2:{ rewrite (createOrder_invalid cfg env (Some k) req _ Hv).
      eexists [_], []. cbn [fst snd idempotency_keys orders]. rewrite !app_nil_r.
      split; [reflexivity|]. split; [cbn; lia|]. split; [reflexivity|].
      split; [cbn; lia | constructor]. }
  destruct (createOrder_valid cfg env k req
              (mkWorld (idempotency_keys w ++
                          [Idempotency.mkRecord k (baseUrl_path req)
                             (request_hash_of (request_json (body_userId req)
                                                 (body_items req))) None None])
                       (orders w))
              Hk0 Hv) as (u & its & _ & _ & _ & Hc).
  rewrite Hc. cbn [orders idempotency_keys].
  destruct (SagaOutcomes.createOrderSaga_cases generateTotalsSignature cfg env
              (OrderService.mkOrderData u its (Some k) None) (orders w))
    as (res & db' & gets & rs & ps & qs & Hsaga & _ & Hres).
  rewrite Hsaga.
  pose proof (fun c b => finalizeIdempotency_fresh (idempotency_keys w) k req c b Hk0 Hr)
    as Hfin.
  unfold RouteProps.pending_record in Hfin.
  destruct res as [o t|e|e]; rewrite Hfin; cbn [fst snd idempotency_keys orders].
  - destruct Hres as (items & pid & _ & -> & -> & _).
    eexists [_], [_]. split; [reflexivity|]. split; [cbn; lia|]. split; [reflexivity|].
    split; [cbn; lia|]. constructor; [split; reflexivity | constructor].
  - destruct Hres as (-> & _).
    eexists [_], []. rewrite app_nil_r. split; [reflexivity|]. split; [cbn; lia|].
    split; [reflexivity|]. split; [cbn; lia | constructor].
  - destruct Hres as (items & _ & -> & _).
    eexists [_], [_]. split; [reflexivity|]. split; [cbn; lia|]. split; [reflexivity|].
    split; [cbn; lia|]. constructor; [reflexivity | constructor].
Qed.

(** X26.  Every payment call made for a POST /v1/orders request carries
    the request's idempotency key as its Idempotency-Key and the method
    DEBIT CARD (the controller hands the saga no payment method), names
    the new order, and charges the [order_total] of that order's row in
    the orders table after the request. *)
Theorem POST_orders_payment_call cfg env req w p :
  In (OrderService.POST_payments p) (snd (POST_orders cfg env req w)) ->
  exists k,
    key_of req = Some k
    /\ OrderService.pay_Idempotency_Key p = OrderService.client_key k
    /\ OrderService.method p = "DEBIT CARD"%string
    /\ OrderService.pay_orderId p = OrderService.fresh_order_id (orders w)
    /\ exists o, In o (orders (fst (fst (POST_orders cfg env req w))))
                 /\ OrderService.order_id o = OrderService.pay_orderId p
                 /\ OrderService.order_total o = OrderService.amount p.
Proof.
  unfold OrderController.POST_orders.
  destruct (checkIdempotency_cases (fun name => prop name (headers req)) (baseUrl_path req)
              (request_json (body_userId req) (body_items req)) (idempotency_keys w))
    as [(s0 & b0 & Heq & Hs)|(k & Hk & Hk0 & Hr & Heq)]; rewrite Heq.
  { intros []. }
  destruct (valid_body req) eqn:Hv.
  2:{ rewrite (createOrder_invalid cfg env (Some k) req _ Hv). intros []. }
  destruct (createOrder_valid cfg env k req
              (mkWorld (idempotency_keys w ++
                          [Idempotency.mkRecord k (baseUrl_path req)
                             (request_hash_of (request_json (body_userId req)
                                                 (body_items req))) None None])
                       (orders w))
              Hk0 Hv) as (u & its & _ & _ & _ & Hc).
  rewrite Hc. cbn [orders idempotency_keys].
  pose proof (SagaOutcomes.payment_call_of_run generateTotalsSignature cfg env
                (OrderService.mkOrderData u its (Some k) None) (orders w) p) as Hpay.
  destruct (OrderService.createOrderSaga _ _ _ _ _) as [[res db] cs].
  cbn [fst snd] in Hpay.
  assert (Hcs : In (OrderService.POST_payments p) cs ->
                OrderService.pay_Idempotency_Key p = OrderService.client_key k
                /\ OrderService.method p = "DEBIT CARD"%string
                /\ OrderService.pay_orderId p = OrderService.fresh_order_id (orders w)
                /\ exists o, In o db
                             /\ OrderService.order_id o = OrderService.pay_orderId p
                             /\ OrderService.order_total o = OrderService.amount p).
  { intros Hin. destruct (Hpay Hin) as (items & _ & -> & _ & o & Ho & Hid & Htot).
    cbn [OrderService.payment_call OrderService.pay_Idempotency_Key OrderService.method
         OrderService.pay_orderId OrderService.amount OrderService.idempotencyKey
         OrderService.paymentMethod].
    rewrite (truthy_nonempty k Hk0). split; [reflexivity|]. split; [reflexivity|].
    split; [reflexivity|]. exists o. repeat split; assumption. }
  destruct res as [o t|e|e]; cbn [fst snd orders]; intros Hin; exists k;
    (split; [exact Hk | apply Hcs; exact Hin]).
Qed.

End Route.

Lemma middleware_answer_changes_nothing_witness :
  exists w' s b calls,
    POST_orders (fun _ _ => "sig"%string) (fun _ => "hash"%string)
      SagaFixtures.happy_cfg SagaFixtures.live_env no_key_request empty_world
    = (w', by_middleware s b, calls)
    /\ w' = empty_world /\ calls = [] /\ s = 400.
Proof.
  eexists _, _, _, _. split; [vm_compute; reflexivity|].
  destruct (middleware_answer_changes_nothing (fun _ _ => "sig"%string)
              (fun _ => "hash"%string) SagaFixtures.happy_cfg SagaFixtures.live_env
              no_key_request empty_world _ _ _ _ eq_refl) as (H1 & H2 & _).
  split; [exact H1|]. split; [exact H2 | reflexivity].
Defined.

Lemma fresh_key_is_finalized_and_replayed_witness :
  exists b w1 calls,
    POST_orders (fun _ _ => "sig"%string) (fun _ => "hash"%string)
      SagaFixtures.happy_cfg SagaFixtures.reserved_env retry_request empty_world
    = (w1, by_controller 201 b, calls)
    /\ POST_orders (fun _ _ => "sig"%string) (fun _ => "hash"%string)
         SagaFixtures.happy_cfg SagaFixtures.live_env no_items_request w1
       = (w1, by_middleware 201 (Idempotency.cached (Some b)), []).
Proof.
  destruct (fresh_key_is_finalized_and_replayed (fun _ _ => "sig"%string)
              (fun _ => "hash"%string) SagaFixtures.happy_cfg SagaFixtures.reserved_env
              retry_request empty_world "k3"%string eq_refl ltac:(discriminate) eq_refl
              eq_refl) as (s & b & w1 & calls & Hrun & Hs & Hrec & Hretry).
  assert (Hs201 : s = 201).
  { vm_compute in Hrun. injection Hrun as _ Hs' _ _. symmetry. exact Hs'. }
  subst s. exists b, w1, calls. split; [exact Hrun|].
  apply (Hretry SagaFixtures.happy_cfg SagaFixtures.live_env no_items_request eq_refl).
Defined.

Lemma invalid_body_leaves_the_key_pending_witness :
  POST_orders (fun _ _ => "sig"%string) (fun _ => "hash"%string)
    SagaFixtures.happy_cfg SagaFixtures.live_env no_items_request empty_world
  = (mkWorld [pending_record (fun _ => "hash"%string) "k3" no_items_request] [],
     by_controller 400 INVALID_REQUEST, [])
  /\ POST_orders (fun _ _ => "sig"%string) (fun _ => "hash"%string)
       SagaFixtures.happy_cfg SagaFixtures.reserved_env retry_request
       (mkWorld [pending_record (fun _ => "hash"%string) "k3" no_items_request] [])
     = (mkWorld [pending_record (fun _ => "hash"%string) "k3" no_items_request] [],
        by_middleware 409
          (Idempotency.CONFLICT "k3" Idempotency.IN_PROGRESS "/v1/orders/"), []).
Proof.
  destruct (invalid_body_leaves_the_key_pending (fun _ _ => "sig"%string)
              (fun _ => "hash"%string) SagaFixtures.happy_cfg SagaFixtures.live_env
              no_items_request empty_world "k3"%string eq_refl ltac:(discriminate) eq_refl
              eq_refl) as [H1 H2].
  split; [exact H1|].
  apply (H2 SagaFixtures.happy_cfg SagaFixtures.reserved_env retry_request eq_refl).
Defined.

Lemma POST_orders_payment_call_witness :
  exists p,
    In (OrderService.POST_payments p)
       (snd (POST_orders (fun _ _ => "sig"%string) (fun _ => "hash"%string)
               SagaFixtures.happy_cfg SagaFixtures.reserved_env retry_request empty_world))
    /\ OrderService.pay_Idempotency_Key p = OrderService.client_key "k3"
    /\ OrderService.method p = "DEBIT CARD"%string.
Proof.
  eexists. split; [vm_compute; right; right; right; left; reflexivity|].
  destruct (POST_orders_payment_call (fun _ _ => "sig"%string) (fun _ => "hash"%string)
              SagaFixtures.happy_cfg SagaFixtures.reserved_env retry_request empty_world _
              ltac:(vm_compute; right; right; right; left; reflexivity))
    as (k & Hk & H1 & H2 & _).
  injection Hk as <-. split; assumption.
Defined.

End RouteFacts.

(* ===================================================================== *)
(** * Rounding and totals: further laws *)
(* ===================================================================== *)

Module RoundingLaws.
Import Rounding Totals.








End RoundingLaws.
